(** * Open Location Code (plus+codes): the codec core of [compressed.js]

    A shallow embedding of the [OpenLocationCode] module (validators, encoder,
    decoder, shortener, recoverer) and the properties of its specification.

    JavaScript strings are modelled as [string] (the codes the validators
    accept are ASCII); JavaScript numbers are kept behind the interface
    [Number], with two instances: IEEE-754 binary64 ([float], what the
    program runs on) and exact rationals ([Q], the arithmetic the algorithm
    is designed for).  Code lengths, string lengths and indices are integers
    ([Z]). *)

From Stdlib Require Import ZArith QArith Qround Qabs Qpower Floats.
From Stdlib Require Import String Ascii List Bool Lia Lqa.
Import ListNotations.

Local Open Scope string_scope.
Local Open Scope Z_scope.

(** ** JavaScript string primitives *)

Module JsString.

(** [s.length] *)
Definition length (s : string) : Z := Z.of_nat (String.length s).

(** [s.indexOf(pat)]: index of the first occurrence, [-1] when absent;
    the empty pattern is found at 0. *)
Definition indexOf (s pat : string) : Z :=
  match String.index 0 pat s with
  | Some n => Z.of_nat n
  | None => -1
  end.

Fixpoint last_index (pat s : string) : option nat :=
  match s with
  | EmptyString => if String.prefix pat "" then Some 0%nat else None
  | String _ s' =>
      match last_index pat s' with
      | Some n => Some (S n)
      | None => if String.prefix pat s then Some 0%nat else None
      end
  end.

(** [s.lastIndexOf(pat)] *)
Definition lastIndexOf (s pat : string) : Z :=
  match last_index pat s with
  | Some n => Z.of_nat n
  | None => -1
  end.

(** [s.charAt(i)]: the one-character string at [i], the empty string when
    [i] is out of range. *)
Definition charAt (s : string) (i : Z) : string :=
  if i <? 0 then ""
  else match String.get (Z.to_nat i) s with
       | Some c => String c ""
       | None => ""
       end.

Definition upper (c : ascii) : ascii :=
  let n := nat_of_ascii c in
  if ((97 <=? n) && (n <=? 122))%nat then ascii_of_nat (n - 32) else c.

(** [s.toUpperCase()].  Only the letters a-z are mapped: no other
    character has an upper case in the code alphabet.  On a string of ASCII
    characters this is what JavaScript computes. *)
Fixpoint toUpperCase (s : string) : string :=
  match s with
  | EmptyString => EmptyString
  | String c s' => String (upper c) (toUpperCase s')
  end.

(** [s.substring(start)] *)
Definition substringFrom (s : string) (start : Z) : string :=
  let n := Z.to_nat start in
  String.substring n (String.length s - n) s.

(** [s.substring(0, stop)], which is also [s.substr(0, stop)] *)
Definition substringTo (s : string) (stop : Z) : string :=
  String.substring 0 (Z.to_nat stop) s.

Fixpoint drop_run (c : ascii) (s : string) : string :=
  match s with
  | EmptyString => EmptyString
  | String a s' => if Ascii.eqb a c then drop_run c s' else s
  end.

Fixpoint take_run (c : ascii) (s : string) : string :=
  match s with
  | EmptyString => EmptyString
  | String a s' => if Ascii.eqb a c then String a (take_run c s') else EmptyString
  end.

(** [s.replace(new RegExp(c + '+'), '')]: the first maximal run of the
    character [c] is removed. *)
Fixpoint replaceRun (c : ascii) (s : string) : string :=
  match s with
  | EmptyString => EmptyString
  | String a s' => if Ascii.eqb a c then drop_run c s' else String a (replaceRun c s')
  end.

(** [s.replace(c, '')] with a string pattern: the first occurrence is
    removed. *)
Fixpoint replaceFirst (c : ascii) (s : string) : string :=
  match s with
  | EmptyString => EmptyString
  | String a s' => if Ascii.eqb a c then s' else String a (replaceFirst c s')
  end.

(** [s.match(new RegExp('(' + c + '+)', 'g'))]: the maximal runs of [c],
    left to right ([null], here the empty list, when there is none). *)
Fixpoint matchRuns (fuel : nat) (c : ascii) (s : string) : list string :=
  match fuel with
  | O => []
  | S fuel' =>
      match s with
      | EmptyString => []
      | String a s' =>
          if Ascii.eqb a c then take_run c s :: matchRuns fuel' c (drop_run c s')
          else matchRuns fuel' c s'
      end
  end.

Definition matchAll (c : ascii) (s : string) : list string :=
  matchRuns (String.length s) c s.

(** [Array(n + 1).join(c)] *)
Fixpoint repeat (c : ascii) (n : nat) : string :=
  match n with
  | O => EmptyString
  | S n' => String c (repeat c n')
  end.

End JsString.

(** ** Constants *)

Definition SEPARATOR_ : string := "+".
Definition SEPARATOR_POSITION_ : Z := 8.
Definition PADDING_CHARACTER_ : string := "0".
Definition CODE_ALPHABET_ : string := "23456789CFGHJMPQRVWX".
Definition ENCODING_BASE_ : Z := JsString.length CODE_ALPHABET_.
Definition LATITUDE_MAX_ : Z := 90.
Definition LONGITUDE_MAX_ : Z := 180.
Definition PAIR_CODE_LENGTH_ : Z := 10.
Definition GRID_COLUMNS_ : Z := 4.
Definition GRID_ROWS_ : Z := 5.
Definition MIN_TRIMMABLE_CODE_LEN_ : Z := 6.

Definition sep_char : ascii := "+"%char.
Definition pad_char : ascii := "0"%char.

(** ** Characters of a string *)

(** The first position of a character: what [indexOf] computes for a
    one-character pattern. *)
Fixpoint find_char (c : ascii) (s : string) : option nat :=
  match s with
  | EmptyString => None
  | String a s' => if Ascii.eqb a c then Some 0%nat else option_map S (find_char c s')
  end.

(** Membership of a character in a string. *)
Fixpoint mem_char (c : ascii) (s : string) : bool :=
  match s with
  | EmptyString => false
  | String a s' => Ascii.eqb a c || mem_char c s'
  end.

(** Every character of the string satisfies [p]. *)
Fixpoint all_chars (p : ascii -> bool) (s : string) : bool :=
  match s with
  | EmptyString => true
  | String a s' => p a && all_chars p s'
  end.

(** ** Validators *)

(** The final loop of [isValid]: every character, upper-cased, is the
    separator or a member of the alphabet. *)
Fixpoint all_code_chars (fuel : nat) (code : string) (i : Z) : bool :=
  match fuel with
  | O => true
  | S fuel' =>
      if i <? JsString.length code then
        let character := JsString.toUpperCase (JsString.charAt code i) in
        if negb (String.eqb character SEPARATOR_)
           && (JsString.indexOf CODE_ALPHABET_ character =? -1)
        then false
        else all_code_chars fuel' code (i + 1)
      else true
  end.

(** The end of [isValid], after the padding checks: a single character
    after the separator is rejected, then the separator and the padding are
    stripped and the remaining characters checked. *)
Definition isValid_rest (code : string) : bool :=
  if JsString.length code - JsString.indexOf code SEPARATOR_ - 1 =? 1 then false
  else
    let code' := JsString.replaceRun pad_char (JsString.replaceRun sep_char code) in
    all_code_chars (String.length code') code' 0.

Definition isValid (code : string) : bool :=
  if String.eqb code "" then false
  else if JsString.indexOf code SEPARATOR_ =? -1 then false
  else if negb (JsString.indexOf code SEPARATOR_ =? JsString.lastIndexOf code SEPARATOR_)
  then false
  else if (JsString.indexOf code SEPARATOR_ >? SEPARATOR_POSITION_)
          || (Z.rem (JsString.indexOf code SEPARATOR_) 2 =? 1)
  then false
  else if JsString.indexOf code PADDING_CHARACTER_ >? -1 then
    if JsString.indexOf code PADDING_CHARACTER_ =? 0 then false
    else
      let padMatch := JsString.matchAll pad_char code in
      if (Z.of_nat (List.length padMatch) >? 1)
         || (Z.rem (JsString.length (nth 0 padMatch "")) 2 =? 1)
         || (JsString.length (nth 0 padMatch "") >? SEPARATOR_POSITION_ - 2)
      then false
      else if negb (String.eqb (JsString.charAt code (JsString.length code - 1))
                               SEPARATOR_)
      then false
      else isValid_rest code
  else isValid_rest code.

Definition isShort (code : string) : bool :=
  if negb (isValid code) then false
  else if (JsString.indexOf code SEPARATOR_ >=? 0)
          && (JsString.indexOf code SEPARATOR_ <? SEPARATOR_POSITION_)
  then true
  else false.

Definition isFull (code : string) : bool :=
  if negb (isValid code) then false
  else if isShort code then false
  else
    let firstLatValue :=
      JsString.indexOf CODE_ALPHABET_ (JsString.toUpperCase (JsString.charAt code 0))
      * ENCODING_BASE_ in
    if firstLatValue >=? LATITUDE_MAX_ * 2 then false
    else if (JsString.length code >? 1)
            && (JsString.indexOf CODE_ALPHABET_
                  (JsString.toUpperCase (JsString.charAt code 1)) * ENCODING_BASE_
                >=? LONGITUDE_MAX_ * 2)
    then false
    else true.


(** What the last loop of [isValid] asks of a character. *)
Definition valid_char (c : ascii) : bool :=
  negb (negb (String.eqb (String (JsString.upper c) "") SEPARATOR_)
        && (JsString.indexOf CODE_ALPHABET_ (String (JsString.upper c) "") =? -1)).

(** A character of the code alphabet, the separator or the padding. *)
Definition code_char (c : ascii) : bool :=
  mem_char c CODE_ALPHABET_ || Ascii.eqb c sep_char || Ascii.eqb c pad_char.

(** The lengths [encode] refuses. *)
Definition rejected_length (len : Z) : Prop :=
  len < 2 \/ (len < 8 /\ Z.rem len 2 = 1).

(** ** Numbers *)

(** The operations the codec uses on JavaScript numbers. *)
Class Number (num : Type) : Type := {
  of_Z : Z -> num;                (* an integer used as a number *)
  add : num -> num -> num;
  sub : num -> num -> num;
  mul : num -> num -> num;
  div : num -> num -> num;
  rem : num -> num -> num;        (* [x % y] *)
  ltb : num -> num -> bool;       (* [x < y] *)
  leb : num -> num -> bool;       (* [x <= y] *)
  eqb : num -> num -> bool;       (* [x == y] *)
  floor : num -> num;             (* [Math.floor] *)
  opp : num -> num;               (* [-x] *)
  abs : num -> num;               (* [Math.abs] *)
  min : num -> num -> num;        (* [Math.min] *)
  max : num -> num -> num;        (* [Math.max] *)
  pow : num -> Z -> num;          (* [Math.pow] at an integer exponent *)
  toInteger : num -> Z;           (* the index conversion of [charAt] *)
  undefined : num                 (* arithmetic on a missing array element *)
}.

Declare Scope num_scope.
Delimit Scope num_scope with num.
Infix "+" := add : num_scope.
Infix "-" := sub : num_scope.
Infix "*" := mul : num_scope.
Infix "/" := div : num_scope.
Infix "<?" := ltb : num_scope.
Infix "<=?" := leb : num_scope.
Infix "=?" := eqb : num_scope.
Notation "x >? y" := (ltb y x) (only parsing) : num_scope.
Notation "x >=? y" := (leb y x) (only parsing) : num_scope.

(** Errors thrown by the public operations. *)
Inductive exn : Type :=
| InvalidLength       (* 'IllegalArgumentException: Invalid Open Location Code length' *)
| NotFullCode         (* 'IllegalArgumentException: Passed Open Location Code is not a valid full code' *)
| NotShortCode        (* 'ValueError: Passed short code is not valid' *)
| ShortenNotFull      (* 'ValueError: Passed code is not valid and full' *)
| ShortenPadded       (* 'ValueError: Cannot shorten padded codes' *)
| ShortenTooShort.    (* 'ValueError: Code length must be at least 6' *)

(** What a call does: return a value, throw, or still be running in
    [normalizeLongitude] when the fuel is spent. *)
Inductive outcome (A : Type) : Type :=
| Return (a : A)
| Throw (e : exn)
| Running.
Arguments Return {A} a.
Arguments Throw {A} e.
Arguments Running {A}.

Definition bind {A B : Type} (m : outcome A) (k : A -> outcome B) : outcome B :=
  match m with
  | Return a => k a
  | Throw e => Throw e
  | Running => Running
  end.

Notation "'let*' x ':=' m 'in' k" := (bind m (fun x => k))
  (at level 10, x name, m at level 100, k at level 200).

(** ** The codec *)

Section Codec.

Context {num : Type} {N : Number num}.
Local Open Scope num_scope.

(** A literal such as [.05] denotes the number nearest to 5/100, which is
    the quotient of the two integers. *)
Definition decimal (m d : Z) : num := of_Z m / of_Z d.

Definition PAIR_RESOLUTIONS_ : list num :=
  [of_Z 20; of_Z 1; decimal 5 100; decimal 25 10000; decimal 125 1000000].

Definition GRID_SIZE_DEGREES_ : num := decimal 125 1000000.

(** [PAIR_RESOLUTIONS_[i]] *)
Definition PAIR_RESOLUTIONS_at (i : Z) : num :=
  if (i <? 0)%Z then undefined else nth (Z.to_nat i) PAIR_RESOLUTIONS_ undefined.

Record CodeArea : Type := mkCodeArea {
  latitudeLo : num;
  longitudeLo : num;
  latitudeHi : num;
  longitudeHi : num;
  codeLength : Z;
  latitudeCenter : num;
  longitudeCenter : num
}.

(** The constructor [CodeArea.fn.init]. *)
Definition newCodeArea (latitudeLo longitudeLo latitudeHi longitudeHi : num)
           (codeLength : Z) : CodeArea :=
  mkCodeArea latitudeLo longitudeLo latitudeHi longitudeHi codeLength
    (min (latitudeLo + (latitudeHi - latitudeLo) / of_Z 2) (of_Z LATITUDE_MAX_))
    (min (longitudeLo + (longitudeHi - longitudeLo) / of_Z 2) (of_Z LONGITUDE_MAX_)).

Definition clipLatitude (latitude : num) : num :=
  min (of_Z 90) (max (of_Z (-90)) latitude).

Definition computeLatitudePrecision (codeLength : Z) : num :=
  if (codeLength <=? 10)%Z then
    (* Math.floor(codeLength / -2 + 2) *)
    pow (of_Z 20) ((- codeLength) / 2 + 2)%Z
  else pow (of_Z 20) (-3) / pow (of_Z GRID_ROWS_) (codeLength - 10)%Z.

Fixpoint normalize_up (fuel : nat) (longitude : num) : outcome num :=
  if longitude <? of_Z (-180) then
    match fuel with
    | O => Running
    | S fuel' => normalize_up fuel' (longitude + of_Z 360)
    end
  else Return longitude.

Fixpoint normalize_down (fuel : nat) (longitude : num) : outcome num :=
  if longitude >=? of_Z 180 then
    match fuel with
    | O => Running
    | S fuel' => normalize_down fuel' (longitude - of_Z 360)
    end
  else Return longitude.

(** The two [while] loops of [normalizeLongitude]; each may run [fuel]
    times. *)
Definition normalizeLongitude (fuel : nat) (longitude : num) : outcome num :=
  let* longitude := normalize_up fuel longitude in
  normalize_down fuel longitude.

(** The [while (digitCount < codeLength)] loop of [encodePairs]; the digit
    count grows by two each time round. *)
Fixpoint encodePairs_loop (fuel : nat) (codeLength digitCount : Z)
         (adjustedLatitude adjustedLongitude : num) (code : string) : string :=
  match fuel with
  | O => code
  | S fuel' =>
      if (digitCount <? codeLength)%Z then
        let placeValue := PAIR_RESOLUTIONS_at (digitCount / 2) in
        let digitValue := floor (adjustedLatitude / placeValue) in
        let adjustedLatitude := adjustedLatitude - digitValue * placeValue in
        let code := (code ++ JsString.charAt CODE_ALPHABET_ (toInteger digitValue))%string in
        let digitCount := (digitCount + 1)%Z in
        let digitValue := floor (adjustedLongitude / placeValue) in
        let adjustedLongitude := adjustedLongitude - digitValue * placeValue in
        let code := (code ++ JsString.charAt CODE_ALPHABET_ (toInteger digitValue))%string in
        let digitCount := (digitCount + 1)%Z in
        let code :=
          if (digitCount =? SEPARATOR_POSITION_)%Z && (digitCount <? codeLength)%Z
          then (code ++ SEPARATOR_)%string else code in
        encodePairs_loop fuel' codeLength digitCount adjustedLatitude adjustedLongitude code
      else code
  end.

Definition encodePairs (latitude longitude : num) (codeLength : Z) : string :=
  let adjustedLatitude := latitude + of_Z LATITUDE_MAX_ in
  let adjustedLongitude := longitude + of_Z LONGITUDE_MAX_ in
  let code :=
    encodePairs_loop (Z.to_nat codeLength) codeLength 0
                     adjustedLatitude adjustedLongitude "" in
  let code :=
    if (JsString.length code <? SEPARATOR_POSITION_)%Z
    then (code ++ JsString.repeat pad_char
                    (Z.to_nat (SEPARATOR_POSITION_ - JsString.length code)))%string
    else code in
  if (JsString.length code =? SEPARATOR_POSITION_)%Z
  then (code ++ SEPARATOR_)%string else code.

(** The [for] loop of [encodeGrid], [n] rounds to go. *)
Fixpoint encodeGrid_loop (n : nat) (latPlaceValue lngPlaceValue : num)
         (adjustedLatitude adjustedLongitude : num) (code : string) : string :=
  match n with
  | O => code
  | S n' =>
      let row := floor (adjustedLatitude / (latPlaceValue / of_Z GRID_ROWS_)) in
      let col := floor (adjustedLongitude / (lngPlaceValue / of_Z GRID_COLUMNS_)) in
      let latPlaceValue := latPlaceValue / of_Z GRID_ROWS_ in
      let lngPlaceValue := lngPlaceValue / of_Z GRID_COLUMNS_ in
      let adjustedLatitude := adjustedLatitude - row * latPlaceValue in
      let adjustedLongitude := adjustedLongitude - col * lngPlaceValue in
      let code :=
        (code ++ JsString.charAt CODE_ALPHABET_
                   (toInteger (row * of_Z GRID_COLUMNS_ + col)))%string in
      encodeGrid_loop n' latPlaceValue lngPlaceValue adjustedLatitude adjustedLongitude code
  end.

Definition encodeGrid (latitude longitude : num) (codeLength : Z) : string :=
  let latPlaceValue := GRID_SIZE_DEGREES_ in
  let lngPlaceValue := GRID_SIZE_DEGREES_ in
  let adjustedLatitude := rem (latitude + of_Z LATITUDE_MAX_) latPlaceValue in
  let adjustedLongitude := rem (longitude + of_Z LONGITUDE_MAX_) lngPlaceValue in
  encodeGrid_loop (Z.to_nat codeLength) latPlaceValue lngPlaceValue
                  adjustedLatitude adjustedLongitude "".

(** [encode(latitude, longitude, codeLength)]; a call without the third
    argument passes [PAIR_CODE_LENGTH_]. *)
Definition encode (fuel : nat) (latitude longitude : num) (codeLength : Z)
  : outcome string :=
  if (codeLength <? 2)%Z
     || ((codeLength <? SEPARATOR_POSITION_)%Z && (Z.rem codeLength 2 =? 1)%Z)
  then Throw InvalidLength
  else
    let latitude := clipLatitude latitude in
    let* longitude := normalizeLongitude fuel longitude in
    let latitude :=
      if latitude =? of_Z 90 then latitude - computeLatitudePrecision codeLength
      else latitude in
    let code := encodePairs latitude longitude (Z.min codeLength PAIR_CODE_LENGTH_) in
    if (codeLength >? PAIR_CODE_LENGTH_)%Z
    then Return (code ++ encodeGrid latitude longitude (codeLength - PAIR_CODE_LENGTH_))%string
    else Return code.

(** The [while] loop of [decodePairsSequence]; returns the final [i] and
    [value]. *)
Fixpoint decodePairsSequence_loop (fuel : nat) (code : string) (offset i : Z)
         (value : num) : Z * num :=
  match fuel with
  | O => (i, value)
  | S fuel' =>
      if (i * 2 + offset <? JsString.length code)%Z then
        let value :=
          value + of_Z (JsString.indexOf CODE_ALPHABET_
                          (JsString.charAt code (i * 2 + offset)))
                  * PAIR_RESOLUTIONS_at i in
        decodePairsSequence_loop fuel' code offset (i + 1) value
      else (i, value)
  end.

Definition decodePairsSequence (code : string) (offset : Z) : num * num :=
  let '(i, value) :=
    decodePairsSequence_loop (String.length code) code offset 0 (of_Z 0) in
  (value, value + PAIR_RESOLUTIONS_at (i - 1)).

Definition decodePairs (code : string) : CodeArea :=
  let latitude := decodePairsSequence code 0 in
  let longitude := decodePairsSequence code 1 in
  newCodeArea (fst latitude - of_Z LATITUDE_MAX_)
              (fst longitude - of_Z LONGITUDE_MAX_)
              (snd latitude - of_Z LATITUDE_MAX_)
              (snd longitude - of_Z LONGITUDE_MAX_)
              (JsString.length code).

(** The [while (i < code.length)] loop of [decodeGrid], one character of
    the code each time round; returns the final
    [(latitudeLo, longitudeLo, latPlaceValue, lngPlaceValue)]. *)
Fixpoint decodeGrid_loop (code : string)
         (latitudeLo longitudeLo latPlaceValue lngPlaceValue : num)
  : num * num * num * num :=
  match code with
  | EmptyString => (latitudeLo, longitudeLo, latPlaceValue, lngPlaceValue)
  | String c code' =>
      let codeIndex := JsString.indexOf CODE_ALPHABET_ (String c "") in
      (* Math.floor(codeIndex / GRID_COLUMNS_) and codeIndex % GRID_COLUMNS_,
         on integers *)
      let row := of_Z (codeIndex / GRID_COLUMNS_)%Z in
      let col := of_Z (Z.rem codeIndex GRID_COLUMNS_) in
      let latPlaceValue := latPlaceValue / of_Z GRID_ROWS_ in
      let lngPlaceValue := lngPlaceValue / of_Z GRID_COLUMNS_ in
      decodeGrid_loop code' (latitudeLo + row * latPlaceValue)
                      (longitudeLo + col * lngPlaceValue) latPlaceValue lngPlaceValue
  end.

Definition decodeGrid (code : string) : CodeArea :=
  let '(latitudeLo, longitudeLo, latPlaceValue, lngPlaceValue) :=
    decodeGrid_loop code (of_Z 0) (of_Z 0) GRID_SIZE_DEGREES_ GRID_SIZE_DEGREES_ in
  newCodeArea latitudeLo longitudeLo (latitudeLo + latPlaceValue)
              (longitudeLo + lngPlaceValue) (JsString.length code).

Definition decode (code : string) : outcome CodeArea :=
  if negb (isFull code) then Throw NotFullCode
  else
    let code := JsString.replaceFirst sep_char code in
    let code := JsString.replaceRun pad_char code in
    let code := JsString.toUpperCase code in
    let codeArea := decodePairs (JsString.substringTo code PAIR_CODE_LENGTH_) in
    if (JsString.length code <=? PAIR_CODE_LENGTH_)%Z then Return codeArea
    else
      let gridArea := decodeGrid (JsString.substringFrom code PAIR_CODE_LENGTH_) in
      Return (newCodeArea
                (latitudeLo codeArea + latitudeLo gridArea)
                (longitudeLo codeArea + longitudeLo gridArea)
                (latitudeLo codeArea + latitudeHi gridArea)
                (longitudeLo codeArea + longitudeHi gridArea)
                (codeLength codeArea + codeLength gridArea)%Z).

Definition recoverNearest (fuel : nat) (shortCode : string)
           (referenceLatitude referenceLongitude : num) : outcome string :=
  if negb (isShort shortCode) then
    if isFull shortCode then Return shortCode else Throw NotShortCode
  else
    let referenceLatitude := clipLatitude referenceLatitude in
    let* referenceLongitude := normalizeLongitude fuel referenceLongitude in
    let shortCode := JsString.toUpperCase shortCode in
    let paddingLength := (SEPARATOR_POSITION_ - JsString.indexOf shortCode SEPARATOR_)%Z in
    (* Math.pow(20, 2 - (paddingLength / 2)) *)
    let resolution := pow (of_Z 20) (2 - paddingLength / 2)%Z in
    let areaToEdge := resolution / of_Z 2 in
    let roundedLatitude := floor (referenceLatitude / resolution) * resolution in
    let roundedLongitude := floor (referenceLongitude / resolution) * resolution in
    let* padded := encode fuel roundedLatitude roundedLongitude PAIR_CODE_LENGTH_ in
    let* codeArea :=
      decode (JsString.substringTo padded paddingLength ++ shortCode)%string in
    let degreesDifference := latitudeCenter codeArea - referenceLatitude in
    let latitudeCenter' :=
      if degreesDifference >? areaToEdge then latitudeCenter codeArea - resolution
      else if degreesDifference <? opp areaToEdge
           then latitudeCenter codeArea + resolution
           else latitudeCenter codeArea in
    let degreesDifference := longitudeCenter codeArea - referenceLongitude in
    let longitudeCenter' :=
      if degreesDifference >? areaToEdge then longitudeCenter codeArea - resolution
      else if degreesDifference <? opp areaToEdge
           then longitudeCenter codeArea + resolution
           else longitudeCenter codeArea in
    encode fuel latitudeCenter' longitudeCenter' (codeLength codeArea).

(** The [for (i = PAIR_RESOLUTIONS_.length - 2; i >= 1; i--)] loop of
    [shorten]. *)
Fixpoint shorten_loop (fuel : nat) (i : Z) (range : num) (code : string) : string :=
  match fuel with
  | O => code
  | S fuel' =>
      if (i >=? 1)%Z then
        if range <? PAIR_RESOLUTIONS_at i * decimal 3 10
        then JsString.substringFrom code ((i + 1) * 2)
        else shorten_loop fuel' (i - 1) range code
      else code
  end.

Definition shorten (fuel : nat) (code : string) (latitude longitude : num)
  : outcome string :=
  if negb (isFull code) then Throw ShortenNotFull
  else if negb (JsString.indexOf code PADDING_CHARACTER_ =? -1)%Z then Throw ShortenPadded
  else
    let code := JsString.toUpperCase code in
    let* codeArea := decode code in
    if (codeLength codeArea <? MIN_TRIMMABLE_CODE_LEN_)%Z then Throw ShortenTooShort
    else
      let latitude := clipLatitude latitude in
      let* longitude := normalizeLongitude fuel longitude in
      let range := max (abs (latitudeCenter codeArea - latitude))
                       (abs (longitudeCenter codeArea - longitude)) in
      let n := Z.of_nat (List.length PAIR_RESOLUTIONS_) in
      Return (shorten_loop (Z.to_nat n) (n - 2) range code).

(** C5 in the words of the specification: the loop starts at [i = 4]. *)
Definition shorten_from_4 (fuel : nat) (code : string) (latitude longitude : num)
  : outcome string :=
  if negb (isFull code) then Throw ShortenNotFull
  else if negb (JsString.indexOf code PADDING_CHARACTER_ =? -1)%Z then Throw ShortenPadded
  else
    let code := JsString.toUpperCase code in
    let* codeArea := decode code in
    if (codeLength codeArea <? MIN_TRIMMABLE_CODE_LEN_)%Z then Throw ShortenTooShort
    else
      let latitude := clipLatitude latitude in
      let* longitude := normalizeLongitude fuel longitude in
      let range := max (abs (latitudeCenter codeArea - latitude))
                       (abs (longitudeCenter codeArea - longitude)) in
      Return (shorten_loop 4 4 range code).

End Codec.

(** ** IEEE-754 binary64 numbers *)

Module Float64.

Definition from_Z (z : Z) : float := SF2Prim (binary_normalize prec emax z 0 false).

Definition nan : float := PrimFloat.div 0 0.

Definition round_down (x : float) : float :=
  match Prim2SF x with
  | S754_finite s m e =>
      if (0 <=? e)%Z then x
      else from_Z (Z.shiftl (if s then Z.neg m else Z.pos m) e)
  | _ => x
  end.

(** The remainder [x % y] takes the sign of [x] and is exact. *)
Definition remainder (x y : float) : float :=
  match Prim2SF x, Prim2SF y with
  | S754_nan, _ | _, S754_nan => nan
  | S754_infinity _, _ => nan
  | _, S754_zero _ => nan
  | S754_zero _, _ => x
  | S754_finite _ _ _, S754_infinity _ => x
  | S754_finite sx mx ex, S754_finite _ my ey =>
      let e := Z.min ex ey in
      let r := Z.rem (Z.pos mx * 2 ^ (ex - e)) (Z.pos my * 2 ^ (ey - e)) in
      SF2Prim (binary_normalize prec emax (if sx then - r else r) e sx)
  end.

Definition minimum (x y : float) : float :=
  if PrimFloat.is_nan x then x else if PrimFloat.is_nan y then y
  else if PrimFloat.ltb x y then x else if PrimFloat.ltb y x then y
  else if PrimFloat.get_sign x then x else y.

Definition maximum (x y : float) : float :=
  if PrimFloat.is_nan x then x else if PrimFloat.is_nan y then y
  else if PrimFloat.ltb x y then y else if PrimFloat.ltb y x then x
  else if PrimFloat.get_sign x then y else x.

Fixpoint pow_nat (x : float) (n : nat) : float :=
  match n with
  | O => 1%float
  | S n' => PrimFloat.mul x (pow_nat x n')
  end.

(** [Math.pow] is implementation-approximated; at the integer arguments
    the codec uses it is taken as the product, or its reciprocal. *)
Definition power (x : float) (n : Z) : float :=
  if (0 <=? n)%Z then pow_nat x (Z.to_nat n)
  else PrimFloat.div 1 (pow_nat x (Z.to_nat (- n))).

(** [charAt] takes NaN to 0 and truncates; an infinity is out of range of
    every string. *)
Definition to_index (x : float) : Z :=
  match Prim2SF x with
  | S754_nan => 0
  | S754_zero _ => 0
  | S754_infinity s => if s then - 2 ^ 1024 else 2 ^ 1024
  | S754_finite s m e =>
      let a := Z.shiftl (Z.pos m) e in if s then - a else a
  end.

#[export] Instance number : Number float := {|
  of_Z := from_Z;
  add := PrimFloat.add;
  sub := PrimFloat.sub;
  mul := PrimFloat.mul;
  div := PrimFloat.div;
  rem := remainder;
  ltb := PrimFloat.ltb;
  leb := PrimFloat.leb;
  eqb := PrimFloat.eqb;
  floor := round_down;
  opp := PrimFloat.opp;
  abs := PrimFloat.abs;
  min := minimum;
  max := maximum;
  pow := power;
  toInteger := to_index;
  undefined := nan
|}.

End Float64.

(** ** Exact rational numbers

    The arithmetic without rounding, NaN or infinities.  What is proved
    over this instance is a property of the algorithm; the program runs on
    [Float64.number], and a property of the program is stated there. *)

Module Exact.

Definition less (x y : Q) : bool := negb (Qle_bool y x).

(** Truncation towards zero. *)
Definition trunc (x : Q) : Z :=
  if Qle_bool 0%Q x then Qfloor x else Qceiling x.

Definition remainder (x y : Q) : Q := (x - y * inject_Z (trunc (x / y)))%Q.

Definition minimum (x y : Q) : Q := if Qle_bool x y then x else y.
Definition maximum (x y : Q) : Q := if Qle_bool x y then y else x.

(** There is no NaN among the rationals; [undefined] is never reached from
    a code the validators accept, and stands for 0. *)
#[export] Instance number : Number Q := {|
  of_Z := inject_Z;
  add := Qplus;
  sub := Qminus;
  mul := Qmult;
  div := Qdiv;
  rem := remainder;
  ltb := less;
  leb := Qle_bool;
  eqb := Qeq_bool;
  floor := fun x => inject_Z (Qfloor x);
  opp := Qopp;
  abs := Qabs;
  min := minimum;
  max := maximum;
  pow := Qpower;
  toInteger := trunc;
  undefined := 0%Q
|}.

End Exact.

(** The number nearest to the decimal [m / d], in binary64. *)
Definition f64 (m d : Z) : float := decimal (N := Float64.number) m d.

(** ** Canonical codes *)

(** A character of the code alphabet. *)
Definition alphabet_char (c : ascii) : bool := mem_char c CODE_ALPHABET_.

Definition alpha (c : ascii) : Prop := alphabet_char c = true.

(** A string of alphabet characters. *)
Definition digits (s : string) : Prop := all_chars alphabet_char s = true.

(** The digit value of an alphabet character. *)
Definition digit (c : ascii) : Z := JsString.indexOf CODE_ALPHABET_ (String c "").

(** After the first padding character, only padding up to the separator. *)
Fixpoint padding_to_separator (seen : bool) (s : string) : bool :=
  match s with
  | EmptyString => true
  | String c s' =>
      if Ascii.eqb c sep_char then true
      else if Ascii.eqb c pad_char then padding_to_separator true s'
      else if seen then false else padding_to_separator false s'
  end.

(** A code in the form [encode] writes it: upper case, and the padding, if
    any, ends at the separator. *)
Definition canonical (code : string) : bool :=
  String.eqb (JsString.toUpperCase code) code && padding_to_separator false code.

(** The five forms of a canonical full code: two, four or six digits padded
    to the separator, eight digits, or ten digits and a grid string. *)
Inductive full_shape : string -> Prop :=
| shape_2 (a0 b0 : ascii) :
    alpha a0 -> alpha b0 ->
    full_shape (String a0 (String b0 "000000+"))
| shape_4 (a0 b0 a1 b1 : ascii) :
    alpha a0 -> alpha b0 -> alpha a1 -> alpha b1 ->
    full_shape (String a0 (String b0 (String a1 (String b1 "0000+"))))
| shape_6 (a0 b0 a1 b1 a2 b2 : ascii) :
    alpha a0 -> alpha b0 -> alpha a1 -> alpha b1 -> alpha a2 -> alpha b2 ->
    full_shape
      (String a0 (String b0 (String a1 (String b1 (String a2 (String b2 "00+"))))))
| shape_8 (a0 b0 a1 b1 a2 b2 a3 b3 : ascii) :
    alpha a0 -> alpha b0 -> alpha a1 -> alpha b1 -> alpha a2 -> alpha b2 ->
    alpha a3 -> alpha b3 ->
    full_shape
      (String a0 (String b0 (String a1 (String b1 (String a2 (String b2
         (String a3 (String b3 "+"))))))))
| shape_grid (a0 b0 a1 b1 a2 b2 a3 b3 a4 b4 : ascii) (grid : string) :
    alpha a0 -> alpha b0 -> alpha a1 -> alpha b1 -> alpha a2 -> alpha b2 ->
    alpha a3 -> alpha b3 -> alpha a4 -> alpha b4 -> digits grid ->
    full_shape
      (String a0 (String b0 (String a1 (String b1 (String a2 (String b2
         (String a3 (String b3 (String "+" (String a4 (String b4 grid))))))))))).

(** ** Cells, in exact arithmetic *)

(** The row and the column of a grid character. *)
Definition grid_row (c : ascii) : Z := (digit c / GRID_COLUMNS_)%Z.
Definition grid_col (c : ascii) : Z := Z.rem (digit c) GRID_COLUMNS_.


(** The latitude and longitude offsets a grid string stands for, and the
    size of its cell, from place values [pl] and [pn]. *)
Fixpoint grid_lat (code : string) (pl : Q) : Q :=
  match code with
  | EmptyString => 0%Q
  | String c code' => (inject_Z (grid_row c) * (pl / 5) + grid_lat code' (pl / 5))%Q
  end.

Fixpoint grid_lng (code : string) (pn : Q) : Q :=
  match code with
  | EmptyString => 0%Q
  | String c code' => (inject_Z (grid_col c) * (pn / 4) + grid_lng code' (pn / 4))%Q
  end.

Fixpoint grid_height (code : string) (pl : Q) : Q :=
  match code with
  | EmptyString => pl
  | String _ code' => grid_height code' (pl / 5)%Q
  end.

Fixpoint grid_width (code : string) (pn : Q) : Q :=
  match code with
  | EmptyString => pn
  | String _ code' => grid_width code' (pn / 4)%Q
  end.


(** A point of the area, upper bounds excluded. *)
Definition in_cell (area : CodeArea (num := Q)) (lat lng : Q) : Prop :=
  (latitudeLo area <= lat /\ lat < latitudeHi area /\
   longitudeLo area <= lng /\ lng < longitudeHi area)%Q.


(** ** Digits of a code *)

(** The number of digits of a code: its characters other than the separator
    and the padding character. *)
Fixpoint count_digits (s : string) : nat :=
  match s with
  | EmptyString => 0%nat
  | String c s' =>
      ((if Ascii.eqb c sep_char || Ascii.eqb c pad_char then 0 else 1)
       + count_digits s')%nat
  end.

(** An alphabet character, in either case. *)
Definition letter (c : ascii) : bool := alphabet_char (JsString.upper c).

(** A string of alphabet characters, in either case. *)
Definition letters (s : string) : Prop := all_chars letter s = true.

(** ** The application around the codec *)

(** *** Splitting the search input *)

Module SearchInput.

(** [\d] *)
Definition is_digit (c : ascii) : bool :=
  let n := nat_of_ascii c in ((48 <=? n) && (n <=? 57))%nat.

(** [\s], among the characters below 256: tab, line feed, vertical tab, form
    feed, carriage return, space and the no-break space. *)
Definition is_space (c : ascii) : bool :=
  let n := nat_of_ascii c in
  ((9 <=? n) && (n <=? 13))%nat || (n =? 32)%nat || (n =? 160)%nat.

(** [[\s,:]] *)
Definition is_separator (c : ascii) : bool :=
  is_space c || Ascii.eqb c ","%char || Ascii.eqb c ":"%char.

Fixpoint skip (p : ascii -> bool) (s : string) : string :=
  match s with
  | EmptyString => EmptyString
  | String c s' => if p c then skip p s' else s
  end.

(** [\-?\d+(\.\d+)?] at the head of [s]: what follows the match.  The match
    is the longest one; a shorter one is followed by a figure or by a point,
    where the expression goes on with a comma or ends. *)
Definition number (s : string) : option string :=
  let s := match s with
           | String "-"%char s' => s'
           | _ => s
           end in
  match s with
  | String c _ =>
      if is_digit c then
        let s1 := skip is_digit s in
        match s1 with
        | String "."%char (String d s2) =>
            if is_digit d then Some (skip is_digit s2) else Some s1
        | _ => Some s1
        end
      else None
  | EmptyString => None
  end.


(** [input.split(/[\s,:]+/)]: [field] is the field being read, [skipping]
    tells that the last character was a separator. *)
Fixpoint split_loop (s field : string) (skipping : bool) : list string :=
  match s with
  | EmptyString => [field]
  | String c s' =>
      if is_separator c then
        if skipping then split_loop s' "" true
        else field :: split_loop s' "" true
      else split_loop s' (field ++ String c "") false
  end.

Definition split (input : string) : list string := split_loop input "" false.






End SearchInput.

(** *** Code lengths and zoom levels *)

(** [CodeLengthZoom]: the entries [{'code': c, 'zoom': z}] as pairs
    [(c, z)]. *)
Definition CodeLengthZoom : list (Z * Z) :=
  [(4, 0); (6, 8); (8, 14); (10, 18); (11, 20)].

(** The loop of [zoomToCode]:
    [if (codeArea.codeLength >= CodeLengthZoom[i].code) zoomLevel = CodeLengthZoom[i].zoom]. *)
Fixpoint zoomLevel_loop (table : list (Z * Z)) (codeLength zoomLevel : Z) : Z :=
  match table with
  | [] => zoomLevel
  | (c, z) :: table' =>
      zoomLevel_loop table' codeLength (if codeLength >=? c then z else zoomLevel)
  end.

(** The loop of [receiveMapClickEvent] and [receiveMapBoundsEvent]:
    [if (zoom >= CodeLengthZoom[i].zoom) codeLength = CodeLengthZoom[i].code],
    at an integer zoom level. *)
Fixpoint codeLength_loop (table : list (Z * Z)) (zoom codeLength : Z) : Z :=
  match table with
  | [] => codeLength
  | (c, z) :: table' =>
      codeLength_loop table' zoom (if zoom >=? z then c else codeLength)
  end.

Section Application.

Context {num : Type} {N : Number num}.
Local Open Scope num_scope.

(** [zoomToCode(code_opt)]: the arguments of the call of
    [map.zoomToCenter]; [displayed] is [displayedCode.codeArea], used when
    the function is called without a code. *)
Definition zoomToCode (displayed : CodeArea (num := num)) (code_opt : option string)
  : outcome (num * num * Z) :=
  let* codeArea := match code_opt with
                   | None => Return displayed
                   | Some code => decode code
                   end in
  Return (latitudeCenter codeArea, longitudeCenter codeArea,
          zoomLevel_loop CodeLengthZoom (codeLength codeArea) 4).

(** The code [receiveMapClickEvent] and [receiveMapBoundsEvent] compute, from
    the point clicked or the centre of the map and from the zoom level:
    [OpenLocationCode.encode(lat, lng, codeLength)] after the loop over
    [CodeLengthZoom]. *)
Definition mapCode (fuel : nat) (lat lng : num) (zoom : Z) : outcome string :=
  encode fuel lat lng (codeLength_loop CodeLengthZoom zoom 4).

(** The object [DisplayedCode]; [null] and [undefined] are [None]. *)
Record DisplayedCode : Type := mkDisplayedCode {
  is_set : bool;
  is_pinned : bool;
  displayed_code : option string;            (* [this.code] *)
  area_code : option string;
  place_code : option string;
  timestamp_millis : Z;
  neighbourhood : option string;
  displayed_codeArea : option (CodeArea (num := num));   (* [this.codeArea] *)
  neighbourhoodArea : option (CodeArea (num := num))
}.

(** [this.setCode(code)], with [now] the value of [Date.now()]: the object
    after the call and whether the call returned or threw. *)
Definition setCode (this : DisplayedCode) (code : string) (now : Z)
  : DisplayedCode * outcome unit :=
  let this := mkDisplayedCode (is_set this) (is_pinned this) (Some code)
                (area_code this) (place_code this) (timestamp_millis this)
                (neighbourhood this) (displayed_codeArea this)
                (neighbourhoodArea this) in
  match decode code with
  | Return codeArea =>
      if (codeLength codeArea >? 4)%Z then
        let area := JsString.substringTo code 4 in
        let place := JsString.substringFrom code 4 in
        let hood := JsString.substringTo code 9 in
        let this := mkDisplayedCode (is_set this) (is_pinned this) (Some code)
                      (Some area) (Some place) now (Some hood) (Some codeArea)
                      (neighbourhoodArea this) in
        match decode hood with
        | Return hoodArea =>
            (mkDisplayedCode (is_set this) (is_pinned this) (Some code)
               (Some area) (Some place) now (Some hood) (Some codeArea)
               (Some hoodArea), Return tt)
        | Throw e => (this, Throw e)
        | Running => (this, Running)
        end
      else
        (mkDisplayedCode (is_set this) (is_pinned this) (Some code)
           None None now None (Some codeArea) None, Return tt)
  | Throw e => (this, Throw e)
  | Running => (this, Running)
  end.

(** [shortenDisplayedCode(code, address, lat, lng)]: the value returned
    ([None] is [null]) and the arguments of the call of
    [codeAddressCache.put], if it is made.  A [DisplayedCode] whose code is
    [null] is no full code: [shorten] throws, and the exception is caught. *)
Definition shortenDisplayedCode {A : Type} (fuel : nat) (code : DisplayedCode)
           (address : A) (lat lng : num)
  : outcome (option string * option (option string * A * num * num)) :=
  match displayed_code code with
  | None => Return (None, None)
  | Some c =>
      match shorten fuel c lat lng with
      | Return shortCode =>
          if negb (String.eqb shortCode c) then
            let shortCode :=
              if (JsString.length shortCode <? JsString.length c - 6)%Z
              then JsString.substringFrom c 6
              else shortCode in
            Return (Some shortCode, Some (neighbourhood code, address, lat, lng))
          else Return (None, None)
      | Throw _ => Return (None, None)
      | Running => Running
      end
  end.

End Application.

(** ** Strings of ASCII characters *)

(** A character below 128.  On a string of such characters [toUpperCase]
    of JavaScript maps the letters a-z and nothing else, which is what
    [JsString.toUpperCase] does. *)
Definition is_ascii (c : ascii) : bool := (nat_of_ascii c <? 128)%nat.

Definition ascii_string (s : string) : Prop := all_chars is_ascii s = true.

(** ** Doubles as rationals *)

(** The rational a finite double stands for; 0 for the others. *)
Definition exact_value (x : float) : Q :=
  match Prim2SF x with
  | S754_finite s m e =>
      let v := (inject_Z (Z.pos m) * Qpower 2 e)%Q in
      if s then Qopp v else v
  | _ => 0%Q
  end.

(** ** Pair codes, one axis at a time

    [decodePairs] and the loop of [encodePairs] treat the latitude and the
    longitude separately: the digits of one never enter the arithmetic of
    the other.  The functions below are the two computations on one axis, in
    binary64, with the constants ([PAIR_RESOLUTIONS_], the numbers 0 to 20,
    90 and 180) passed as arguments, so that the round trip can be decided
    for every sequence of digits. *)

Module AxisCheck.

Local Open Scope float_scope.

(** A digit with the numbers [d] and [d + 1]. *)
Definition entry : Type := (Z * float * float)%type.

Definition entry_of (d : Z) : entry := (d, Float64.from_Z d, Float64.from_Z (d + 1)).

(** The digits below [n]. *)
Definition table (n : nat) : list entry :=
  map (fun i => entry_of (Z.of_nat i)) (seq 0 n).


(** [PAIR_RESOLUTIONS_[i]], ..., [PAIR_RESOLUTIONS_[i + k - 1]] *)
Fixpoint resolutions (i : Z) (k : nat) : list float :=
  match k with
  | O => []
  | S k' => PAIR_RESOLUTIONS_at (N := Float64.number) i :: resolutions (i + 1)%Z k'
  end.

(** The value [decodePairsSequence_loop] accumulates from [v] for the
    digits [es] of one axis. *)
Fixpoint value (pvs : list float) (v : float) (es : list entry) : float :=
  match pvs, es with
  | pv :: pvs', (_, fd, _) :: es' => value pvs' (v + fd * pv) es'
  | _, _ => v
  end.




(** [p] holds of every sequence of [n] digits of [tbl]. *)
Fixpoint all_rest (n : nat) (tbl : list entry) (p : list entry -> bool) : bool :=
  match n with
  | O => p []
  | S n' => forallb (fun e => all_rest n' tbl (fun es => p (e :: es))) tbl
  end.

(** [p] holds of every sequence of a digit of [first] and [k] of [rest]. *)
Definition all_codes (first rest : list entry) (k : nat) (p : list entry -> bool)
  : bool :=
  forallb (fun e => all_rest k rest (fun es => p (e :: es))) first.



(** One axis of the decoded area: it lies on the globe, is not empty and
    has its centre inside. *)
Definition axis_area (pvs : list float) (last c0 c2 cmax cmin : float)
           (es : list entry) : bool :=
  let v := value pvs c0 es in
  let lo := v - cmax in
  let hi := v + last - cmax in
  let centre := Float64.minimum (lo + (hi - lo) / c2) cmax in
  (cmin <=? lo) && (lo <? centre) && (centre <? hi) && (hi <=? cmax).

Definition latitude_areas (k : nat) : bool :=
  let pvs := resolutions 0 (S k) in
  let last := PAIR_RESOLUTIONS_at (N := Float64.number) (Z.of_nat k) in
  let c0 := Float64.from_Z 0 in
  let c2 := Float64.from_Z 2 in
  let c90 := Float64.from_Z 90 in
  let cm90 := Float64.from_Z (-90) in
  let t9 := table 9 in
  let t20 := table 20 in
  all_codes t9 t20 k (axis_area pvs last c0 c2 c90 cm90).

Definition longitude_areas (k : nat) : bool :=
  let pvs := resolutions 0 (S k) in
  let last := PAIR_RESOLUTIONS_at (N := Float64.number) (Z.of_nat k) in
  let c0 := Float64.from_Z 0 in
  let c2 := Float64.from_Z 2 in
  let c180 := Float64.from_Z 180 in
  let cm180 := Float64.from_Z (-180) in
  let t18 := table 18 in
  let t20 := table 20 in
  all_codes t18 t20 k (axis_area pvs last c0 c2 c180 cm180).

(** The area [decodePairs] returns for the digits [esl] of the latitude
    and [esg] of the longitude, [k + 1] of each. *)
Definition area_of (k : nat) (esl esg : list entry) : CodeArea :=
  let pvs := resolutions 0 (S k) in
  let last := PAIR_RESOLUTIONS_at (N := Float64.number) (Z.of_nat k) in
  let vl := value pvs (Float64.from_Z 0) esl in
  let vg := value pvs (Float64.from_Z 0) esg in
  newCodeArea (N := Float64.number)
    (vl - Float64.from_Z 90) (vg - Float64.from_Z 180)
    (vl + last - Float64.from_Z 90) (vg + last - Float64.from_Z 180)
    (2 * Z.of_nat (S k)).

(** What the loop of [encodePairs] appends for the digits [dl] of the
    latitude and [dg] of the longitude, from digit count [dc] on. *)
Fixpoint pairs_text (cl dc : Z) (dl dg : list entry) (code : string) : string :=
  match dl, dg with
  | (a, _, _) :: dl', (b, _, _) :: dg' =>
      let code := (code ++ JsString.charAt CODE_ALPHABET_ a)%string in
      let code := (code ++ JsString.charAt CODE_ALPHABET_ b)%string in
      let dc := (dc + 1 + 1)%Z in
      let code :=
        if (dc =? SEPARATOR_POSITION_)%Z && (dc <? cl)%Z
        then (code ++ SEPARATOR_)%string else code in
      pairs_text cl dc dl' dg' code
  | _, _ => code
  end.

(** The end of [encodePairs]: padding, and the separator. *)
Definition pad_code (code : string) : string :=
  let code :=
    if (JsString.length code <? SEPARATOR_POSITION_)%Z
    then (code ++ JsString.repeat pad_char
                    (Z.to_nat (SEPARATOR_POSITION_ - JsString.length code)))%string
    else code in
  if (JsString.length code =? SEPARATOR_POSITION_)%Z
  then (code ++ SEPARATOR_)%string else code.

End AxisCheck.
(** * Properties *)

Lemma Return_inj {A : Type} (a b : A) : Return a = Return b -> a = b.
Proof. congruence. Qed.

Example isValid_ex1 : isValid "8FWC2345+G" = false. Proof. reflexivity. Qed.
Example isValid_ex2 : isValid "8FWC2345+" = true. Proof. reflexivity. Qed.
Example isValid_ex3 : isValid "CFX30000+" = true. Proof. reflexivity. Qed.
Example isValid_ex4 : isValid "00000000+" = false. Proof. reflexivity. Qed.
Example isValid_ex5 : isValid "22002222+" = true. Proof. reflexivity. Qed.
Example isFull_ex1 : isFull "8fvc2222+235" = true. Proof. reflexivity. Qed.
Example isShort_ex1 : isShort "CJ+2VX" = true. Proof. reflexivity. Qed.
Example isFull_ex2 : isFull "F2222222+" = false. Proof. reflexivity. Qed.

(** ** Strings *)

Section StringFacts.

Lemma prefix_char (c b : ascii) (s : string) :
  String.prefix (String c "") (String b s) = Ascii.eqb b c.
Proof.
  simpl. destruct (ascii_dec c b) as [->|Hne].
  - rewrite Ascii.eqb_refl. now destruct s.
  - symmetry. apply Ascii.eqb_neq. congruence.
Qed.

Lemma index_char (c : ascii) (s : string) :
  String.index 0 (String c "") s = find_char c s.
Proof.
  induction s as [|b s IH].
  - reflexivity.
  - cbn [String.index find_char]. rewrite prefix_char.
    destruct (Ascii.eqb b c); [reflexivity|].
    rewrite IH. now destruct (find_char c s).
Qed.

Lemma indexOf_char (s : string) (c : ascii) :
  JsString.indexOf s (String c "") =
  match find_char c s with Some n => Z.of_nat n | None => -1 end.
Proof. unfold JsString.indexOf. now rewrite index_char. Qed.

Lemma indexOf_ge (s pat : string) : -1 <= JsString.indexOf s pat.
Proof. unfold JsString.indexOf. destruct (String.index 0 pat s); lia. Qed.

Lemma find_char_mem (c : ascii) (s : string) :
  mem_char c s = match find_char c s with Some _ => true | None => false end.
Proof.
  induction s as [|a s IH]; [reflexivity|]. simpl.
  destruct (Ascii.eqb a c); [reflexivity|]. rewrite IH.
  now destruct (find_char c s).
Qed.

Lemma indexOf_absent (s : string) (c : ascii) :
  JsString.indexOf s (String c "") = -1 <-> mem_char c s = false.
Proof.
  rewrite indexOf_char, find_char_mem.
  destruct (find_char c s); split; intros H; try reflexivity; try discriminate; lia.
Qed.

Lemma all_chars_app (p : ascii -> bool) (s t : string) :
  all_chars p (s ++ t) = all_chars p s && all_chars p t.
Proof.
  induction s as [|a s IH]; [reflexivity|]. simpl. now rewrite IH, andb_assoc.
Qed.

Lemma all_chars_weaken (p q : ascii -> bool) (s : string) :
  (forall c, p c = true -> q c = true) ->
  all_chars p s = true -> all_chars q s = true.
Proof.
  intros Hpq. induction s as [|a s IH]; [reflexivity|]. simpl.
  rewrite !andb_true_iff. intros [Ha Hs]. auto.
Qed.

Lemma all_chars_substring (p : ascii -> bool) (s : string) (n m : nat) :
  all_chars p s = true -> all_chars p (String.substring n m s) = true.
Proof.
  revert n m. induction s as [|a s IH]; intros n m H.
  - now destruct n, m.
  - simpl in H. apply andb_true_iff in H as [Ha Hs].
    destruct n as [|n]; simpl.
    + destruct m as [|m]; [reflexivity|]. simpl. rewrite Ha. now apply IH.
    + now apply IH.
Qed.

Lemma all_chars_repeat (p : ascii -> bool) (c : ascii) (n : nat) :
  p c = true -> all_chars p (JsString.repeat c n) = true.
Proof. intros Hc. induction n; simpl; [reflexivity|]. now rewrite Hc. Qed.

Lemma all_chars_upper (p : ascii -> bool) (s : string) :
  all_chars p (JsString.toUpperCase s) = all_chars (fun c => p (JsString.upper c)) s.
Proof. induction s as [|a s IH]; [reflexivity|]. simpl. now rewrite IH. Qed.

Lemma charAt_cases (s : string) (i : Z) :
  JsString.charAt s i = "" \/
  exists c, JsString.charAt s i = String c "" /\ mem_char c s = true.
Proof.
  unfold JsString.charAt. destruct (i <? 0); [now left|].
  generalize (Z.to_nat i) as n. induction s as [|a s IH]; intros n.
  - left. now destruct n.
  - destruct n as [|n]; simpl.
    + right. exists a. now rewrite Ascii.eqb_refl.
    + destruct (IH n) as [H|[c [H Hc]]]; [now left|].
      right. exists c. rewrite Hc, orb_true_r. auto.
Qed.

Lemma length_app (s t : string) :
  String.length (s ++ t) = (String.length s + String.length t)%nat.
Proof. induction s; simpl; congruence. Qed.

Lemma get_app_length (pre : string) (a : ascii) (suf : string) :
  String.get (String.length pre) (pre ++ String a suf) = Some a.
Proof. induction pre; simpl; auto. Qed.

Lemma charAt_app_length (pre : string) (a : ascii) (suf : string) :
  JsString.charAt (pre ++ String a suf) (JsString.length pre) = String a "".
Proof.
  unfold JsString.charAt, JsString.length.
  destruct (Z.of_nat (String.length pre) <? 0) eqn:E; [apply Z.ltb_lt in E; lia|].
  now rewrite Nat2Z.id, get_app_length.
Qed.

Lemma app_assoc_char (pre : string) (a : ascii) (suf : string) :
  (pre ++ String a suf = (pre ++ String a "") ++ suf)%string.
Proof. induction pre; simpl; congruence. Qed.

End StringFacts.

(** ** The validators *)



(** C8: no string is both a short and a full code, and a string that is
    either is a valid code. *)
Theorem validator_partition (s : string) :
  (isShort s = true -> isFull s = true -> False) /\
  (isShort s = true \/ isFull s = true -> isValid s = true).
Proof.
  split.
  - intros Hs Hf. unfold isFull in Hf. rewrite Hs in Hf.
    destruct (negb (isValid s)); discriminate.
  - intros [H|H]; [unfold isShort in H | unfold isFull in H];
      destruct (isValid s); simpl in H; congruence.
Qed.

Lemma validator_partition_witness :
  isValid "CJ+2VX" = true /\ isValid "9C3W9QCJ+2VX" = true.
Proof.
  split.
  - apply (proj2 (validator_partition "CJ+2VX")). left. reflexivity.
  - apply (proj2 (validator_partition "9C3W9QCJ+2VX")). right. reflexivity.
Defined.

Lemma isFull_valid (s : string) : isFull s = true -> isValid s = true.
Proof.
  unfold isFull. destruct (isValid s); [reflexivity|discriminate].
Qed.

Lemma isFull_not_short (s : string) : isFull s = true -> isShort s = false.
Proof.
  unfold isFull. destruct (isValid s); simpl; [|discriminate].
  destruct (isShort s); [discriminate|reflexivity].
Qed.

Lemma isShort_valid (s : string) : isShort s = true -> isValid s = true.
Proof.
  unfold isShort. destruct (isValid s); [reflexivity|discriminate].
Qed.

(** ** Code lengths *)

Section EncodeLength.

Context {num : Type} {N : Number num}.

Lemma rejected_length_test (len : Z) :
  (len <? 2) || ((len <? SEPARATOR_POSITION_) && (Z.rem len 2 =? 1)) = true
  <-> rejected_length len.
Proof.
  unfold rejected_length, SEPARATOR_POSITION_.
  rewrite orb_true_iff, andb_true_iff, !Z.ltb_lt, Z.eqb_eq. tauto.
Qed.

Lemma normalize_up_no_throw (fuel : nat) (lng : num) (e : exn) :
  normalize_up fuel lng <> Throw e.
Proof.
  revert lng. induction fuel as [|fuel IH]; intros lng; simpl;
    destruct (ltb lng (of_Z (-180))); try discriminate. apply IH.
Qed.

Lemma normalize_down_no_throw (fuel : nat) (lng : num) (e : exn) :
  normalize_down fuel lng <> Throw e.
Proof.
  revert lng. induction fuel as [|fuel IH]; intros lng; simpl;
    destruct (leb (of_Z 180) lng); try discriminate. apply IH.
Qed.

Lemma normalizeLongitude_no_throw (fuel : nat) (lng : num) (e : exn) :
  normalizeLongitude fuel lng <> Throw e.
Proof.
  unfold normalizeLongitude.
  destruct (normalize_up fuel lng) as [l| |] eqn:E; cbn [bind].
  - apply normalize_down_no_throw.
  - now apply normalize_up_no_throw in E.
  - discriminate.
Qed.

Lemma encode_accepted (fuel : nat) (lat lng : num) (len : Z) :
  ~ rejected_length len ->
  encode fuel lat lng len =
  let latitude := clipLatitude lat in
  bind (normalizeLongitude fuel lng) (fun longitude =>
    let latitude :=
      if eqb latitude (of_Z 90) then sub latitude (computeLatitudePrecision len)
      else latitude in
    let code := encodePairs latitude longitude (Z.min len PAIR_CODE_LENGTH_) in
    if len >? PAIR_CODE_LENGTH_
    then Return (code ++ encodeGrid latitude longitude (len - PAIR_CODE_LENGTH_))%string
    else Return code).
Proof.
  intros Hlen. unfold encode.
  destruct ((len <? 2) || ((len <? SEPARATOR_POSITION_) && (Z.rem len 2 =? 1))) eqn:E.
  - apply rejected_length_test in E. contradiction.
  - reflexivity.
Qed.


End EncodeLength.



(** In binary64 the loops of [normalizeLongitude] never end at an infinite
    longitude: [encode] returns nothing there, whatever the fuel. *)
Lemma encode_infinite_longitude (fuel : nat) :
  encode (N := Float64.number) fuel 0%float infinity 10 = Running.
Proof.
  rewrite encode_accepted by (unfold rejected_length; lia). cbv zeta.
  assert (H : normalizeLongitude (N := Float64.number) fuel infinity = Running).
  { unfold normalizeLongitude.
    assert (Hup : normalize_up (N := Float64.number) fuel infinity = Return infinity)
      by now destruct fuel.
    rewrite Hup. cbn [bind]. clear Hup.
    induction fuel as [|fuel IH]; [reflexivity|exact IH]. }
  now rewrite H.
Qed.

(** ** The characters of a code *)

Section CharFacts.

Lemma all_chars_forall (p : ascii -> bool) (s : string) :
  all_chars p s = true <-> (forall c, mem_char c s = true -> p c = true).
Proof.
  induction s as [|a s IH]; simpl.
  - split; [discriminate|reflexivity].
  - rewrite andb_true_iff, IH. split.
    + intros [Ha Hs] c Hc. apply orb_true_iff in Hc as [Hc|Hc]; [|now apply Hs].
      apply Ascii.eqb_eq in Hc. now subst.
    + intros H. split.
      * apply H. now rewrite Ascii.eqb_refl.
      * intros c Hc. apply H. now rewrite Hc, orb_true_r.
Qed.

Lemma mem_char_drop_run (x c : ascii) (s : string) :
  mem_char c s = true -> c = x \/ mem_char c (JsString.drop_run x s) = true.
Proof.
  induction s as [|a s IH]; simpl; [discriminate|].
  destruct (Ascii.eqb a x) eqn:Eax.
  - apply Ascii.eqb_eq in Eax. subst a. intros H.
    apply orb_true_iff in H as [H|H]; [left; symmetry; now apply Ascii.eqb_eq|auto].
  - intros H. right. exact H.
Qed.

Lemma mem_char_replaceRun (x c : ascii) (s : string) :
  mem_char c s = true -> c = x \/ mem_char c (JsString.replaceRun x s) = true.
Proof.
  induction s as [|a s IH]; simpl; [discriminate|].
  destruct (Ascii.eqb a x) eqn:Eax.
  - apply Ascii.eqb_eq in Eax. subst a. intros H.
    apply orb_true_iff in H as [H|H]; [left; symmetry; now apply Ascii.eqb_eq|].
    now apply mem_char_drop_run.
  - simpl. intros H. apply orb_true_iff in H as [H|H].
    + right. now rewrite H.
    + destruct (IH H) as [?|Hm]; [now left|right]. now rewrite Hm, orb_true_r.
Qed.

Lemma mem_char_substring (c : ascii) (s : string) (n m : nat) :
  mem_char c (String.substring n m s) = true -> mem_char c s = true.
Proof.
  revert n m. induction s as [|a s IH]; intros n m.
  - now destruct n, m.
  - destruct n as [|n]; simpl.
    + destruct m as [|m]; [discriminate|]. simpl.
      intros H. apply orb_true_iff in H as [H|H]; [now rewrite H|].
      apply IH in H. now rewrite H, orb_true_r.
    + intros H. apply IH in H. now rewrite H, orb_true_r.
Qed.

Lemma mem_char_upper (c : ascii) (s : string) :
  mem_char c (JsString.toUpperCase s) = true ->
  exists a, mem_char a s = true /\ c = JsString.upper a.
Proof.
  induction s as [|a s IH]; simpl; [discriminate|].
  intros H. apply orb_true_iff in H as [H|H].
  - exists a. rewrite Ascii.eqb_refl. split; [reflexivity|].
    symmetry. now apply Ascii.eqb_eq.
  - destruct (IH H) as [b [Hb Hc]]. exists b. now rewrite Hb, orb_true_r.
Qed.

Lemma all_code_chars_from (pre suf : string) :
  all_code_chars (String.length suf) (pre ++ suf)%string (JsString.length pre)
  = all_chars valid_char suf.
Proof.
  revert pre. induction suf as [|a suf IH]; intros pre; [reflexivity|].
  cbn [String.length all_code_chars all_chars].
  assert (Hlt : (JsString.length pre <? JsString.length (pre ++ String a suf)) = true).
  { apply Z.ltb_lt. unfold JsString.length. rewrite length_app. simpl. lia. }
  rewrite Hlt, charAt_app_length. cbn [JsString.toUpperCase].
  unfold valid_char at 1.
  destruct (negb (String.eqb (String (JsString.upper a) "") SEPARATOR_)
            && (JsString.indexOf CODE_ALPHABET_ (String (JsString.upper a) "") =? -1));
    cbn [negb andb]; [reflexivity|].
  rewrite app_assoc_char.
  replace (JsString.length pre + 1) with (JsString.length (pre ++ String a "")).
  - apply IH.
  - unfold JsString.length. rewrite length_app. simpl. lia.
Qed.

Lemma all_code_chars_spec (s : string) :
  all_code_chars (String.length s) s 0 = all_chars valid_char s.
Proof. exact (all_code_chars_from "" s). Qed.

Lemma valid_char_upper (c : ascii) :
  valid_char c = true ->
  JsString.upper c = sep_char \/ mem_char (JsString.upper c) CODE_ALPHABET_ = true.
Proof.
  unfold valid_char. rewrite negb_true_iff, andb_false_iff, negb_false_iff.
  intros [H|H].
  - left. apply String.eqb_eq in H. now inversion H.
  - right. destruct (mem_char (JsString.upper c) CODE_ALPHABET_) eqn:E; [reflexivity|].
    apply indexOf_absent in E. rewrite E in H. discriminate.
Qed.

Lemma isValid_rest_of (s : string) : isValid s = true -> isValid_rest s = true.
Proof.
  unfold isValid.
  repeat match goal with
         | |- (if ?b then false else _) = true -> _ => destruct b; [discriminate|]
         | |- (if ?b then _ else _) = true -> _ => destruct b
         end; auto.
Qed.

(** Every character of a valid code is the separator, the padding, or has
    its upper case in the alphabet. *)
Lemma isValid_chars (s : string) (c : ascii) :
  isValid s = true -> mem_char c s = true ->
  c = sep_char \/ c = pad_char \/ mem_char (JsString.upper c) CODE_ALPHABET_ = true.
Proof.
  intros Hv Hc. apply isValid_rest_of in Hv. unfold isValid_rest in Hv.
  destruct (JsString.length s - JsString.indexOf s SEPARATOR_ - 1 =? 1); [discriminate|].
  cbv zeta in Hv. rewrite all_code_chars_spec in Hv.
  destruct (mem_char_replaceRun sep_char c s Hc) as [?|H1]; [now left|].
  destruct (mem_char_replaceRun pad_char c _ H1) as [?|H2]; [now right; left|].
  rewrite all_chars_forall in Hv. apply Hv, valid_char_upper in H2.
  destruct H2 as [H2|H2]; [|now right; right].
  left. revert H2. unfold JsString.upper.
  destruct ((97 <=? nat_of_ascii c)%nat && (nat_of_ascii c <=? 122)%nat) eqn:E; [|auto].
  intros H. exfalso. apply andb_true_iff in E as [E1 E2].
  apply Nat.leb_le in E1, E2.
  apply (f_equal nat_of_ascii) in H. rewrite nat_ascii_embedding in H by lia.
  change (nat_of_ascii sep_char) with 43%nat in H. lia.
Qed.

Lemma upper_sep : JsString.upper sep_char = sep_char.
Proof. reflexivity. Qed.

Lemma charAt_alphabet (i : Z) :
  all_chars code_char (JsString.charAt CODE_ALPHABET_ i) = true.
Proof.
  destruct (charAt_cases CODE_ALPHABET_ i) as [->|[c [-> Hc]]]; [reflexivity|].
  simpl. unfold code_char. now rewrite Hc.
Qed.

End CharFacts.

(** ** What the public operations return *)

Section Outputs.

Context {num : Type} {N : Number num}.

Lemma encodePairs_loop_chars (fuel : nat) (len dc : Z) (alat alng : num) (code : string) :
  all_chars code_char code = true ->
  all_chars code_char (encodePairs_loop fuel len dc alat alng code) = true.
Proof.
  revert dc alat alng code. induction fuel as [|fuel IH]; intros dc alat alng code Hc.
  - exact Hc.
  - cbn [encodePairs_loop]. destruct (dc <? len); [|exact Hc].
    cbv zeta. apply IH.
    match goal with
    | |- all_chars _ (if ?b then _ else _) = true => destruct b
    end; rewrite ?all_chars_app, ?charAt_alphabet, Hc; reflexivity.
Qed.

Lemma encodePairs_chars (lat lng : num) (len : Z) :
  all_chars code_char (encodePairs lat lng len) = true.
Proof.
  unfold encodePairs. cbv zeta.
  set (code := encodePairs_loop _ _ _ _ _ _).
  assert (Hcode : all_chars code_char code = true)
    by (apply encodePairs_loop_chars; reflexivity).
  clearbody code.
  repeat match goal with
         | |- context [if ?b then _ else _] => destruct b
         end;
    rewrite ?all_chars_app, ?all_chars_repeat, ?Hcode; reflexivity.
Qed.

Lemma encodeGrid_loop_chars (n : nat) (latPV lngPV alat alng : num) (code : string) :
  all_chars code_char code = true ->
  all_chars code_char (encodeGrid_loop n latPV lngPV alat alng code) = true.
Proof.
  revert latPV lngPV alat alng code.
  induction n as [|n IH]; intros latPV lngPV alat alng code Hc; [exact Hc|].
  cbn [encodeGrid_loop]. cbv zeta. apply IH.
  now rewrite all_chars_app, charAt_alphabet, Hc.
Qed.

Lemma encode_chars (fuel : nat) (lat lng : num) (len : Z) (r : string) :
  encode fuel lat lng len = Return r -> all_chars code_char r = true.
Proof.
  unfold encode.
  destruct ((len <? 2) || ((len <? SEPARATOR_POSITION_) && (Z.rem len 2 =? 1)));
    [discriminate|].
  cbv zeta. destruct (normalizeLongitude fuel lng) as [l| |]; cbn [bind]; try discriminate.
  destruct (len >? PAIR_CODE_LENGTH_); intros H; inversion H; subst r.
  - rewrite all_chars_app, encodePairs_chars. cbn [andb].
    unfold encodeGrid. cbv zeta. now apply encodeGrid_loop_chars.
  - apply encodePairs_chars.
Qed.

Lemma shorten_loop_chars (p : ascii -> bool) (fuel : nat) (i : Z) (range : num)
      (code : string) :
  all_chars p code = true -> all_chars p (shorten_loop fuel i range code) = true.
Proof.
  intros Hc. revert i. induction fuel as [|fuel IH]; intros i; [exact Hc|].
  cbn [shorten_loop]. destruct (i >=? 1); [|exact Hc].
  destruct (ltb range _); [|apply IH].
  unfold JsString.substringFrom. now apply all_chars_substring.
Qed.

(** The upper case of a valid code without padding: alphabet characters
    and the separator. *)
Lemma upper_valid_chars (code : string) :
  isValid code = true ->
  all_chars code_char (JsString.toUpperCase code) = true.
Proof.
  intros Hv. rewrite all_chars_upper. apply all_chars_forall. intros c Hc.
  unfold code_char.
  destruct (isValid_chars code c Hv Hc) as [->|[->|H]].
  - reflexivity.
  - reflexivity.
  - now rewrite H.
Qed.

(** C9 (as the code has it): the codes [encode] and [shorten] return, and
    those [recoverNearest] returns for a short code, consist of upper-case
    alphabet characters, the separator and the padding character; a full
    code handed to [recoverNearest] comes back unchanged, in the case it
    was given. *)
Theorem output_characters (fuel : nat) (code : string) (lat lng : num) (len : Z)
        (r : string) :
  (encode fuel lat lng len = Return r -> all_chars code_char r = true) /\
  (shorten fuel code lat lng = Return r -> all_chars code_char r = true) /\
  (isShort code = true -> recoverNearest fuel code lat lng = Return r ->
   all_chars code_char r = true) /\
  (isShort code = false -> isFull code = true ->
   recoverNearest fuel code lat lng = Return code).
Proof.
  repeat split.
  - apply encode_chars.
  - unfold shorten. destruct (isFull code) eqn:Hf; [|discriminate]. cbn [negb].
    destruct (negb (JsString.indexOf code PADDING_CHARACTER_ =? -1)); [discriminate|].
    cbv zeta. destruct (decode (JsString.toUpperCase code)) as [area| |];
      cbn [bind]; try discriminate.
    destruct (codeLength area <? MIN_TRIMMABLE_CODE_LEN_); [discriminate|].
    destruct (normalizeLongitude fuel lng) as [l| |]; cbn [bind]; try discriminate.
    intros H. apply Return_inj in H. subst r. apply shorten_loop_chars.
    apply upper_valid_chars. now apply isFull_valid.
  - intros Hs. unfold recoverNearest. rewrite Hs. cbn [negb]. cbv zeta.
    destruct (normalizeLongitude fuel lng) as [l| |]; cbn [bind]; try discriminate.
    destruct (encode fuel _ _ PAIR_CODE_LENGTH_) as [padded| |]; cbn [bind];
      try discriminate.
    destruct (decode _) as [area| |]; cbn [bind]; try discriminate.
    apply encode_chars.
  - intros Hs Hf. unfold recoverNearest. now rewrite Hs, Hf.
Qed.

(** C5 (as the code has it): [shorten] returns exactly for a full code
    without padding, of at least [MIN_TRIMMABLE_CODE_LEN_] digits, once
    [normalizeLongitude] has returned; its loop tries [i = 3, 2, 1] and
    removes the first 8, 6 or 4 characters at the first [i] whose
    resolution, times 0.3, exceeds the range; otherwise the (upper-cased)
    code is returned whole. *)
Theorem shorten_trims (fuel : nat) (code : string) (lat lng : num) (r : string) :
  shorten fuel code lat lng = Return r <->
  isFull code = true /\
  JsString.indexOf code PADDING_CHARACTER_ = -1 /\
  exists area lng',
    decode (JsString.toUpperCase code) = Return area /\
    MIN_TRIMMABLE_CODE_LEN_ <= codeLength area /\
    normalizeLongitude fuel lng = Return lng' /\
    let range := max (abs (sub (latitudeCenter area) (clipLatitude lat)))
                     (abs (sub (longitudeCenter area) lng')) in
    r = if ltb range (mul (PAIR_RESOLUTIONS_at 3) (decimal 3 10))
        then JsString.substringFrom (JsString.toUpperCase code) 8
        else if ltb range (mul (PAIR_RESOLUTIONS_at 2) (decimal 3 10))
        then JsString.substringFrom (JsString.toUpperCase code) 6
        else if ltb range (mul (PAIR_RESOLUTIONS_at 1) (decimal 3 10))
        then JsString.substringFrom (JsString.toUpperCase code) 4
        else JsString.toUpperCase code.
Proof.
  unfold shorten. split.
  - destruct (isFull code); [|discriminate]. cbn [negb].
    destruct (JsString.indexOf code PADDING_CHARACTER_ =? -1) eqn:Hp;
      [|discriminate]. cbn [negb]. apply Z.eqb_eq in Hp.
    cbv zeta. destruct (decode (JsString.toUpperCase code)) as [area| |];
      cbn [bind]; try discriminate.
    destruct (codeLength area <? MIN_TRIMMABLE_CODE_LEN_) eqn:Hlen; [discriminate|].
    apply Z.ltb_ge in Hlen.
    destruct (normalizeLongitude fuel lng) as [l| |]; cbn [bind]; try discriminate.
    intros H. apply Return_inj in H. subst r.
    split; [reflexivity|]. split; [exact Hp|]. exists area, l.
    split; [reflexivity|]. split; [exact Hlen|]. split; reflexivity.
  - intros [Hf [Hp [area [lng' [Hd [Hlen [Hn Hr]]]]]]].
    rewrite Hf, Hp, Hd. cbn [negb Z.eqb bind]. cbv zeta.
    apply Z.ltb_ge in Hlen. rewrite Hlen, Hn. cbn [bind]. now rewrite Hr.
Qed.

End Outputs.

(** C9, refuted as stated: a full code in lower case comes back from
    [recoverNearest] in lower case. *)
Lemma recoverNearest_keeps_lower_case :
  isFull "8fvc2222+22" = true /\ isShort "8fvc2222+22" = false /\
  recoverNearest (N := Float64.number) 0 "8fvc2222+22" 0%float 0%float
    = Return "8fvc2222+22" /\
  all_chars code_char "8fvc2222+22" = false.
Proof. vm_compute. repeat split. Qed.

Lemma output_characters_witness :
  recoverNearest (N := Float64.number) 0 "8fvc2222+22" 0%float 0%float
    = Return "8fvc2222+22".
Proof.
  apply (proj2 (proj2 (proj2
           (output_characters (N := Float64.number) 0 "8fvc2222+22" 0%float 0%float 10 ""))));
    reflexivity.
Defined.

(** C5, refuted as stated: at the centre of the cell of ["9C3W9QCJ+2VX"] the
    code removes 8 characters, where a loop from [i = 4] would remove 10. *)
Lemma shorten_not_from_4 :
  shorten (N := Float64.number) 0 "9C3W9QCJ+2VX"
          (f64 513701125 10000000) (f64 (-1217765625) 1000000000) = Return "+2VX" /\
  shorten_from_4 (N := Float64.number) 0 "9C3W9QCJ+2VX"
          (f64 513701125 10000000) (f64 (-1217765625) 1000000000) = Return "VX".
Proof. vm_compute. split; reflexivity. Qed.

Lemma shorten_trims_witness :
  shorten (N := Float64.number) 0 "9C3W9QCJ+2VX"
          (f64 513701125 10000000) (f64 (-1217765625) 1000000000) = Return "+2VX".
Proof.
  apply (proj2 (shorten_trims (N := Float64.number) 0 "9C3W9QCJ+2VX"
                  (f64 513701125 10000000) (f64 (-1217765625) 1000000000) "+2VX")).
  split; [reflexivity|]. split; [reflexivity|].
  eexists. eexists.
  split; [vm_compute; reflexivity|].
  split; [vm_compute; discriminate|].
  split; [vm_compute; reflexivity|].
  vm_compute. reflexivity.
Defined.

(** ** Latitude 90 in binary64 *)

(** C7 at latitude 90, longitude 0, length 25: the latitude precision,
    about 4.1e-15, is below half the spacing of the doubles next to 90, so
    the subtraction leaves 90 in place; the code then starts with ['F'],
    digit 9, which is no full code, and [decode] throws. *)
Lemma encode_90_length_25 :
  sub (Number := Float64.number) 90%float
      (computeLatitudePrecision (N := Float64.number) 25) = 90%float /\
  encode (N := Float64.number) 0 90%float 0%float 25
    = Return "FF222222+22XXXXXXXXXXXXXXX" /\
  decode (N := Float64.number) "FF222222+22XXXXXXXXXXXXXXX" = Throw NotFullCode.
Proof. vm_compute. repeat split. Qed.

(** C1 at the same input: decoding what [encode] returned yields no area
    at all. *)
Lemma decode_encode_90_length_25 :
  bind (encode (N := Float64.number) 0 90%float 0%float 25)
       (decode (N := Float64.number)) = Throw NotFullCode.
Proof. vm_compute. reflexivity. Qed.

(** The same happens at every length from 24 to 120: at latitude 90
    [encode] returns a code that is not full. *)
Lemma encode_90_not_full (len : Z) :
  24 <= len <= 120 ->
  exists code,
    encode (N := Float64.number) 0 90%float 0%float len = Return code /\
    isFull code = false.
Proof.
  intros H.
  assert (Hall : forallb
                   (fun n =>
                      match encode (N := Float64.number) 0 90%float 0%float (Z.of_nat n) with
                      | Return c => negb (isFull c)
                      | _ => false
                      end) (seq 24 97) = true) by (vm_compute; reflexivity).
  rewrite forallb_forall in Hall.
  assert (Hin : In (Z.to_nat len) (seq 24 97)) by (apply in_seq; lia).
  apply Hall in Hin. rewrite Z2Nat.id in Hin by lia.
  destruct (encode (N := Float64.number) 0 90%float 0%float len) as [c| |];
    try discriminate Hin.
  exists c. split; [reflexivity|]. now apply negb_true_iff.
Qed.

(** C10 at the same input, and at the largest longitude below 180 (where
    the sum with 180 rounds to 360 and the second digit is 18): [encode]
    returns valid codes that are not full. *)
Lemma encode_output_not_full :
  (exists code, encode (N := Float64.number) 0 90%float 0%float 25 = Return code /\
                isValid code = true /\ isFull code = false) /\
  (exists code, encode (N := Float64.number) 0 0%float (PrimFloat.next_down 180%float) 10
                = Return code /\
                isValid code = true /\ isFull code = false).
Proof.
  split.
  - exists "FF222222+22XXXXXXXXXXXXXXX". vm_compute. repeat split.
  - exists "6WG22222+22". vm_compute. repeat split.
Qed.

(** ** Exact arithmetic *)

Section ExactArithmetic.

Local Open Scope Q_scope.

Lemma Qfloor_unique (q : Q) (d : Z) :
  inject_Z d <= q -> q < inject_Z d + 1 -> Qfloor q = d.
Proof.
  intros Hlo Hhi.
  assert (H1 : (d <= Qfloor q)%Z).
  { rewrite <- (Qfloor_Z d). now apply Qfloor_resp_le. }
  assert (H2 : (Qfloor q < d + 1)%Z).
  { rewrite Zlt_Qlt, inject_Z_plus. apply Qle_lt_trans with q; [apply Qfloor_le|].
    exact Hhi. }
  lia.
Qed.

Lemma Qfloor_div_unique (x w c : Q) (d : Z) :
  w == c -> 0 < c ->
  inject_Z d * c <= x -> x < (inject_Z d + 1) * c ->
  Qfloor (x / w) = d.
Proof.
  intros Hw Hc Hlo Hhi. rewrite Hw. apply Qfloor_unique.
  - now apply Qle_shift_div_l.
  - now apply Qlt_shift_div_r.
Qed.

Lemma Qfloor_div_bounds (x w c : Q) :
  w == c -> 0 < c ->
  inject_Z (Qfloor (x / w)) * c <= x /\ x < (inject_Z (Qfloor (x / w)) + 1) * c.
Proof.
  intros Hw Hc. rewrite Hw.
  assert (Hx : x / c * c == x) by (field; lra).
  split.
  - apply Qle_trans with (x / c * c).
    + apply Qmult_le_compat_r; [apply Qfloor_le|lra].
    + rewrite Hx. apply Qle_refl.
  - apply Qle_lt_trans with (x / c * c).
    + rewrite Hx. apply Qle_refl.
    + apply Qmult_lt_compat_r; [assumption|].
      pose proof (Qlt_floor (x / c)) as H. now rewrite inject_Z_plus in H.
Qed.

Lemma trunc_inject (d : Z) : (0 <= d)%Z -> Exact.trunc (inject_Z d) = d.
Proof.
  intros Hd. unfold Exact.trunc.
  assert (H : Qle_bool 0 (inject_Z d) = true).
  { apply Qle_bool_iff. unfold Qle. simpl. lia. }
  rewrite H. apply Qfloor_Z.
Qed.

Lemma less_true (x y : Q) : x < y -> Exact.less x y = true.
Proof.
  intros H. unfold Exact.less. apply negb_true_iff.
  destruct (Qle_bool y x) eqn:E; [|reflexivity].
  apply Qle_bool_iff in E. lra.
Qed.

Lemma less_false (x y : Q) : y <= x -> Exact.less x y = false.
Proof.
  intros H. unfold Exact.less. apply negb_false_iff. now apply Qle_bool_iff.
Qed.

Lemma Qle_bool_false (x y : Q) : y < x -> Qle_bool x y = false.
Proof.
  intros H. destruct (Qle_bool x y) eqn:E; [|reflexivity].
  apply Qle_bool_iff in E. lra.
Qed.

Lemma Qeq_bool_false (x y : Q) : ~ x == y -> Qeq_bool x y = false.
Proof.
  intros H. destruct (Qeq_bool x y) eqn:E; [|reflexivity].
  apply Qeq_bool_iff in E. contradiction.
Qed.

Lemma minimum_left (x y : Q) : x <= y -> Exact.minimum x y = x.
Proof. intros H. unfold Exact.minimum. apply Qle_bool_iff in H. now rewrite H. Qed.

Lemma minimum_right (x y : Q) : y < x -> Exact.minimum x y = y.
Proof. intros H. unfold Exact.minimum. now rewrite Qle_bool_false. Qed.

Lemma maximum_right (x y : Q) : x <= y -> Exact.maximum x y = y.
Proof. intros H. unfold Exact.maximum. apply Qle_bool_iff in H. now rewrite H. Qed.

Lemma maximum_left (x y : Q) : y < x -> Exact.maximum x y = x.
Proof. intros H. unfold Exact.maximum. now rewrite Qle_bool_false. Qed.

End ExactArithmetic.

(** ** The alphabet *)

Section AlphabetFacts.

Ltac alpha_cases H :=
  unfold alpha, alphabet_char in H; cbn [mem_char CODE_ALPHABET_] in H;
  repeat (apply orb_true_iff in H; destruct H as [H|H]);
  try discriminate H; apply Ascii.eqb_eq in H; subst.

Lemma alpha_digit_range (c : ascii) : alpha c -> 0 <= digit c < 20.
Proof. intros H. alpha_cases H; vm_compute; split; congruence. Qed.

Lemma alpha_charAt (c : ascii) :
  alpha c -> JsString.charAt CODE_ALPHABET_ (digit c) = String c "".
Proof. intros H. alpha_cases H; reflexivity. Qed.

Lemma alpha_not_sep (c : ascii) : alpha c -> Ascii.eqb c "+" = false.
Proof. intros H. alpha_cases H; reflexivity. Qed.

Lemma alpha_not_pad (c : ascii) : alpha c -> Ascii.eqb c "0" = false.
Proof. intros H. alpha_cases H; reflexivity. Qed.

Lemma alpha_upper (c : ascii) : alpha c -> JsString.upper c = c.
Proof. intros H. alpha_cases H; reflexivity. Qed.

Lemma alpha_valid_char (c : ascii) : alpha c -> valid_char c = true.
Proof. intros H. alpha_cases H; reflexivity. Qed.

(** Every digit value has its character. *)
Lemma digit_char (d : Z) :
  0 <= d < 20 ->
  exists c, alpha c /\ JsString.charAt CODE_ALPHABET_ d = String c "" /\ digit c = d.
Proof.
  intros Hd.
  assert (H : d = 0 \/ d = 1 \/ d = 2 \/ d = 3 \/ d = 4 \/ d = 5 \/ d = 6 \/ d = 7 \/
              d = 8 \/ d = 9 \/ d = 10 \/ d = 11 \/ d = 12 \/ d = 13 \/ d = 14 \/
              d = 15 \/ d = 16 \/ d = 17 \/ d = 18 \/ d = 19) by lia.
  repeat (destruct H as [H|H]; [subst d; eexists; repeat split; reflexivity|]).
  subst d; eexists; repeat split; reflexivity.
Qed.

Lemma digits_cons (c : ascii) (s : string) :
  digits (String c s) <-> alpha c /\ digits s.
Proof. unfold digits, alpha. simpl. apply andb_true_iff. Qed.

Lemma digits_find_sep (s : string) : digits s -> find_char "+" s = None.
Proof.
  induction s as [|c s IH]; [reflexivity|]. rewrite digits_cons. intros [Hc Hs].
  simpl. now rewrite (alpha_not_sep c Hc), IH.
Qed.

Lemma digits_find_pad (s : string) : digits s -> find_char "0" s = None.
Proof.
  induction s as [|c s IH]; [reflexivity|]. rewrite digits_cons. intros [Hc Hs].
  simpl. now rewrite (alpha_not_pad c Hc), IH.
Qed.

Lemma digits_last_sep (s : string) : digits s -> JsString.last_index "+" s = None.
Proof.
  induction s as [|c s IH]; [reflexivity|]. rewrite digits_cons. intros [Hc Hs].
  cbn [JsString.last_index]. rewrite (IH Hs), prefix_char. now rewrite (alpha_not_sep c Hc).
Qed.

Lemma digits_replaceRun_sep (s : string) : digits s -> JsString.replaceRun "+" s = s.
Proof.
  induction s as [|c s IH]; [reflexivity|]. rewrite digits_cons. intros [Hc Hs].
  simpl. now rewrite (alpha_not_sep c Hc), IH.
Qed.

Lemma digits_replaceRun_pad (s : string) : digits s -> JsString.replaceRun "0" s = s.
Proof.
  induction s as [|c s IH]; [reflexivity|]. rewrite digits_cons. intros [Hc Hs].
  simpl. now rewrite (alpha_not_pad c Hc), IH.
Qed.

Lemma digits_replaceFirst_sep (s : string) : digits s -> JsString.replaceFirst "+" s = s.
Proof.
  induction s as [|c s IH]; [reflexivity|]. rewrite digits_cons. intros [Hc Hs].
  simpl. now rewrite (alpha_not_sep c Hc), IH.
Qed.

Lemma digits_drop_run_pad (s : string) : digits s -> JsString.drop_run "0" s = s.
Proof.
  destruct s as [|c s]; [reflexivity|]. rewrite digits_cons. intros [Hc Hs].
  simpl. now rewrite (alpha_not_pad c Hc).
Qed.

Lemma digits_upper (s : string) : digits s -> JsString.toUpperCase s = s.
Proof.
  induction s as [|c s IH]; [reflexivity|]. rewrite digits_cons. intros [Hc Hs].
  simpl. now rewrite (alpha_upper c Hc), IH.
Qed.

Lemma digits_valid (s : string) : digits s -> all_chars valid_char s = true.
Proof.
  induction s as [|c s IH]; [reflexivity|]. rewrite digits_cons. intros [Hc Hs].
  simpl. now rewrite (alpha_valid_char c Hc), IH.
Qed.

Lemma digits_matchRuns (fuel : nat) (s : string) :
  digits s -> JsString.matchRuns fuel "0" s = [].
Proof.
  revert s. induction fuel as [|fuel IH]; intros s; [reflexivity|].
  destruct s as [|c s]; [reflexivity|]. rewrite digits_cons. intros [Hc Hs].
  simpl. rewrite (alpha_not_pad c Hc). now apply IH.
Qed.

Lemma substring_all (s : string) : String.substring 0 (String.length s) s = s.
Proof. induction s as [|c s IH]; [reflexivity|]. simpl. now rewrite IH. Qed.

End AlphabetFacts.

(** ** Encoding in exact arithmetic *)

Section ExactEncoding.

Local Open Scope Q_scope.

Local Notation "'PR'" := (PAIR_RESOLUTIONS_at (N := Exact.number)).

Lemma PR_0 : PR 0 == 20. Proof. reflexivity. Qed.
Lemma PR_1 : PR 1 == 1. Proof. reflexivity. Qed.
Lemma PR_2 : PR 2 == 1 # 20. Proof. reflexivity. Qed.
Lemma PR_3 : PR 3 == 1 # 400. Proof. reflexivity. Qed.
Lemma PR_4 : PR 4 == 1 # 8000. Proof. reflexivity. Qed.

Lemma digit_bounds (c : ascii) :
  alpha c -> 0 <= inject_Z (digit c) /\ inject_Z (digit c) <= 19.
Proof.
  intros H. apply alpha_digit_range in H. split.
  - change 0 with (inject_Z 0). rewrite <- Zle_Qle. lia.
  - change 19 with (inject_Z 19). rewrite <- Zle_Qle. lia.
Qed.

(** One round of the loop of [encodePairs], when the two digits are known. *)
Lemma encodePairs_loop_step (fuel : nat) (len dc dc' i : Z) (alat alng : Q)
      (code : string) (a b : ascii) (c : Q) :
  (dc < len)%Z -> (dc / 2 = i)%Z -> (dc' = dc + 1 + 1)%Z ->
  PR i == c -> 0 < c ->
  alpha a -> alpha b ->
  inject_Z (digit a) * c <= alat -> alat < (inject_Z (digit a) + 1) * c ->
  inject_Z (digit b) * c <= alng -> alng < (inject_Z (digit b) + 1) * c ->
  encodePairs_loop (N := Exact.number) (S fuel) len dc alat alng code =
  encodePairs_loop (N := Exact.number) fuel len dc'
    (alat - inject_Z (digit a) * PR i)
    (alng - inject_Z (digit b) * PR i)
    (if ((dc' =? 8) && (dc' <? len))%Z
     then ((code ++ String a "") ++ String b "") ++ "+"
     else (code ++ String a "") ++ String b "")%string.
Proof.
  intros Hlt Hi Hdc' Hc Hc0 Ha Hb Ha1 Ha2 Hb1 Hb2. subst dc' i.
  cbn [encodePairs_loop]. apply Z.ltb_lt in Hlt. rewrite Hlt. cbv zeta.
  cbn [floor div sub mul toInteger Exact.number].
  rewrite (Qfloor_div_unique alat _ c (digit a)) by assumption.
  rewrite (Qfloor_div_unique alng _ c (digit b)) by assumption.
  rewrite !trunc_inject by (apply alpha_digit_range; assumption).
  rewrite !alpha_charAt by assumption.
  reflexivity.
Qed.

Lemma grid_row_col (c : ascii) :
  alpha c ->
  (0 <= grid_row c < 5 /\ 0 <= grid_col c < 4 /\
   grid_row c * 4 + grid_col c = digit c)%Z.
Proof.
  intros H. apply alpha_digit_range in H. unfold grid_row, grid_col, GRID_COLUMNS_.
  rewrite Z.rem_mod_nonneg by lia.
  pose proof (Z.div_mod (digit c) 4 ltac:(lia)).
  pose proof (Z.mod_pos_bound (digit c) 4 ltac:(lia)).
  assert (0 <= digit c / 4 < 5)%Z.
  { split; [apply Z.div_pos; lia|apply Z.div_lt_upper_bound; lia]. }
  lia.
Qed.

Lemma decodeGrid_loop_exact (code : string) (la lo pl pn : Q) :
  exists la' lo' pl' pn',
    decodeGrid_loop (N := Exact.number) code la lo pl pn = (la', lo', pl', pn') /\
    la' == la + grid_lat code pl /\ lo' == lo + grid_lng code pn /\
    pl' == grid_height code pl /\ pn' == grid_width code pn.
Proof.
  revert la lo pl pn. induction code as [|c code IH]; intros la lo pl pn.
  - exists la, lo, pl, pn. cbn. repeat split; try reflexivity; lra.
  - cbn [decodeGrid_loop]. cbv zeta.
    cbn [of_Z add mul div Exact.number].
    destruct (IH (la + inject_Z (JsString.indexOf CODE_ALPHABET_ (String c "") / GRID_COLUMNS_)
                       * (pl / inject_Z GRID_ROWS_))
                 (lo + inject_Z (Z.rem (JsString.indexOf CODE_ALPHABET_ (String c "")) GRID_COLUMNS_)
                       * (pn / inject_Z GRID_COLUMNS_))
                 (pl / inject_Z GRID_ROWS_) (pn / inject_Z GRID_COLUMNS_))
      as [la' [lo' [pl' [pn' [E [H1 [H2 [H3 H4]]]]]]]].
    exists la', lo', pl', pn'. split; [exact E|].
    cbn [grid_lat grid_lng grid_height grid_width].
    fold (digit c) in H1, H2. fold (grid_row c) in H1. fold (grid_col c) in H2.
    change (inject_Z GRID_ROWS_) with 5 in *. change (inject_Z GRID_COLUMNS_) with 4 in *.
    repeat split; [rewrite H1|rewrite H2|exact H3|exact H4]; ring.
Qed.

Lemma grid_height_pos (code : string) (pl : Q) : 0 < pl -> 0 < grid_height code pl.
Proof.
  revert pl. induction code as [|c code IH]; intros pl H; [exact H|].
  cbn. apply IH. apply Qlt_shift_div_l; lra.
Qed.

Lemma grid_width_pos (code : string) (pn : Q) : 0 < pn -> 0 < grid_width code pn.
Proof.
  revert pn. induction code as [|c code IH]; intros pn H; [exact H|].
  cbn. apply IH. apply Qlt_shift_div_l; lra.
Qed.

(** The cell of a grid string lies inside the cell it refines. *)
Lemma grid_lat_bounds (code : string) (pl : Q) :
  digits code -> 0 < pl ->
  0 <= grid_lat code pl /\ grid_lat code pl + grid_height code pl <= pl.
Proof.
  revert pl. induction code as [|c code IH]; intros pl Hd Hpl.
  - cbn. lra.
  - apply digits_cons in Hd as [Hc Hd]. cbn [grid_lat grid_height].
    assert (Hu : 0 < pl / 5) by (apply Qlt_shift_div_l; lra).
    assert (Hpl5 : pl == 5 * (pl / 5)) by (field).
    destruct (IH (pl / 5) Hd Hu) as [H1 H2].
    destruct (grid_row_col c Hc) as [[Hr1 Hr2] _].
    assert (Hr : 0 <= inject_Z (grid_row c) /\ inject_Z (grid_row c) <= 4).
    { split; [change 0 with (inject_Z 0)|change 4 with (inject_Z 4)];
        rewrite <- Zle_Qle; lia. }
    assert (Hm : 0 <= inject_Z (grid_row c) * (pl / 5) /\
                 inject_Z (grid_row c) * (pl / 5) <= 4 * (pl / 5)).
    { split; [apply Qmult_le_0_compat; lra|apply Qmult_le_compat_r; lra]. }
    set (t := inject_Z (grid_row c) * (pl / 5)) in *.
    set (u := pl / 5) in *. lra.
Qed.

Lemma grid_lng_bounds (code : string) (pn : Q) :
  digits code -> 0 < pn ->
  0 <= grid_lng code pn /\ grid_lng code pn + grid_width code pn <= pn.
Proof.
  revert pn. induction code as [|c code IH]; intros pn Hd Hpn.
  - cbn. lra.
  - apply digits_cons in Hd as [Hc Hd]. cbn [grid_lng grid_width].
    assert (Hu : 0 < pn / 4) by (apply Qlt_shift_div_l; lra).
    assert (Hpn4 : pn == 4 * (pn / 4)) by (field).
    destruct (IH (pn / 4) Hd Hu) as [H1 H2].
    destruct (grid_row_col c Hc) as [_ [[Hr1 Hr2] _]].
    assert (Hr : 0 <= inject_Z (grid_col c) /\ inject_Z (grid_col c) <= 3).
    { split; [change 0 with (inject_Z 0)|change 3 with (inject_Z 3)];
        rewrite <- Zle_Qle; lia. }
    assert (Hm : 0 <= inject_Z (grid_col c) * (pn / 4) /\
                 inject_Z (grid_col c) * (pn / 4) <= 3 * (pn / 4)).
    { split; [apply Qmult_le_0_compat; lra|apply Qmult_le_compat_r; lra]. }
    set (t := inject_Z (grid_col c) * (pn / 4)) in *.
    set (u := pn / 4) in *. lra.
Qed.

Lemma trunc_eq (x : Q) (d : Z) : x == inject_Z d -> (0 <= d)%Z -> Exact.trunc x = d.
Proof.
  intros Hx Hd. rewrite <- (trunc_inject d Hd). unfold Exact.trunc.
  assert (H0 : 0 <= inject_Z d) by (unfold Qle; simpl; lia).
  assert (E1 : Qle_bool 0 x = true) by (apply Qle_bool_iff; rewrite Hx; exact H0).
  assert (E2 : Qle_bool 0 (inject_Z d) = true) by (now apply Qle_bool_iff).
  rewrite E1, E2. now rewrite Hx.
Qed.

(** The loop of [encodeGrid] writes the grid string of the cell the point
    lies in. *)
Lemma encodeGrid_loop_exact (code : string) (pl pn alat alng : Q) (acc : string) :
  digits code -> 0 < pl -> 0 < pn ->
  grid_lat code pl <= alat -> alat < grid_lat code pl + grid_height code pl ->
  grid_lng code pn <= alng -> alng < grid_lng code pn + grid_width code pn ->
  encodeGrid_loop (N := Exact.number) (String.length code) pl pn alat alng acc
  = (acc ++ code)%string.
Proof.
  revert pl pn alat alng acc.
  induction code as [|c code IH]; intros pl pn alat alng acc Hd Hpl Hpn Ha1 Ha2 Hb1 Hb2.
  - cbn. clear. induction acc; cbn; congruence.
  - apply digits_cons in Hd as [Hc Hd].
    cbn [grid_lat grid_lng grid_height grid_width] in *.
    assert (Hu : 0 < pl / 5) by (apply Qlt_shift_div_l; lra).
    assert (Hv : 0 < pn / 4) by (apply Qlt_shift_div_l; lra).
    destruct (grid_lat_bounds code (pl / 5) Hd Hu) as [L1 L2].
    destruct (grid_lng_bounds code (pn / 4) Hd Hv) as [N1 N2].
    destruct (grid_row_col c Hc) as [Hr [Hcl Hrc]].
    cbn [String.length encodeGrid_loop]. cbv zeta.
    cbn [of_Z floor add sub mul div toInteger Exact.number].
    change (inject_Z GRID_ROWS_) with 5. change (inject_Z GRID_COLUMNS_) with 4.
    assert (Er : Qfloor (alat / (pl / 5)) = grid_row c).
    { apply Qfloor_div_unique with (c := pl / 5); [reflexivity|assumption| |].
      - set (t := inject_Z (grid_row c) * (pl / 5)) in *. lra.
      - set (u := pl / 5) in *. lra. }
    assert (Ec : Qfloor (alng / (pn / 4)) = grid_col c).
    { apply Qfloor_div_unique with (c := pn / 4); [reflexivity|assumption| |].
      - set (t := inject_Z (grid_col c) * (pn / 4)) in *. lra.
      - set (u := pn / 4) in *. lra. }
    rewrite Er, Ec.
    rewrite (trunc_eq _ (digit c)).
    + rewrite alpha_charAt by assumption.
      rewrite IH; try assumption.
      * symmetry. apply app_assoc_char.
      * set (t := inject_Z (grid_row c) * (pl / 5)) in *. lra.
      * set (t := inject_Z (grid_row c) * (pl / 5)) in *. lra.
      * set (t := inject_Z (grid_col c) * (pn / 4)) in *. lra.
      * set (t := inject_Z (grid_col c) * (pn / 4)) in *. lra.
    + rewrite <- Hrc. rewrite inject_Z_plus, inject_Z_mult. reflexivity.
    + apply alpha_digit_range in Hc. lia.
Qed.

End ExactEncoding.

(** ** The form of a canonical full code *)

Section Shapes.

Lemma isValid_facts (c : string) :
  isValid c = true ->
  JsString.indexOf c SEPARATOR_ = JsString.lastIndexOf c SEPARATOR_ /\
  0 <= JsString.indexOf c SEPARATOR_ <= 8 /\
  (JsString.indexOf c PADDING_CHARACTER_ > -1 ->
   JsString.indexOf c PADDING_CHARACTER_ <> 0 /\
   Z.of_nat (List.length (JsString.matchAll pad_char c)) <= 1 /\
   Z.rem (JsString.length (nth 0 (JsString.matchAll pad_char c) "")) 2 <> 1 /\
   JsString.length (nth 0 (JsString.matchAll pad_char c) "") <= 6 /\
   JsString.charAt c (JsString.length c - 1) = SEPARATOR_) /\
  JsString.length c - JsString.indexOf c SEPARATOR_ - 1 <> 1.
Proof.
  unfold isValid, isValid_rest.
  destruct (String.eqb c ""); [discriminate|].
  destruct (JsString.indexOf c SEPARATOR_ =? -1) eqn:E1; [discriminate|].
  destruct (JsString.indexOf c SEPARATOR_ =? JsString.lastIndexOf c SEPARATOR_) eqn:E2;
    [|discriminate].
  cbn [negb].
  destruct (JsString.indexOf c SEPARATOR_ >? SEPARATOR_POSITION_) eqn:E3; [discriminate|].
  cbn [orb].
  destruct (Z.rem (JsString.indexOf c SEPARATOR_) 2 =? 1) eqn:E4; [discriminate|].
  apply Z.eqb_neq in E1. apply Z.eqb_eq in E2. apply Z.eqb_neq in E4.
  assert (E3' : JsString.indexOf c SEPARATOR_ <= 8)
    by (unfold SEPARATOR_POSITION_ in E3; lia).
  pose proof (indexOf_ge c SEPARATOR_) as Hge.
  destruct (JsString.indexOf c PADDING_CHARACTER_ >? -1) eqn:E5.
  - destruct (JsString.indexOf c PADDING_CHARACTER_ =? 0) eqn:E6; [discriminate|].
    destruct (Z.of_nat (List.length (JsString.matchAll pad_char c)) >? 1) eqn:E7;
      [discriminate|].
    destruct (Z.rem (JsString.length (nth 0 (JsString.matchAll pad_char c) "")) 2 =? 1)
      eqn:E8; [discriminate|].
    destruct (JsString.length (nth 0 (JsString.matchAll pad_char c) "")
              >? SEPARATOR_POSITION_ - 2) eqn:E9; [discriminate|].
    cbn [orb].
    destruct (String.eqb (JsString.charAt c (JsString.length c - 1)) SEPARATOR_) eqn:E10;
      [|discriminate].
    cbn [negb].
    destruct (JsString.length c - JsString.indexOf c SEPARATOR_ - 1 =? 1) eqn:E11;
      [discriminate|].
    intros _. apply Z.eqb_neq in E6, E8, E11. apply String.eqb_eq in E10.
    unfold SEPARATOR_POSITION_ in E9.
    repeat split; try assumption; try lia.
  - destruct (JsString.length c - JsString.indexOf c SEPARATOR_ - 1 =? 1) eqn:E11;
      [discriminate|].
    intros _. apply Z.eqb_neq in E11.
    repeat split; try assumption; try lia.
Qed.

Lemma isShort_false_sep (c : string) :
  isValid c = true -> isShort c = false -> 8 <= JsString.indexOf c SEPARATOR_.
Proof.
  intros Hv. unfold isShort. rewrite Hv. cbn [negb].
  destruct (isValid_facts c Hv) as [_ [[H0 _] _]].
  unfold SEPARATOR_POSITION_.
  destruct (JsString.indexOf c SEPARATOR_ >=? 0) eqn:E1; [|lia].
  destruct (JsString.indexOf c SEPARATOR_ <? 8) eqn:E2; [discriminate|]. lia.
Qed.

Lemma find_char_some (x : ascii) (s : string) (n : nat) :
  find_char x s = Some n ->
  exists pre rest, s = (pre ++ String x rest)%string /\ String.length pre = n /\
                   mem_char x pre = false.
Proof.
  revert n. induction s as [|a s IH]; intros n; [discriminate|]. simpl.
  destruct (Ascii.eqb a x) eqn:E.
  - intros H. injection H as <-. apply Ascii.eqb_eq in E. subst a.
    now exists "", s.
  - destruct (find_char x s) as [m|] eqn:Ef; [|discriminate].
    simpl. intros H. injection H as <-.
    destruct (IH m eq_refl) as [pre [rest [-> [Hl Hm]]]].
    exists (String a pre), rest. simpl. rewrite E, Hm, Hl. auto.
Qed.

Lemma last_index_none (x : ascii) (s : string) :
  JsString.last_index (String x "") s = None -> mem_char x s = false.
Proof.
  induction s as [|a s IH]; [reflexivity|].
  cbn [JsString.last_index].
  destruct (JsString.last_index (String x "") s); [discriminate|].
  rewrite prefix_char. simpl. destruct (Ascii.eqb a x); [discriminate|]. auto.
Qed.

Lemma last_index_app (x : ascii) (pre s : string) (n : nat) :
  JsString.last_index (String x "") s = Some n ->
  JsString.last_index (String x "") (pre ++ s) = Some (String.length pre + n)%nat.
Proof.
  intros H. induction pre as [|a pre IH]; [exact H|].
  simpl. now rewrite IH.
Qed.

Lemma last_index_sep_rest (pre rest : string) :
  JsString.last_index "+" (pre ++ String "+" rest) = Some (String.length pre) ->
  mem_char "+" rest = false.
Proof.
  intros H. apply last_index_none.
  destruct (JsString.last_index "+" rest) as [n|] eqn:E; [|reflexivity].
  exfalso.
  assert (E' : JsString.last_index "+" (String "+" rest) = Some (S n))
    by (cbn [JsString.last_index]; now rewrite E).
  rewrite (last_index_app _ pre _ _ E') in H. injection H as H. lia.
Qed.

Lemma charAt_last_cons (p : ascii) (s : string) :
  s <> "" ->
  JsString.charAt (String p s) (JsString.length (String p s) - 1)
  = JsString.charAt s (JsString.length s - 1).
Proof.
  intros Hs. destruct s as [|a s]; [contradiction|].
  unfold JsString.charAt, JsString.length. cbn [String.length].
  destruct (Z.of_nat (S (S (String.length s))) - 1 <? 0) eqn:E1;
    [apply Z.ltb_lt in E1; lia|].
  destruct (Z.of_nat (S (String.length s)) - 1 <? 0) eqn:E2;
    [apply Z.ltb_lt in E2; lia|].
  replace (Z.to_nat (Z.of_nat (S (S (String.length s))) - 1)) with (S (String.length s))
    by lia.
  replace (Z.to_nat (Z.of_nat (S (String.length s)) - 1)) with (String.length s) by lia.
  reflexivity.
Qed.

Lemma charAt_last_mem (x : ascii) (s : string) :
  s <> "" -> JsString.charAt s (JsString.length s - 1) = String x "" ->
  mem_char x s = true.
Proof.
  induction s as [|a s IH]; [contradiction|]. intros _.
  destruct s as [|b s].
  - cbn. intros H. injection H as ->. now rewrite Ascii.eqb_refl.
  - rewrite charAt_last_cons by discriminate. intros H.
    cbn [mem_char] in *. rewrite (IH ltac:(discriminate) H). apply orb_true_r.
Qed.

Lemma upper_fixed_mem (s : string) (x : ascii) :
  JsString.toUpperCase s = s -> mem_char x s = true -> JsString.upper x = x.
Proof.
  induction s as [|a s IH]; [discriminate|]. simpl.
  intros H. injection H as Ha Hs. intros Hx.
  apply orb_true_iff in Hx as [Hx|Hx]; [|auto].
  apply Ascii.eqb_eq in Hx. now subst.
Qed.

Lemma no_pad_no_sep_digits (s : string) :
  (forall x, mem_char x s = true -> x = sep_char \/ x = pad_char \/ alpha x) ->
  mem_char sep_char s = false -> mem_char pad_char s = false -> digits s.
Proof.
  intros H Hs Hp. apply all_chars_forall. intros x Hx.
  destruct (H x Hx) as [->|[->|Ha]]; [congruence|congruence|exact Ha].
Qed.

End Shapes.

Section ShapeInversion.

Ltac pad_step HP H :=
  cbn [padding_to_separator] in HP; unfold sep_char, pad_char in HP;
  destruct H as [->|H];
  [ change (Ascii.eqb "0" "+") with false in HP;
    change (Ascii.eqb "0" "0") with true in HP
  | rewrite (alpha_not_sep _ H), (alpha_not_pad _ H) in HP ];
  cbv iota in HP; try discriminate HP.

Ltac peel_last H :=
  repeat (rewrite charAt_last_cons in H by discriminate).

(** The characters of a valid, upper-case string: separator, padding or
    alphabet. *)
Lemma canonical_chars (c : string) (x : ascii) :
  isValid c = true -> JsString.toUpperCase c = c -> mem_char x c = true ->
  x = sep_char \/ x = pad_char \/ alpha x.
Proof.
  intros Hv Hu Hx. destruct (isValid_chars c x Hv Hx) as [?|[?|H]]; auto.
  right; right. unfold alpha, alphabet_char.
  now rewrite <- (upper_fixed_mem c x Hu Hx).
Qed.

Lemma padded_rest_empty (c pre rest : string) :
  JsString.charAt c (JsString.length c - 1) = "+" ->
  mem_char "+" rest = false ->
  c = (pre ++ String "+" rest)%string -> rest = "".
Proof.
  intros Hl Hr ->. destruct rest as [|r rest]; [reflexivity|exfalso].
  assert (Hmem : mem_char "+" (String r rest) = true).
  { apply charAt_last_mem; [discriminate|].
    rewrite <- Hl. clear Hl Hr.
    induction pre as [|a pre IH].
    - cbn [append]. now rewrite (charAt_last_cons "+" (String r rest)) by discriminate.
    - cbn [append]. rewrite (charAt_last_cons a (pre ++ String "+" (String r rest)));
        [exact IH|].
      destruct pre; discriminate. }
  congruence.
Qed.

Lemma first_digits (c : string) (a b : ascii) (s : string) :
  isFull c = true -> c = String a (String b s) -> alpha a -> alpha b ->
  digit a < 9 /\ digit b < 18.
Proof.
  intros Hf -> Ha Hb. unfold isFull in Hf.
  destruct (isValid _); [|discriminate]. cbn [negb] in Hf.
  destruct (isShort _); [discriminate|].
  cbv zeta in Hf.
  change (JsString.charAt (String a (String b s)) 0) with (String a "") in Hf.
  change (JsString.charAt (String a (String b s)) 1) with (String b "") in Hf.
  cbn [JsString.toUpperCase] in Hf.
  rewrite (alpha_upper a Ha), (alpha_upper b Hb) in Hf.
  fold (digit a) in Hf. fold (digit b) in Hf.
  change ENCODING_BASE_ with 20 in Hf.
  unfold LATITUDE_MAX_, LONGITUDE_MAX_ in Hf.
  destruct (digit a * 20 >=? 90 * 2) eqn:E1; [discriminate|].
  assert (Hlen : (JsString.length (String a (String b s)) >? 1) = true).
  { apply Z.gtb_lt. unfold JsString.length. cbn [String.length]. lia. }
  rewrite Hlen in Hf. cbn [andb] in Hf.
  destruct (digit b * 20 >=? 180 * 2) eqn:E2; [discriminate|]. lia.
Qed.

(** A canonical full code has one of the five forms. *)
Lemma canonical_full_shape (c : string) :
  isFull c = true -> canonical c = true -> full_shape c.
Proof.
  intros Hf Hc.
  pose proof (isFull_valid c Hf) as Hv.
  pose proof (isFull_not_short c Hf) as Hs.
  destruct (isValid_facts c Hv) as [Hlast [Hrange [Hpad Hone]]].
  pose proof (isShort_false_sep c Hv Hs) as H8.
  assert (Hsep : JsString.indexOf c SEPARATOR_ = 8) by lia.
  clear H8 Hrange.
  apply andb_true_iff in Hc as [Hup HP]. apply String.eqb_eq in Hup.
  pose proof (canonical_chars c) as Hch. specialize (fun x => Hch x Hv Hup).
  rewrite Hsep in Hlast, Hone.
  unfold SEPARATOR_ in Hsep, Hlast. rewrite indexOf_char in Hsep.
  destruct (find_char "+" c) as [n|] eqn:Efind; [|discriminate].
  assert (n = 8%nat) by lia. subst n.
  destruct (find_char_some _ _ _ Efind) as [pre [rest [Ec [Hlen Hpre]]]].
  unfold JsString.lastIndexOf in Hlast.
  destruct (JsString.last_index "+" c) as [m|] eqn:Elast; [|discriminate].
  assert (m = 8%nat) by lia. subst m.
  assert (Hrest : mem_char "+" rest = false).
  { apply (last_index_sep_rest pre). rewrite <- Ec, Hlen. exact Elast. }
  assert (Hpadded : JsString.indexOf c PADDING_CHARACTER_ > -1 -> rest = "").
  { intros H. apply Hpad in H as [_ [_ [_ [_ H]]]].
    exact (padded_rest_empty c pre rest H Hrest Ec). }
  destruct pre as [|p0 [|p1 [|p2 [|p3 [|p4 [|p5 [|p6 [|p7 [|? ?]]]]]]]]];
    try discriminate Hlen.
  clear Hlen. cbn [append] in Ec.
  cbn [mem_char] in Hpre. rewrite !orb_false_iff in Hpre.
  destruct Hpre as [N0 [N1 [N2 [N3 [N4 [N5 [N6 [N7 _]]]]]]]].
  assert (C : forall x, mem_char x c = true -> x <> "+"%char -> x = "0"%char \/ alpha x).
  { intros x Hx Hn. destruct (Hch x Hx) as [?|[?|?]]; auto. contradiction. }
  assert (M : forall x s, mem_char x (String x s) = true)
    by (intros; cbn; now rewrite Ascii.eqb_refl).
  assert (Mc : forall x y s, mem_char x s = true -> mem_char x (String y s) = true)
    by (intros x y s H; cbn; now rewrite H, orb_true_r).
  assert (Q0 : p0 = "0"%char \/ alpha p0).
  { apply C; [subst c; auto 10|]. intros ->. discriminate. }
  assert (Q1 : p1 = "0"%char \/ alpha p1).
  { apply C; [subst c; auto 10|]. intros ->. discriminate. }
  assert (Q2 : p2 = "0"%char \/ alpha p2).
  { apply C; [subst c; auto 10|]. intros ->. discriminate. }
  assert (Q3 : p3 = "0"%char \/ alpha p3).
  { apply C; [subst c; auto 10|]. intros ->. discriminate. }
  assert (Q4 : p4 = "0"%char \/ alpha p4).
  { apply C; [subst c; auto 10|]. intros ->. discriminate. }
  assert (Q5 : p5 = "0"%char \/ alpha p5).
  { apply C; [subst c; auto 10|]. intros ->. discriminate. }
  assert (Q6 : p6 = "0"%char \/ alpha p6).
  { apply C; [subst c; auto 12|]. intros ->. discriminate. }
  assert (Q7 : p7 = "0"%char \/ alpha p7).
  { apply C; [subst c; auto 12|]. intros ->. discriminate. }
  assert (Qr : forall x, mem_char x rest = true -> x = sep_char \/ x = pad_char \/ alpha x).
  { intros x Hx. apply Hch. subst c. auto 15. }
  clear C Hch N0 N1 N2 N3 N4 N5 N6 N7 Efind Elast.
  unfold PADDING_CHARACTER_ in Hpad, Hpadded. rewrite indexOf_char in Hpad, Hpadded.
  unfold sep_char, pad_char in HP.
  subst c.
  pad_step HP Q0.
  { (* the code begins with the padding *)
    exfalso. cbn [find_char Ascii.eqb Bool.eqb] in Hpad.
    destruct Hpad as [H _]; [lia|]. now apply H. }
  pad_step HP Q1; [pad_step HP Q2; pad_step HP Q3; pad_step HP Q4; pad_step HP Q5;
                   pad_step HP Q6; pad_step HP Q7|].
  { (* one digit and seven padding characters *)
    exfalso. cbn [find_char] in Hpad, Hpadded.
    rewrite ?(alpha_not_pad _ Q0) in Hpad, Hpadded.
    cbn [Ascii.eqb Bool.eqb option_map] in Hpad, Hpadded.
    rewrite (Hpadded ltac:(lia)) in Hpad.
    destruct Hpad as [_ [_ [H _]]]; [lia|]. apply H.
    unfold JsString.matchAll, pad_char. cbn [String.length JsString.matchRuns].
    rewrite (alpha_not_pad _ Q0). reflexivity. }
  pad_step HP Q2; [pad_step HP Q3; pad_step HP Q4; pad_step HP Q5;
                   pad_step HP Q6; pad_step HP Q7|].
  { (* two digits *)
    cbn [find_char] in Hpadded.
    rewrite ?(alpha_not_pad _ Q0), ?(alpha_not_pad _ Q1) in Hpadded.
    cbn [Ascii.eqb Bool.eqb option_map] in Hpadded.
    rewrite (Hpadded ltac:(lia)). now constructor. }
  pad_step HP Q3; [pad_step HP Q4; pad_step HP Q5; pad_step HP Q6; pad_step HP Q7|].
  { (* three digits *)
    exfalso. cbn [find_char] in Hpad, Hpadded.
    rewrite ?(alpha_not_pad _ Q0), ?(alpha_not_pad _ Q1), ?(alpha_not_pad _ Q2)
      in Hpad, Hpadded.
    cbn [Ascii.eqb Bool.eqb option_map] in Hpad, Hpadded.
    rewrite (Hpadded ltac:(lia)) in Hpad.
    destruct Hpad as [_ [_ [H _]]]; [lia|]. apply H.
    unfold JsString.matchAll, pad_char. cbn [String.length JsString.matchRuns].
    rewrite (alpha_not_pad _ Q0), (alpha_not_pad _ Q1), (alpha_not_pad _ Q2).
    reflexivity. }
  pad_step HP Q4; [pad_step HP Q5; pad_step HP Q6; pad_step HP Q7|].
  { (* four digits *)
    cbn [find_char] in Hpadded.
    rewrite ?(alpha_not_pad _ Q0), ?(alpha_not_pad _ Q1), ?(alpha_not_pad _ Q2),
      ?(alpha_not_pad _ Q3) in Hpadded.
    cbn [Ascii.eqb Bool.eqb option_map] in Hpadded.
    rewrite (Hpadded ltac:(lia)). now constructor. }
  pad_step HP Q5; [pad_step HP Q6; pad_step HP Q7|].
  { (* five digits *)
    exfalso. cbn [find_char] in Hpad, Hpadded.
    rewrite ?(alpha_not_pad _ Q0), ?(alpha_not_pad _ Q1), ?(alpha_not_pad _ Q2),
      ?(alpha_not_pad _ Q3), ?(alpha_not_pad _ Q4) in Hpad, Hpadded.
    cbn [Ascii.eqb Bool.eqb option_map] in Hpad, Hpadded.
    rewrite (Hpadded ltac:(lia)) in Hpad.
    destruct Hpad as [_ [_ [H _]]]; [lia|]. apply H.
    unfold JsString.matchAll, pad_char. cbn [String.length JsString.matchRuns].
    rewrite (alpha_not_pad _ Q0), (alpha_not_pad _ Q1), (alpha_not_pad _ Q2),
      (alpha_not_pad _ Q3), (alpha_not_pad _ Q4).
    reflexivity. }
  pad_step HP Q6; [pad_step HP Q7|].
  { (* six digits *)
    cbn [find_char] in Hpadded.
    rewrite ?(alpha_not_pad _ Q0), ?(alpha_not_pad _ Q1), ?(alpha_not_pad _ Q2),
      ?(alpha_not_pad _ Q3), ?(alpha_not_pad _ Q4), ?(alpha_not_pad _ Q5) in Hpadded.
    cbn [Ascii.eqb Bool.eqb option_map] in Hpadded.
    rewrite (Hpadded ltac:(lia)). now constructor. }
  pad_step HP Q7.
  { (* seven digits *)
    exfalso. cbn [find_char] in Hpad, Hpadded.
    rewrite ?(alpha_not_pad _ Q0), ?(alpha_not_pad _ Q1), ?(alpha_not_pad _ Q2),
      ?(alpha_not_pad _ Q3), ?(alpha_not_pad _ Q4), ?(alpha_not_pad _ Q5),
      ?(alpha_not_pad _ Q6) in Hpad, Hpadded.
    cbn [Ascii.eqb Bool.eqb option_map] in Hpad, Hpadded.
    rewrite (Hpadded ltac:(lia)) in Hpad.
    destruct Hpad as [_ [_ [H _]]]; [lia|]. apply H.
    unfold JsString.matchAll, pad_char. cbn [String.length JsString.matchRuns].
    rewrite (alpha_not_pad _ Q0), (alpha_not_pad _ Q1), (alpha_not_pad _ Q2),
      (alpha_not_pad _ Q3), (alpha_not_pad _ Q4), (alpha_not_pad _ Q5),
      (alpha_not_pad _ Q6).
    reflexivity. }
  (* eight digits *)
  assert (Hnopad : mem_char pad_char rest = false).
  { destruct (mem_char pad_char rest) eqn:E; [exfalso|reflexivity].
    assert (Hr : rest = "").
    { apply Hpadded. cbn [find_char].
      rewrite (alpha_not_pad _ Q0), (alpha_not_pad _ Q1), (alpha_not_pad _ Q2),
        (alpha_not_pad _ Q3), (alpha_not_pad _ Q4), (alpha_not_pad _ Q5),
        (alpha_not_pad _ Q6), (alpha_not_pad _ Q7).
      cbn [Ascii.eqb Bool.eqb].
      rewrite find_char_mem in E. unfold pad_char in E.
      destruct (find_char "0" rest); [cbn; lia|discriminate]. }
    subst rest. discriminate. }
  pose proof (no_pad_no_sep_digits rest Qr Hrest Hnopad) as Hd.
  destruct rest as [|a4 [|b4 grid]].
  - now constructor.
  - exfalso. apply Hone. reflexivity.
  - apply digits_cons in Hd as [A4 Hd]. apply digits_cons in Hd as [B4 Hd].
    now constructor.
Qed.

End ShapeInversion.

(** ** Codes written in lower case *)

Section UpperCase.

Lemma upper_idem (a : ascii) : JsString.upper (JsString.upper a) = JsString.upper a.
Proof. destruct a as [[] [] [] [] [] [] [] []]; reflexivity. Qed.

Lemma upper_eqb_sep (a : ascii) :
  Ascii.eqb (JsString.upper a) sep_char = Ascii.eqb a sep_char.
Proof. destruct a as [[] [] [] [] [] [] [] []]; reflexivity. Qed.

Lemma upper_eqb_pad (a : ascii) :
  Ascii.eqb (JsString.upper a) pad_char = Ascii.eqb a pad_char.
Proof. destruct a as [[] [] [] [] [] [] [] []]; reflexivity. Qed.

Lemma toUpperCase_idem (s : string) :
  JsString.toUpperCase (JsString.toUpperCase s) = JsString.toUpperCase s.
Proof. induction s as [|a s IH]; [reflexivity|]. simpl. now rewrite upper_idem, IH. Qed.

Lemma length_upper (s : string) :
  String.length (JsString.toUpperCase s) = String.length s.
Proof. induction s as [|a s IH]; [reflexivity|]. simpl. now rewrite IH. Qed.

Lemma get_upper (s : string) (n : nat) :
  String.get n (JsString.toUpperCase s) = option_map JsString.upper (String.get n s).
Proof.
  revert n. induction s as [|a s IH]; intros n; [now destruct n|].
  destruct n as [|n]; simpl; [reflexivity|apply IH].
Qed.

Lemma charAt_upper (s : string) (i : Z) :
  JsString.charAt (JsString.toUpperCase s) i = JsString.toUpperCase (JsString.charAt s i).
Proof.
  unfold JsString.charAt. destruct (i <? 0); [reflexivity|].
  rewrite get_upper. now destruct (String.get (Z.to_nat i) s).
Qed.

Lemma eqb_upper_empty (s : string) :
  String.eqb (JsString.toUpperCase s) "" = String.eqb s "".
Proof. now destruct s. Qed.

Lemma eqb_upper_sep (s : string) :
  String.eqb (JsString.toUpperCase s) SEPARATOR_ = String.eqb s SEPARATOR_.
Proof.
  destruct s as [|a s]; [reflexivity|].
  unfold SEPARATOR_. cbn [JsString.toUpperCase String.eqb].
  change "+"%char with sep_char. rewrite upper_eqb_sep, eqb_upper_empty. reflexivity.
Qed.

(** A character that [toUpperCase] neither makes nor removes: the
    separator, the padding character. *)
Section FixedCharacter.

Variable x : ascii.
Hypothesis Hx : forall a, Ascii.eqb (JsString.upper a) x = Ascii.eqb a x.

Lemma upper_fixed (a : ascii) : Ascii.eqb a x = true -> JsString.upper a = a.
Proof.
  intros H. apply Ascii.eqb_eq in H. subst a.
  apply Ascii.eqb_eq. rewrite Hx. apply Ascii.eqb_refl.
Qed.

Lemma find_char_upper (s : string) :
  find_char x (JsString.toUpperCase s) = find_char x s.
Proof.
  induction s as [|a s IH]; [reflexivity|]. simpl. now rewrite Hx, IH.
Qed.

Lemma indexOf_upper (s : string) :
  JsString.indexOf (JsString.toUpperCase s) (String x "")
  = JsString.indexOf s (String x "").
Proof. now rewrite !indexOf_char, find_char_upper. Qed.

Lemma last_index_upper (s : string) :
  JsString.last_index (String x "") (JsString.toUpperCase s)
  = JsString.last_index (String x "") s.
Proof.
  induction s as [|a s IH]; [reflexivity|].
  cbn [JsString.toUpperCase JsString.last_index]. rewrite IH.
  destruct (JsString.last_index (String x "") s); [reflexivity|].
  now rewrite !prefix_char, Hx.
Qed.

Lemma lastIndexOf_upper (s : string) :
  JsString.lastIndexOf (JsString.toUpperCase s) (String x "")
  = JsString.lastIndexOf s (String x "").
Proof. unfold JsString.lastIndexOf. now rewrite last_index_upper. Qed.

Lemma drop_run_upper (s : string) :
  JsString.drop_run x (JsString.toUpperCase s)
  = JsString.toUpperCase (JsString.drop_run x s).
Proof.
  induction s as [|a s IH]; [reflexivity|]. simpl. rewrite Hx.
  now destruct (Ascii.eqb a x).
Qed.

Lemma take_run_upper (s : string) :
  JsString.take_run x (JsString.toUpperCase s) = JsString.take_run x s.
Proof.
  induction s as [|a s IH]; [reflexivity|]. simpl. rewrite Hx.
  destruct (Ascii.eqb a x) eqn:E; [|reflexivity].
  now rewrite (upper_fixed a E), IH.
Qed.

Lemma replaceRun_upper (s : string) :
  JsString.replaceRun x (JsString.toUpperCase s)
  = JsString.toUpperCase (JsString.replaceRun x s).
Proof.
  induction s as [|a s IH]; [reflexivity|]. simpl. rewrite Hx.
  destruct (Ascii.eqb a x); [apply drop_run_upper|]. simpl. now rewrite IH.
Qed.

Lemma replaceFirst_upper (s : string) :
  JsString.replaceFirst x (JsString.toUpperCase s)
  = JsString.toUpperCase (JsString.replaceFirst x s).
Proof.
  induction s as [|a s IH]; [reflexivity|]. simpl. rewrite Hx.
  destruct (Ascii.eqb a x); [reflexivity|]. simpl. now rewrite IH.
Qed.

Lemma matchRuns_upper (fuel : nat) (s : string) :
  JsString.matchRuns fuel x (JsString.toUpperCase s) = JsString.matchRuns fuel x s.
Proof.
  revert s. induction fuel as [|fuel IH]; intros s; [reflexivity|].
  destruct s as [|a s]; [reflexivity|].
  cbn [JsString.matchRuns JsString.toUpperCase]. rewrite Hx.
  destruct (Ascii.eqb a x) eqn:E.
  - change (String (JsString.upper a) (JsString.toUpperCase s))
      with (JsString.toUpperCase (String a s)).
    now rewrite take_run_upper, drop_run_upper, IH.
  - apply IH.
Qed.

Lemma matchAll_upper (s : string) :
  JsString.matchAll x (JsString.toUpperCase s) = JsString.matchAll x s.
Proof. unfold JsString.matchAll. now rewrite length_upper, matchRuns_upper. Qed.

End FixedCharacter.

Lemma all_code_chars_upper (fuel : nat) (code : string) (i : Z) :
  all_code_chars fuel (JsString.toUpperCase code) i = all_code_chars fuel code i.
Proof.
  revert i. induction fuel as [|fuel IH]; intros i; [reflexivity|].
  cbn [all_code_chars]. unfold JsString.length.
  rewrite length_upper, charAt_upper, toUpperCase_idem, IH. reflexivity.
Qed.

Lemma isValid_rest_upper (code : string) :
  isValid_rest (JsString.toUpperCase code) = isValid_rest code.
Proof.
  unfold isValid_rest, JsString.length, SEPARATOR_.
  rewrite length_upper, (indexOf_upper sep_char upper_eqb_sep).
  rewrite (replaceRun_upper sep_char upper_eqb_sep),
    (replaceRun_upper pad_char upper_eqb_pad), length_upper, all_code_chars_upper.
  reflexivity.
Qed.

(** The validators do not look at the case of the letters. *)
Lemma isValid_upper (code : string) : isValid (JsString.toUpperCase code) = isValid code.
Proof.
  unfold isValid. rewrite eqb_upper_empty, charAt_upper, eqb_upper_sep, isValid_rest_upper.
  unfold JsString.length, SEPARATOR_, PADDING_CHARACTER_.
  rewrite length_upper, (indexOf_upper sep_char upper_eqb_sep),
    (lastIndexOf_upper sep_char upper_eqb_sep),
    (indexOf_upper pad_char upper_eqb_pad), (matchAll_upper pad_char upper_eqb_pad).
  reflexivity.
Qed.

Lemma isShort_upper (code : string) : isShort (JsString.toUpperCase code) = isShort code.
Proof.
  unfold isShort, SEPARATOR_.
  now rewrite isValid_upper, (indexOf_upper sep_char upper_eqb_sep).
Qed.

Lemma isFull_upper (code : string) : isFull (JsString.toUpperCase code) = isFull code.
Proof.
  unfold isFull, JsString.length.
  now rewrite isValid_upper, isShort_upper, length_upper, !charAt_upper, !toUpperCase_idem.
Qed.

Lemma indexOf_upper_pad (code : string) :
  JsString.indexOf (JsString.toUpperCase code) PADDING_CHARACTER_
  = JsString.indexOf code PADDING_CHARACTER_.
Proof. apply (indexOf_upper pad_char upper_eqb_pad). Qed.

Lemma padding_to_separator_upper (seen : bool) (code : string) :
  padding_to_separator seen (JsString.toUpperCase code) = padding_to_separator seen code.
Proof.
  revert seen. induction code as [|a s IH]; intros seen; [reflexivity|].
  cbn [JsString.toUpperCase padding_to_separator].
  rewrite upper_eqb_sep, upper_eqb_pad, !IH. reflexivity.
Qed.

Lemma padding_to_separator_unpadded (code : string) :
  mem_char pad_char code = false -> padding_to_separator false code = true.
Proof.
  induction code as [|a s IH]; [reflexivity|].
  cbn [mem_char padding_to_separator]. intros H.
  apply orb_false_iff in H as [H1 H2]. rewrite H1.
  destruct (Ascii.eqb a sep_char); [reflexivity|]. now apply IH.
Qed.

(** The upper case of a code is canonical as soon as its padding ends at
    the separator. *)
Lemma canonical_upper (code : string) :
  padding_to_separator false code = true ->
  canonical (JsString.toUpperCase code) = true.
Proof.
  intros H. unfold canonical.
  rewrite toUpperCase_idem, String.eqb_refl, padding_to_separator_upper. exact H.
Qed.

Context {num : Type} {N : Number num}.

(** [decode] reads a code as it reads its upper case. *)
Lemma decode_upper (code : string) :
  decode (JsString.toUpperCase code) = decode code.
Proof.
  unfold decode.
  rewrite isFull_upper, (replaceFirst_upper sep_char upper_eqb_sep),
    (replaceRun_upper pad_char upper_eqb_pad), toUpperCase_idem.
  reflexivity.
Qed.

(** [shorten] works on the upper case of its argument. *)
Lemma shorten_upper (fuel : nat) (code : string) (latitude longitude : num) :
  shorten fuel (JsString.toUpperCase code) latitude longitude
  = shorten fuel code latitude longitude.
Proof.
  unfold shorten. now rewrite isFull_upper, indexOf_upper_pad, toUpperCase_idem.
Qed.

End UpperCase.

(** ** Canonical codes in exact arithmetic *)

Section ExactCodes.

Local Open Scope Q_scope.

Local Notation "'PR'" := (PAIR_RESOLUTIONS_at (N := Exact.number)).
Local Notation "'GS'" := (GRID_SIZE_DEGREES_ (N := Exact.number)).

(** *** The front end of [encode] and the constructor *)

Lemma clipLatitude_exact (lat : Q) :
  -90 <= lat -> lat < 90 -> clipLatitude (N := Exact.number) lat = lat.
Proof.
  intros H1 H2. unfold clipLatitude. cbn [min max of_Z Exact.number].
  rewrite (maximum_right (inject_Z (-90)) lat) by exact H1.
  apply minimum_right. exact H2.
Qed.

Lemma normalizeLongitude_exact (fuel : nat) (lng : Q) :
  -180 <= lng -> lng < 180 ->
  normalizeLongitude (N := Exact.number) fuel lng = Return lng.
Proof.
  intros H1 H2. unfold normalizeLongitude.
  assert (Hup : normalize_up (N := Exact.number) fuel lng = Return lng).
  { destruct fuel; cbn [normalize_up ltb of_Z Exact.number];
      now rewrite (less_false lng (inject_Z (-180))) by exact H1. }
  rewrite Hup. cbn [bind].
  destruct fuel; cbn [normalize_down leb of_Z Exact.number];
    now rewrite (Qle_bool_false (inject_Z 180) lng) by exact H2.
Qed.

Lemma accepted_length (len : Z) :
  (len = 2 \/ len = 4 \/ len = 6 \/ len = 8 \/ 9 <= len)%Z -> ~ rejected_length len.
Proof.
  intros H [H1|[H2 H3]]; [lia|].
  destruct H as [->|[->|[->|[->|H]]]]; try (vm_compute in H3; discriminate H3). lia.
Qed.

(** In range, [encode] is the pair encoder followed by the grid encoder. *)
Lemma encode_exact (fuel : nat) (lat lng : Q) (len : Z) :
  ~ rejected_length len ->
  -90 <= lat -> lat < 90 -> -180 <= lng -> lng < 180 ->
  encode (N := Exact.number) fuel lat lng len =
  Return (if (len >? PAIR_CODE_LENGTH_)%Z
          then (encodePairs (N := Exact.number) lat lng (Z.min len PAIR_CODE_LENGTH_)
                ++ encodeGrid (N := Exact.number) lat lng (len - PAIR_CODE_LENGTH_))%string
          else encodePairs (N := Exact.number) lat lng (Z.min len PAIR_CODE_LENGTH_)).
Proof.
  intros Hlen H1 H2 H3 H4. rewrite encode_accepted by exact Hlen. cbv zeta.
  rewrite clipLatitude_exact, normalizeLongitude_exact by assumption.
  cbn [bind eqb of_Z Exact.number].
  rewrite (Qeq_bool_false lat (inject_Z 90)).
  - now destruct (len >? PAIR_CODE_LENGTH_)%Z.
  - intros E. rewrite E in H2. revert H2. apply Qlt_irrefl.
Qed.

Lemma substring_0_0 (s : string) : String.substring 0 0 s = "".
Proof. now destruct s. Qed.

(** The centre the constructor computes. *)
Lemma newCodeArea_center (lo1 lo2 hi1 hi2 : Q) (n : Z) :
  lo1 < hi1 -> lo2 < hi2 -> hi1 <= 90 -> hi2 <= 180 ->
  latitudeCenter (newCodeArea (N := Exact.number) lo1 lo2 hi1 hi2 n)
  == (lo1 + hi1) * (1 # 2) /\
  longitudeCenter (newCodeArea (N := Exact.number) lo1 lo2 hi1 hi2 n)
  == (lo2 + hi2) * (1 # 2).
Proof.
  intros H1 H2 H3 H4. cbn [newCodeArea latitudeCenter longitudeCenter
                           min add sub div of_Z Exact.number].
  assert (E1 : lo1 + (hi1 - lo1) / inject_Z 2 == (lo1 + hi1) * (1 # 2)) by (field).
  assert (E2 : lo2 + (hi2 - lo2) / inject_Z 2 == (lo2 + hi2) * (1 # 2)) by (field).
  change (inject_Z LATITUDE_MAX_) with 90. change (inject_Z LONGITUDE_MAX_) with 180.
  rewrite minimum_left, minimum_left; [split; assumption| |].
  - rewrite E2. lra.
  - rewrite E1. lra.
Qed.




Ltac first_facts :=
  match goal with
  | D0 : (digit ?a < 9)%Z, E0 : (digit ?b < 18)%Z |- _ =>
      assert (inject_Z (digit a) <= 8)
        by (change 8 with (inject_Z 8); rewrite <- Zle_Qle; lia);
      assert (inject_Z (digit b) <= 17)
        by (change 17 with (inject_Z 17); rewrite <- Zle_Qle; lia)
  end.


Lemma GS_value : GS == 1 # 8000. Proof. reflexivity. Qed.

Ltac literal_chars :=
  change (Ascii.eqb "+" "+") with true;
  change (Ascii.eqb "0" "0") with true;
  change (Ascii.eqb "0" "+") with false;
  change (Ascii.eqb "+" "0") with false;
  change (JsString.upper "+") with "+"%char;
  change (JsString.upper "0") with "0"%char.

Ltac strip_step :=
  first
    [ progress rewrite alpha_not_sep by assumption
    | progress rewrite alpha_not_pad by assumption
    | progress rewrite alpha_upper by assumption
    | progress literal_chars
    | progress cbv iota
    | progress cbn [JsString.replaceFirst JsString.replaceRun JsString.drop_run
                    JsString.toUpperCase] ].

Ltac strip := unfold sep_char, pad_char; repeat strip_step.

Lemma strip_grid (a0 b0 a1 b1 a2 b2 a3 b3 a4 b4 : ascii) (grid : string) :
  alpha a0 -> alpha b0 -> alpha a1 -> alpha b1 -> alpha a2 -> alpha b2 ->
  alpha a3 -> alpha b3 -> alpha a4 -> alpha b4 -> digits grid ->
  JsString.toUpperCase
    (JsString.replaceRun pad_char
       (JsString.replaceFirst sep_char
          (String a0 (String b0 (String a1 (String b1 (String a2 (String b2
             (String a3 (String b3 (String "+" (String a4 (String b4 grid)))))))))))))
  = String a0 (String b0 (String a1 (String b1 (String a2 (String b2
      (String a3 (String b3 (String a4 (String b4 grid))))))))).
Proof.
  intros. strip.
  rewrite digits_replaceRun_pad by assumption. strip.
  now rewrite digits_upper.
Qed.

Ltac q_consts :=
  change (inject_Z LATITUDE_MAX_) with 90 in *;
  change (inject_Z LONGITUDE_MAX_) with 180 in *;
  change (inject_Z 90) with 90 in *;
  change (inject_Z 180) with 180 in *.

Ltac digit_facts :=
  repeat match goal with
         | H : alpha ?a |- _ =>
             lazymatch goal with
             | _ : 0 <= inject_Z (digit a) /\ inject_Z (digit a) <= 19 |- _ => fail
             | _ => pose proof (digit_bounds a H)
             end
         end.

Lemma encodePairs_loop_stop (fuel : nat) (len dc : Z) (alat alng : Q) (code : string) :
  (len <= dc)%Z ->
  encodePairs_loop (N := Exact.number) fuel len dc alat alng code = code.
Proof.
  intros H. destruct fuel; [reflexivity|]. cbn [encodePairs_loop].
  destruct (dc <? len)%Z eqn:E; [lia|reflexivity].
Qed.

Opaque PAIR_RESOLUTIONS_at GRID_SIZE_DEGREES_.

Ltac pair_bound :=
  match goal with
  | P0 : _ == 20, P1 : _ == 1, P2 : _ == 1 # 20, P3 : _ == 1 # 400,
    P4 : _ == 1 # 8000 |- _ =>
      rewrite ?P0, ?P1, ?P2, ?P3, ?P4; lra
  end.

Ltac pair_step a b i c Hc :=
  erewrite (encodePairs_loop_step _ _ _ _ i _ _ _ a b c);
  [ | lia | reflexivity | reflexivity | exact Hc | lra | assumption | assumption
    | pair_bound | pair_bound | pair_bound | pair_bound ].

Ltac pair_setup :=
  pose proof PR_0 as P0; pose proof PR_1 as P1; pose proof PR_2 as P2;
  pose proof PR_3 as P3; pose proof PR_4 as P4;
  digit_facts.

(** The loop of [encodePairs] on a point of the cell of ten digits. *)
Lemma encodePairs_loop_10 (x y : Q) (a0 b0 a1 b1 a2 b2 a3 b3 a4 b4 : ascii) :
  alpha a0 -> alpha b0 -> alpha a1 -> alpha b1 -> alpha a2 -> alpha b2 ->
  alpha a3 -> alpha b3 -> alpha a4 -> alpha b4 ->
  let vlat := inject_Z (digit a0) * 20 + inject_Z (digit a1) * 1
              + inject_Z (digit a2) * (1 # 20) + inject_Z (digit a3) * (1 # 400)
              + inject_Z (digit a4) * (1 # 8000) in
  let vlng := inject_Z (digit b0) * 20 + inject_Z (digit b1) * 1
              + inject_Z (digit b2) * (1 # 20) + inject_Z (digit b3) * (1 # 400)
              + inject_Z (digit b4) * (1 # 8000) in
  vlat <= x -> x < vlat + (1 # 8000) ->
  vlng <= y -> y < vlng + (1 # 8000) ->
  encodePairs_loop (N := Exact.number) 10 10 0 x y ""
  = String a0 (String b0 (String a1 (String b1 (String a2 (String b2
      (String a3 (String b3 (String "+" (String a4 (String b4 "")))))))))).
Proof.
  intros A0 B0 A1 B1 A2 B2 A3 B3 A4 B4 vlat vlng L1 L2 N1 N2. subst vlat vlng.
  pair_setup.
  pair_step a0 b0 0%Z 20 P0.
  pair_step a1 b1 1%Z 1 P1.
  pair_step a2 b2 2%Z (1 # 20) P2.
  pair_step a3 b3 3%Z (1 # 400) P3.
  pair_step a4 b4 4%Z (1 # 8000) P4.
  reflexivity.
Qed.

Lemma encodePairs_loop_8 (x y : Q) (a0 b0 a1 b1 a2 b2 a3 b3 : ascii) :
  alpha a0 -> alpha b0 -> alpha a1 -> alpha b1 -> alpha a2 -> alpha b2 ->
  alpha a3 -> alpha b3 ->
  let vlat := inject_Z (digit a0) * 20 + inject_Z (digit a1) * 1
              + inject_Z (digit a2) * (1 # 20) + inject_Z (digit a3) * (1 # 400) in
  let vlng := inject_Z (digit b0) * 20 + inject_Z (digit b1) * 1
              + inject_Z (digit b2) * (1 # 20) + inject_Z (digit b3) * (1 # 400) in
  vlat <= x -> x < vlat + (1 # 400) ->
  vlng <= y -> y < vlng + (1 # 400) ->
  encodePairs_loop (N := Exact.number) 8 8 0 x y ""
  = String a0 (String b0 (String a1 (String b1 (String a2 (String b2
      (String a3 (String b3 ""))))))).
Proof.
  intros A0 B0 A1 B1 A2 B2 A3 B3 vlat vlng L1 L2 N1 N2. subst vlat vlng.
  pair_setup.
  pair_step a0 b0 0%Z 20 P0.
  pair_step a1 b1 1%Z 1 P1.
  pair_step a2 b2 2%Z (1 # 20) P2.
  pair_step a3 b3 3%Z (1 # 400) P3.
  reflexivity.
Qed.

Lemma encodePairs_loop_6 (x y : Q) (a0 b0 a1 b1 a2 b2 : ascii) :
  alpha a0 -> alpha b0 -> alpha a1 -> alpha b1 -> alpha a2 -> alpha b2 ->
  let vlat := inject_Z (digit a0) * 20 + inject_Z (digit a1) * 1
              + inject_Z (digit a2) * (1 # 20) in
  let vlng := inject_Z (digit b0) * 20 + inject_Z (digit b1) * 1
              + inject_Z (digit b2) * (1 # 20) in
  vlat <= x -> x < vlat + (1 # 20) ->
  vlng <= y -> y < vlng + (1 # 20) ->
  encodePairs_loop (N := Exact.number) 6 6 0 x y ""
  = String a0 (String b0 (String a1 (String b1 (String a2 (String b2 ""))))).
Proof.
  intros A0 B0 A1 B1 A2 B2 vlat vlng L1 L2 N1 N2. subst vlat vlng.
  pair_setup.
  pair_step a0 b0 0%Z 20 P0.
  pair_step a1 b1 1%Z 1 P1.
  pair_step a2 b2 2%Z (1 # 20) P2.
  reflexivity.
Qed.

Lemma encodePairs_loop_4 (x y : Q) (a0 b0 a1 b1 : ascii) :
  alpha a0 -> alpha b0 -> alpha a1 -> alpha b1 ->
  let vlat := inject_Z (digit a0) * 20 + inject_Z (digit a1) * 1 in
  let vlng := inject_Z (digit b0) * 20 + inject_Z (digit b1) * 1 in
  vlat <= x -> x < vlat + 1 ->
  vlng <= y -> y < vlng + 1 ->
  encodePairs_loop (N := Exact.number) 4 4 0 x y ""
  = String a0 (String b0 (String a1 (String b1 ""))).
Proof.
  intros A0 B0 A1 B1 vlat vlng L1 L2 N1 N2. subst vlat vlng.
  pair_setup.
  pair_step a0 b0 0%Z 20 P0.
  pair_step a1 b1 1%Z 1 P1.
  reflexivity.
Qed.

Lemma encodePairs_loop_2 (x y : Q) (a0 b0 : ascii) :
  alpha a0 -> alpha b0 ->
  inject_Z (digit a0) * 20 <= x -> x < inject_Z (digit a0) * 20 + 20 ->
  inject_Z (digit b0) * 20 <= y -> y < inject_Z (digit b0) * 20 + 20 ->
  encodePairs_loop (N := Exact.number) 2 2 0 x y "" = String a0 (String b0 "").
Proof.
  intros A0 B0 L1 L2 N1 N2.
  pair_setup.
  pair_step a0 b0 0%Z 20 P0.
  reflexivity.
Qed.



(** *** 2 digits *)

Lemma strip_2 (a0 b0 : ascii) :
  alpha a0 -> alpha b0 ->
  JsString.toUpperCase
    (JsString.replaceRun pad_char (JsString.replaceFirst sep_char (String a0 (String b0 "000000+"))))
  = (String a0 (String b0 "")).
Proof. intros. strip. reflexivity. Qed.

Lemma decode_2 (a0 b0 : ascii) :
  alpha a0 -> alpha b0 ->
  isFull (String a0 (String b0 "000000+")) = true ->
  decode (N := Exact.number) (String a0 (String b0 "000000+"))
  = Return (newCodeArea (N := Exact.number)
              (0 + inject_Z (digit a0) * PR 0 - 90) (0 + inject_Z (digit b0) * PR 0 - 180)
              (0 + inject_Z (digit a0) * PR 0 + PR 0 - 90) (0 + inject_Z (digit b0) * PR 0 + PR 0 - 180) 2).
Proof.
  intros A0 B0 Hf. unfold decode. rewrite Hf. cbn [negb]. cbv zeta.
  rewrite !strip_2 by assumption. reflexivity.
Qed.

Lemma encode_2 (fuel : nat) (lat lng : Q) (a0 b0 : ascii) :
  alpha a0 -> alpha b0 ->
  (digit a0 < 9)%Z -> (digit b0 < 18)%Z ->
  inject_Z (digit a0) * 20 <= lat + 90 ->
  lat + 90 < inject_Z (digit a0) * 20 + 20 ->
  inject_Z (digit b0) * 20 <= lng + 180 ->
  lng + 180 < inject_Z (digit b0) * 20 + 20 ->
  encode (N := Exact.number) fuel lat lng 2 = Return (String a0 (String b0 "000000+")).
Proof.
  intros A0 B0 D0 E0 L1 L2 N1 N2.
  digit_facts. first_facts.
  rewrite encode_exact; [|apply accepted_length; lia|lra|lra|lra|lra].
  change (2 >? PAIR_CODE_LENGTH_)%Z with false. cbv iota.
  change (Z.min 2 PAIR_CODE_LENGTH_) with 2%Z.
  unfold encodePairs. cbv zeta. cbn [add of_Z Exact.number]. q_consts.
  change (Z.to_nat 2) with 2%nat.
  rewrite (encodePairs_loop_2 (lat + 90) (lng + 180) a0 b0); try assumption;
    try lra.
  reflexivity.
Qed.

Lemma cell_2 (a0 b0 : ascii) :
  alpha a0 -> alpha b0 ->
  isFull (String a0 (String b0 "000000+")) = true ->
  exists area,
    decode (N := Exact.number) (String a0 (String b0 "000000+")) = Return area /\
    latitudeLo area < latitudeHi area /\ longitudeLo area < longitudeHi area /\
    latitudeHi area <= 90 /\ longitudeHi area <= 180 /\
    latitudeCenter area == (latitudeLo area + latitudeHi area) * (1 # 2) /\
    longitudeCenter area == (longitudeLo area + longitudeHi area) * (1 # 2) /\
    forall fuel lat lng, in_cell area lat lng ->
      encode (N := Exact.number) fuel lat lng (codeLength area) = Return (String a0 (String b0 "000000+")).
Proof.
  intros A0 B0 Hf.
  destruct (first_digits _ a0 b0 _ Hf eq_refl A0 B0) as [D0 E0].
  eexists. split; [apply decode_2; assumption|].
  pair_setup. first_facts.
  match goal with
  | |- context [newCodeArea ?l1 ?l2 ?h1 ?h2 ?m] =>
      assert (S1 : l1 < h1) by (rewrite ?P0, ?P1, ?P2, ?P3, ?P4; lra);
      assert (S2 : l2 < h2) by (rewrite ?P0, ?P1, ?P2, ?P3, ?P4; lra);
      assert (S3 : h1 <= 90) by (rewrite ?P0, ?P1, ?P2, ?P3, ?P4; lra);
      assert (S4 : h2 <= 180) by (rewrite ?P0, ?P1, ?P2, ?P3, ?P4; lra);
      destruct (newCodeArea_center l1 l2 h1 h2 m S1 S2 S3 S4) as [S5 S6]
  end.
  split; [exact S1|]. split; [exact S2|]. split; [exact S3|]. split; [exact S4|].
  split; [exact S5|]. split; [exact S6|]. clear S1 S2 S3 S4 S5 S6.
  cbn [newCodeArea latitudeLo latitudeHi longitudeLo longitudeHi codeLength].
  intros fuel lat lng [L1 [L2 [N1 N2]]].
    cbn [newCodeArea latitudeLo latitudeHi longitudeLo longitudeHi codeLength]
      in L1, L2, N1, N2 |- *.
    rewrite ?P0, ?P1, ?P2, ?P3, ?P4 in L1, L2, N1, N2.
    apply encode_2; try assumption; lra.
Qed.

(** *** 4 digits *)

Lemma strip_4 (a0 b0 a1 b1 : ascii) :
  alpha a0 -> alpha b0 -> alpha a1 -> alpha b1 ->
  JsString.toUpperCase
    (JsString.replaceRun pad_char (JsString.replaceFirst sep_char (String a0 (String b0 (String a1 (String b1 "0000+"))))))
  = (String a0 (String b0 (String a1 (String b1 "")))).
Proof. intros. strip. reflexivity. Qed.

Lemma decode_4 (a0 b0 a1 b1 : ascii) :
  alpha a0 -> alpha b0 -> alpha a1 -> alpha b1 ->
  isFull (String a0 (String b0 (String a1 (String b1 "0000+")))) = true ->
  decode (N := Exact.number) (String a0 (String b0 (String a1 (String b1 "0000+"))))
  = Return (newCodeArea (N := Exact.number)
              (0 + inject_Z (digit a0) * PR 0 + inject_Z (digit a1) * PR 1 - 90) (0 + inject_Z (digit b0) * PR 0 + inject_Z (digit b1) * PR 1 - 180)
              (0 + inject_Z (digit a0) * PR 0 + inject_Z (digit a1) * PR 1 + PR 1 - 90) (0 + inject_Z (digit b0) * PR 0 + inject_Z (digit b1) * PR 1 + PR 1 - 180) 4).
Proof.
  intros A0 B0 A1 B1 Hf. unfold decode. rewrite Hf. cbn [negb]. cbv zeta.
  rewrite !strip_4 by assumption. reflexivity.
Qed.

Lemma encode_4 (fuel : nat) (lat lng : Q) (a0 b0 a1 b1 : ascii) :
  alpha a0 -> alpha b0 -> alpha a1 -> alpha b1 ->
  (digit a0 < 9)%Z -> (digit b0 < 18)%Z ->
  inject_Z (digit a0) * 20 + inject_Z (digit a1) * 1 <= lat + 90 ->
  lat + 90 < inject_Z (digit a0) * 20 + inject_Z (digit a1) * 1 + 1 ->
  inject_Z (digit b0) * 20 + inject_Z (digit b1) * 1 <= lng + 180 ->
  lng + 180 < inject_Z (digit b0) * 20 + inject_Z (digit b1) * 1 + 1 ->
  encode (N := Exact.number) fuel lat lng 4 = Return (String a0 (String b0 (String a1 (String b1 "0000+")))).
Proof.
  intros A0 B0 A1 B1 D0 E0 L1 L2 N1 N2.
  digit_facts. first_facts.
  rewrite encode_exact; [|apply accepted_length; lia|lra|lra|lra|lra].
  change (4 >? PAIR_CODE_LENGTH_)%Z with false. cbv iota.
  change (Z.min 4 PAIR_CODE_LENGTH_) with 4%Z.
  unfold encodePairs. cbv zeta. cbn [add of_Z Exact.number]. q_consts.
  change (Z.to_nat 4) with 4%nat.
  rewrite (encodePairs_loop_4 (lat + 90) (lng + 180) a0 b0 a1 b1); try assumption;
    try lra.
  reflexivity.
Qed.

Lemma cell_4 (a0 b0 a1 b1 : ascii) :
  alpha a0 -> alpha b0 -> alpha a1 -> alpha b1 ->
  isFull (String a0 (String b0 (String a1 (String b1 "0000+")))) = true ->
  exists area,
    decode (N := Exact.number) (String a0 (String b0 (String a1 (String b1 "0000+")))) = Return area /\
    latitudeLo area < latitudeHi area /\ longitudeLo area < longitudeHi area /\
    latitudeHi area <= 90 /\ longitudeHi area <= 180 /\
    latitudeCenter area == (latitudeLo area + latitudeHi area) * (1 # 2) /\
    longitudeCenter area == (longitudeLo area + longitudeHi area) * (1 # 2) /\
    forall fuel lat lng, in_cell area lat lng ->
      encode (N := Exact.number) fuel lat lng (codeLength area) = Return (String a0 (String b0 (String a1 (String b1 "0000+")))).
Proof.
  intros A0 B0 A1 B1 Hf.
  destruct (first_digits _ a0 b0 _ Hf eq_refl A0 B0) as [D0 E0].
  eexists. split; [apply decode_4; assumption|].
  pair_setup. first_facts.
  match goal with
  | |- context [newCodeArea ?l1 ?l2 ?h1 ?h2 ?m] =>
      assert (S1 : l1 < h1) by (rewrite ?P0, ?P1, ?P2, ?P3, ?P4; lra);
      assert (S2 : l2 < h2) by (rewrite ?P0, ?P1, ?P2, ?P3, ?P4; lra);
      assert (S3 : h1 <= 90) by (rewrite ?P0, ?P1, ?P2, ?P3, ?P4; lra);
      assert (S4 : h2 <= 180) by (rewrite ?P0, ?P1, ?P2, ?P3, ?P4; lra);
      destruct (newCodeArea_center l1 l2 h1 h2 m S1 S2 S3 S4) as [S5 S6]
  end.
  split; [exact S1|]. split; [exact S2|]. split; [exact S3|]. split; [exact S4|].
  split; [exact S5|]. split; [exact S6|]. clear S1 S2 S3 S4 S5 S6.
  cbn [newCodeArea latitudeLo latitudeHi longitudeLo longitudeHi codeLength].
  intros fuel lat lng [L1 [L2 [N1 N2]]].
    cbn [newCodeArea latitudeLo latitudeHi longitudeLo longitudeHi codeLength]
      in L1, L2, N1, N2 |- *.
    rewrite ?P0, ?P1, ?P2, ?P3, ?P4 in L1, L2, N1, N2.
    apply encode_4; try assumption; lra.
Qed.

(** *** 6 digits *)

Lemma strip_6 (a0 b0 a1 b1 a2 b2 : ascii) :
  alpha a0 -> alpha b0 -> alpha a1 -> alpha b1 -> alpha a2 -> alpha b2 ->
  JsString.toUpperCase
    (JsString.replaceRun pad_char (JsString.replaceFirst sep_char (String a0 (String b0 (String a1 (String b1 (String a2 (String b2 "00+"))))))))
  = (String a0 (String b0 (String a1 (String b1 (String a2 (String b2 "")))))).
Proof. intros. strip. reflexivity. Qed.

Lemma decode_6 (a0 b0 a1 b1 a2 b2 : ascii) :
  alpha a0 -> alpha b0 -> alpha a1 -> alpha b1 -> alpha a2 -> alpha b2 ->
  isFull (String a0 (String b0 (String a1 (String b1 (String a2 (String b2 "00+")))))) = true ->
  decode (N := Exact.number) (String a0 (String b0 (String a1 (String b1 (String a2 (String b2 "00+"))))))
  = Return (newCodeArea (N := Exact.number)
              (0 + inject_Z (digit a0) * PR 0 + inject_Z (digit a1) * PR 1 + inject_Z (digit a2) * PR 2 - 90) (0 + inject_Z (digit b0) * PR 0 + inject_Z (digit b1) * PR 1 + inject_Z (digit b2) * PR 2 - 180)
              (0 + inject_Z (digit a0) * PR 0 + inject_Z (digit a1) * PR 1 + inject_Z (digit a2) * PR 2 + PR 2 - 90) (0 + inject_Z (digit b0) * PR 0 + inject_Z (digit b1) * PR 1 + inject_Z (digit b2) * PR 2 + PR 2 - 180) 6).
Proof.
  intros A0 B0 A1 B1 A2 B2 Hf. unfold decode. rewrite Hf. cbn [negb]. cbv zeta.
  rewrite !strip_6 by assumption. reflexivity.
Qed.

Lemma encode_6 (fuel : nat) (lat lng : Q) (a0 b0 a1 b1 a2 b2 : ascii) :
  alpha a0 -> alpha b0 -> alpha a1 -> alpha b1 -> alpha a2 -> alpha b2 ->
  (digit a0 < 9)%Z -> (digit b0 < 18)%Z ->
  inject_Z (digit a0) * 20 + inject_Z (digit a1) * 1 + inject_Z (digit a2) * (1 # 20) <= lat + 90 ->
  lat + 90 < inject_Z (digit a0) * 20 + inject_Z (digit a1) * 1 + inject_Z (digit a2) * (1 # 20) + (1 # 20) ->
  inject_Z (digit b0) * 20 + inject_Z (digit b1) * 1 + inject_Z (digit b2) * (1 # 20) <= lng + 180 ->
  lng + 180 < inject_Z (digit b0) * 20 + inject_Z (digit b1) * 1 + inject_Z (digit b2) * (1 # 20) + (1 # 20) ->
  encode (N := Exact.number) fuel lat lng 6 = Return (String a0 (String b0 (String a1 (String b1 (String a2 (String b2 "00+")))))).
Proof.
  intros A0 B0 A1 B1 A2 B2 D0 E0 L1 L2 N1 N2.
  digit_facts. first_facts.
  rewrite encode_exact; [|apply accepted_length; lia|lra|lra|lra|lra].
  change (6 >? PAIR_CODE_LENGTH_)%Z with false. cbv iota.
  change (Z.min 6 PAIR_CODE_LENGTH_) with 6%Z.
  unfold encodePairs. cbv zeta. cbn [add of_Z Exact.number]. q_consts.
  change (Z.to_nat 6) with 6%nat.
  rewrite (encodePairs_loop_6 (lat + 90) (lng + 180) a0 b0 a1 b1 a2 b2); try assumption;
    try lra.
  reflexivity.
Qed.

Lemma cell_6 (a0 b0 a1 b1 a2 b2 : ascii) :
  alpha a0 -> alpha b0 -> alpha a1 -> alpha b1 -> alpha a2 -> alpha b2 ->
  isFull (String a0 (String b0 (String a1 (String b1 (String a2 (String b2 "00+")))))) = true ->
  exists area,
    decode (N := Exact.number) (String a0 (String b0 (String a1 (String b1 (String a2 (String b2 "00+")))))) = Return area /\
    latitudeLo area < latitudeHi area /\ longitudeLo area < longitudeHi area /\
    latitudeHi area <= 90 /\ longitudeHi area <= 180 /\
    latitudeCenter area == (latitudeLo area + latitudeHi area) * (1 # 2) /\
    longitudeCenter area == (longitudeLo area + longitudeHi area) * (1 # 2) /\
    forall fuel lat lng, in_cell area lat lng ->
      encode (N := Exact.number) fuel lat lng (codeLength area) = Return (String a0 (String b0 (String a1 (String b1 (String a2 (String b2 "00+")))))).
Proof.
  intros A0 B0 A1 B1 A2 B2 Hf.
  destruct (first_digits _ a0 b0 _ Hf eq_refl A0 B0) as [D0 E0].
  eexists. split; [apply decode_6; assumption|].
  pair_setup. first_facts.
  match goal with
  | |- context [newCodeArea ?l1 ?l2 ?h1 ?h2 ?m] =>
      assert (S1 : l1 < h1) by (rewrite ?P0, ?P1, ?P2, ?P3, ?P4; lra);
      assert (S2 : l2 < h2) by (rewrite ?P0, ?P1, ?P2, ?P3, ?P4; lra);
      assert (S3 : h1 <= 90) by (rewrite ?P0, ?P1, ?P2, ?P3, ?P4; lra);
      assert (S4 : h2 <= 180) by (rewrite ?P0, ?P1, ?P2, ?P3, ?P4; lra);
      destruct (newCodeArea_center l1 l2 h1 h2 m S1 S2 S3 S4) as [S5 S6]
  end.
  split; [exact S1|]. split; [exact S2|]. split; [exact S3|]. split; [exact S4|].
  split; [exact S5|]. split; [exact S6|]. clear S1 S2 S3 S4 S5 S6.
  cbn [newCodeArea latitudeLo latitudeHi longitudeLo longitudeHi codeLength].
  intros fuel lat lng [L1 [L2 [N1 N2]]].
    cbn [newCodeArea latitudeLo latitudeHi longitudeLo longitudeHi codeLength]
      in L1, L2, N1, N2 |- *.
    rewrite ?P0, ?P1, ?P2, ?P3, ?P4 in L1, L2, N1, N2.
    apply encode_6; try assumption; lra.
Qed.

(** *** 8 digits *)

Lemma strip_8 (a0 b0 a1 b1 a2 b2 a3 b3 : ascii) :
  alpha a0 -> alpha b0 -> alpha a1 -> alpha b1 -> alpha a2 -> alpha b2 -> alpha a3 -> alpha b3 ->
  JsString.toUpperCase
    (JsString.replaceRun pad_char (JsString.replaceFirst sep_char (String a0 (String b0 (String a1 (String b1 (String a2 (String b2 (String a3 (String b3 "+"))))))))))
  = (String a0 (String b0 (String a1 (String b1 (String a2 (String b2 (String a3 (String b3 "")))))))).
Proof. intros. strip. reflexivity. Qed.

Lemma decode_8 (a0 b0 a1 b1 a2 b2 a3 b3 : ascii) :
  alpha a0 -> alpha b0 -> alpha a1 -> alpha b1 -> alpha a2 -> alpha b2 -> alpha a3 -> alpha b3 ->
  isFull (String a0 (String b0 (String a1 (String b1 (String a2 (String b2 (String a3 (String b3 "+")))))))) = true ->
  decode (N := Exact.number) (String a0 (String b0 (String a1 (String b1 (String a2 (String b2 (String a3 (String b3 "+"))))))))
  = Return (newCodeArea (N := Exact.number)
              (0 + inject_Z (digit a0) * PR 0 + inject_Z (digit a1) * PR 1 + inject_Z (digit a2) * PR 2 + inject_Z (digit a3) * PR 3 - 90) (0 + inject_Z (digit b0) * PR 0 + inject_Z (digit b1) * PR 1 + inject_Z (digit b2) * PR 2 + inject_Z (digit b3) * PR 3 - 180)
              (0 + inject_Z (digit a0) * PR 0 + inject_Z (digit a1) * PR 1 + inject_Z (digit a2) * PR 2 + inject_Z (digit a3) * PR 3 + PR 3 - 90) (0 + inject_Z (digit b0) * PR 0 + inject_Z (digit b1) * PR 1 + inject_Z (digit b2) * PR 2 + inject_Z (digit b3) * PR 3 + PR 3 - 180) 8).
Proof.
  intros A0 B0 A1 B1 A2 B2 A3 B3 Hf. unfold decode. rewrite Hf. cbn [negb]. cbv zeta.
  rewrite !strip_8 by assumption. reflexivity.
Qed.

Lemma encode_8 (fuel : nat) (lat lng : Q) (a0 b0 a1 b1 a2 b2 a3 b3 : ascii) :
  alpha a0 -> alpha b0 -> alpha a1 -> alpha b1 -> alpha a2 -> alpha b2 -> alpha a3 -> alpha b3 ->
  (digit a0 < 9)%Z -> (digit b0 < 18)%Z ->
  inject_Z (digit a0) * 20 + inject_Z (digit a1) * 1 + inject_Z (digit a2) * (1 # 20) + inject_Z (digit a3) * (1 # 400) <= lat + 90 ->
  lat + 90 < inject_Z (digit a0) * 20 + inject_Z (digit a1) * 1 + inject_Z (digit a2) * (1 # 20) + inject_Z (digit a3) * (1 # 400) + (1 # 400) ->
  inject_Z (digit b0) * 20 + inject_Z (digit b1) * 1 + inject_Z (digit b2) * (1 # 20) + inject_Z (digit b3) * (1 # 400) <= lng + 180 ->
  lng + 180 < inject_Z (digit b0) * 20 + inject_Z (digit b1) * 1 + inject_Z (digit b2) * (1 # 20) + inject_Z (digit b3) * (1 # 400) + (1 # 400) ->
  encode (N := Exact.number) fuel lat lng 8 = Return (String a0 (String b0 (String a1 (String b1 (String a2 (String b2 (String a3 (String b3 "+")))))))).
Proof.
  intros A0 B0 A1 B1 A2 B2 A3 B3 D0 E0 L1 L2 N1 N2.
  digit_facts. first_facts.
  rewrite encode_exact; [|apply accepted_length; lia|lra|lra|lra|lra].
  change (8 >? PAIR_CODE_LENGTH_)%Z with false. cbv iota.
  change (Z.min 8 PAIR_CODE_LENGTH_) with 8%Z.
  unfold encodePairs. cbv zeta. cbn [add of_Z Exact.number]. q_consts.
  change (Z.to_nat 8) with 8%nat.
  rewrite (encodePairs_loop_8 (lat + 90) (lng + 180) a0 b0 a1 b1 a2 b2 a3 b3); try assumption;
    try lra.
  reflexivity.
Qed.

Lemma cell_8 (a0 b0 a1 b1 a2 b2 a3 b3 : ascii) :
  alpha a0 -> alpha b0 -> alpha a1 -> alpha b1 -> alpha a2 -> alpha b2 -> alpha a3 -> alpha b3 ->
  isFull (String a0 (String b0 (String a1 (String b1 (String a2 (String b2 (String a3 (String b3 "+")))))))) = true ->
  exists area,
    decode (N := Exact.number) (String a0 (String b0 (String a1 (String b1 (String a2 (String b2 (String a3 (String b3 "+")))))))) = Return area /\
    latitudeLo area < latitudeHi area /\ longitudeLo area < longitudeHi area /\
    latitudeHi area <= 90 /\ longitudeHi area <= 180 /\
    latitudeCenter area == (latitudeLo area + latitudeHi area) * (1 # 2) /\
    longitudeCenter area == (longitudeLo area + longitudeHi area) * (1 # 2) /\
    forall fuel lat lng, in_cell area lat lng ->
      encode (N := Exact.number) fuel lat lng (codeLength area) = Return (String a0 (String b0 (String a1 (String b1 (String a2 (String b2 (String a3 (String b3 "+")))))))).
Proof.
  intros A0 B0 A1 B1 A2 B2 A3 B3 Hf.
  destruct (first_digits _ a0 b0 _ Hf eq_refl A0 B0) as [D0 E0].
  eexists. split; [apply decode_8; assumption|].
  pair_setup. first_facts.
  match goal with
  | |- context [newCodeArea ?l1 ?l2 ?h1 ?h2 ?m] =>
      assert (S1 : l1 < h1) by (rewrite ?P0, ?P1, ?P2, ?P3, ?P4; lra);
      assert (S2 : l2 < h2) by (rewrite ?P0, ?P1, ?P2, ?P3, ?P4; lra);
      assert (S3 : h1 <= 90) by (rewrite ?P0, ?P1, ?P2, ?P3, ?P4; lra);
      assert (S4 : h2 <= 180) by (rewrite ?P0, ?P1, ?P2, ?P3, ?P4; lra);
      destruct (newCodeArea_center l1 l2 h1 h2 m S1 S2 S3 S4) as [S5 S6]
  end.
  split; [exact S1|]. split; [exact S2|]. split; [exact S3|]. split; [exact S4|].
  split; [exact S5|]. split; [exact S6|]. clear S1 S2 S3 S4 S5 S6.
  cbn [newCodeArea latitudeLo latitudeHi longitudeLo longitudeHi codeLength].
  intros fuel lat lng [L1 [L2 [N1 N2]]].
    cbn [newCodeArea latitudeLo latitudeHi longitudeLo longitudeHi codeLength]
      in L1, L2, N1, N2 |- *.
    rewrite ?P0, ?P1, ?P2, ?P3, ?P4 in L1, L2, N1, N2.
    apply encode_8; try assumption; lra.
Qed.

(** *** 10 digits *)

Lemma strip_10 (a0 b0 a1 b1 a2 b2 a3 b3 a4 b4 : ascii) :
  alpha a0 -> alpha b0 -> alpha a1 -> alpha b1 -> alpha a2 -> alpha b2 -> alpha a3 -> alpha b3 -> alpha a4 -> alpha b4 ->
  JsString.toUpperCase
    (JsString.replaceRun pad_char (JsString.replaceFirst sep_char (String a0 (String b0 (String a1 (String b1 (String a2 (String b2 (String a3 (String b3 (String "+" (String a4 (String b4 "")))))))))))))
  = (String a0 (String b0 (String a1 (String b1 (String a2 (String b2 (String a3 (String b3 (String a4 (String b4 "")))))))))).
Proof. intros. strip. reflexivity. Qed.

Lemma decode_10 (a0 b0 a1 b1 a2 b2 a3 b3 a4 b4 : ascii) :
  alpha a0 -> alpha b0 -> alpha a1 -> alpha b1 -> alpha a2 -> alpha b2 -> alpha a3 -> alpha b3 -> alpha a4 -> alpha b4 ->
  isFull (String a0 (String b0 (String a1 (String b1 (String a2 (String b2 (String a3 (String b3 (String "+" (String a4 (String b4 ""))))))))))) = true ->
  decode (N := Exact.number) (String a0 (String b0 (String a1 (String b1 (String a2 (String b2 (String a3 (String b3 (String "+" (String a4 (String b4 "")))))))))))
  = Return (newCodeArea (N := Exact.number)
              (0 + inject_Z (digit a0) * PR 0 + inject_Z (digit a1) * PR 1 + inject_Z (digit a2) * PR 2 + inject_Z (digit a3) * PR 3 + inject_Z (digit a4) * PR 4 - 90) (0 + inject_Z (digit b0) * PR 0 + inject_Z (digit b1) * PR 1 + inject_Z (digit b2) * PR 2 + inject_Z (digit b3) * PR 3 + inject_Z (digit b4) * PR 4 - 180)
              (0 + inject_Z (digit a0) * PR 0 + inject_Z (digit a1) * PR 1 + inject_Z (digit a2) * PR 2 + inject_Z (digit a3) * PR 3 + inject_Z (digit a4) * PR 4 + PR 4 - 90) (0 + inject_Z (digit b0) * PR 0 + inject_Z (digit b1) * PR 1 + inject_Z (digit b2) * PR 2 + inject_Z (digit b3) * PR 3 + inject_Z (digit b4) * PR 4 + PR 4 - 180) 10).
Proof.
  intros A0 B0 A1 B1 A2 B2 A3 B3 A4 B4 Hf. unfold decode. rewrite Hf. cbn [negb]. cbv zeta.
  rewrite !strip_10 by assumption. reflexivity.
Qed.

Lemma encode_10 (fuel : nat) (lat lng : Q) (a0 b0 a1 b1 a2 b2 a3 b3 a4 b4 : ascii) :
  alpha a0 -> alpha b0 -> alpha a1 -> alpha b1 -> alpha a2 -> alpha b2 -> alpha a3 -> alpha b3 -> alpha a4 -> alpha b4 ->
  (digit a0 < 9)%Z -> (digit b0 < 18)%Z ->
  inject_Z (digit a0) * 20 + inject_Z (digit a1) * 1 + inject_Z (digit a2) * (1 # 20) + inject_Z (digit a3) * (1 # 400) + inject_Z (digit a4) * (1 # 8000) <= lat + 90 ->
  lat + 90 < inject_Z (digit a0) * 20 + inject_Z (digit a1) * 1 + inject_Z (digit a2) * (1 # 20) + inject_Z (digit a3) * (1 # 400) + inject_Z (digit a4) * (1 # 8000) + (1 # 8000) ->
  inject_Z (digit b0) * 20 + inject_Z (digit b1) * 1 + inject_Z (digit b2) * (1 # 20) + inject_Z (digit b3) * (1 # 400) + inject_Z (digit b4) * (1 # 8000) <= lng + 180 ->
  lng + 180 < inject_Z (digit b0) * 20 + inject_Z (digit b1) * 1 + inject_Z (digit b2) * (1 # 20) + inject_Z (digit b3) * (1 # 400) + inject_Z (digit b4) * (1 # 8000) + (1 # 8000) ->
  encode (N := Exact.number) fuel lat lng 10 = Return (String a0 (String b0 (String a1 (String b1 (String a2 (String b2 (String a3 (String b3 (String "+" (String a4 (String b4 ""))))))))))).
Proof.
  intros A0 B0 A1 B1 A2 B2 A3 B3 A4 B4 D0 E0 L1 L2 N1 N2.
  digit_facts. first_facts.
  rewrite encode_exact; [|apply accepted_length; lia|lra|lra|lra|lra].
  change (10 >? PAIR_CODE_LENGTH_)%Z with false. cbv iota.
  change (Z.min 10 PAIR_CODE_LENGTH_) with 10%Z.
  unfold encodePairs. cbv zeta. cbn [add of_Z Exact.number]. q_consts.
  change (Z.to_nat 10) with 10%nat.
  rewrite (encodePairs_loop_10 (lat + 90) (lng + 180) a0 b0 a1 b1 a2 b2 a3 b3 a4 b4); try assumption;
    try lra.
  reflexivity.
Qed.

Lemma cell_10 (a0 b0 a1 b1 a2 b2 a3 b3 a4 b4 : ascii) :
  alpha a0 -> alpha b0 -> alpha a1 -> alpha b1 -> alpha a2 -> alpha b2 -> alpha a3 -> alpha b3 -> alpha a4 -> alpha b4 ->
  isFull (String a0 (String b0 (String a1 (String b1 (String a2 (String b2 (String a3 (String b3 (String "+" (String a4 (String b4 ""))))))))))) = true ->
  exists area,
    decode (N := Exact.number) (String a0 (String b0 (String a1 (String b1 (String a2 (String b2 (String a3 (String b3 (String "+" (String a4 (String b4 ""))))))))))) = Return area /\
    latitudeLo area < latitudeHi area /\ longitudeLo area < longitudeHi area /\
    latitudeHi area <= 90 /\ longitudeHi area <= 180 /\
    latitudeCenter area == (latitudeLo area + latitudeHi area) * (1 # 2) /\
    longitudeCenter area == (longitudeLo area + longitudeHi area) * (1 # 2) /\
    forall fuel lat lng, in_cell area lat lng ->
      encode (N := Exact.number) fuel lat lng (codeLength area) = Return (String a0 (String b0 (String a1 (String b1 (String a2 (String b2 (String a3 (String b3 (String "+" (String a4 (String b4 ""))))))))))).
Proof.
  intros A0 B0 A1 B1 A2 B2 A3 B3 A4 B4 Hf.
  destruct (first_digits _ a0 b0 _ Hf eq_refl A0 B0) as [D0 E0].
  eexists. split; [apply decode_10; assumption|].
  pair_setup. first_facts.
  match goal with
  | |- context [newCodeArea ?l1 ?l2 ?h1 ?h2 ?m] =>
      assert (S1 : l1 < h1) by (rewrite ?P0, ?P1, ?P2, ?P3, ?P4; lra);
      assert (S2 : l2 < h2) by (rewrite ?P0, ?P1, ?P2, ?P3, ?P4; lra);
      assert (S3 : h1 <= 90) by (rewrite ?P0, ?P1, ?P2, ?P3, ?P4; lra);
      assert (S4 : h2 <= 180) by (rewrite ?P0, ?P1, ?P2, ?P3, ?P4; lra);
      destruct (newCodeArea_center l1 l2 h1 h2 m S1 S2 S3 S4) as [S5 S6]
  end.
  split; [exact S1|]. split; [exact S2|]. split; [exact S3|]. split; [exact S4|].
  split; [exact S5|]. split; [exact S6|]. clear S1 S2 S3 S4 S5 S6.
  cbn [newCodeArea latitudeLo latitudeHi longitudeLo longitudeHi codeLength].
  intros fuel lat lng [L1 [L2 [N1 N2]]].
    cbn [newCodeArea latitudeLo latitudeHi longitudeLo longitudeHi codeLength]
      in L1, L2, N1, N2 |- *.
    rewrite ?P0, ?P1, ?P2, ?P3, ?P4 in L1, L2, N1, N2.
    apply encode_10; try assumption; lra.
Qed.

(** *** Ten digits and a grid string *)


Lemma trunc_div_unique (x w c : Q) (d : Z) :
  w == c -> 0 < c -> (0 <= d)%Z ->
  inject_Z d * c <= x -> x < (inject_Z d + 1) * c ->
  Exact.trunc (x / w) = d.
Proof.
  intros Hw Hc Hd Hlo Hhi. unfold Exact.trunc.
  assert (H0 : 0 <= inject_Z d) by (unfold Qle; simpl; lia).
  assert (Hx : 0 <= x / w).
  { rewrite Hw. apply Qle_shift_div_l; [assumption|].
    apply Qle_trans with (inject_Z d * c); [|assumption].
    rewrite Qmult_0_l. apply Qmult_le_0_compat; lra. }
  apply Qle_bool_iff in Hx. rewrite Hx.
  now apply Qfloor_div_unique with (c := c).
Qed.

Lemma decodePairs_10 (a0 b0 a1 b1 a2 b2 a3 b3 a4 b4 : ascii) :
  decodePairs (N := Exact.number)
    (String a0 (String b0 (String a1 (String b1 (String a2 (String b2
       (String a3 (String b3 (String a4 (String b4 ""))))))))))
  = newCodeArea (N := Exact.number)
      (0 + inject_Z (digit a0) * PR 0 + inject_Z (digit a1) * PR 1
       + inject_Z (digit a2) * PR 2 + inject_Z (digit a3) * PR 3
       + inject_Z (digit a4) * PR 4 - 90)
      (0 + inject_Z (digit b0) * PR 0 + inject_Z (digit b1) * PR 1
       + inject_Z (digit b2) * PR 2 + inject_Z (digit b3) * PR 3
       + inject_Z (digit b4) * PR 4 - 180)
      (0 + inject_Z (digit a0) * PR 0 + inject_Z (digit a1) * PR 1
       + inject_Z (digit a2) * PR 2 + inject_Z (digit a3) * PR 3
       + inject_Z (digit a4) * PR 4 + PR 4 - 90)
      (0 + inject_Z (digit b0) * PR 0 + inject_Z (digit b1) * PR 1
       + inject_Z (digit b2) * PR 2 + inject_Z (digit b3) * PR 3
       + inject_Z (digit b4) * PR 4 + PR 4 - 180)
      10.
Proof. reflexivity. Qed.

Lemma substringTo_10 (a0 b0 a1 b1 a2 b2 a3 b3 a4 b4 : ascii) (s : string) :
  JsString.substringTo
    (String a0 (String b0 (String a1 (String b1 (String a2 (String b2
       (String a3 (String b3 (String a4 (String b4 s))))))))))
    PAIR_CODE_LENGTH_
  = String a0 (String b0 (String a1 (String b1 (String a2 (String b2
      (String a3 (String b3 (String a4 (String b4 ""))))))))).
Proof.
  unfold JsString.substringTo. change (Z.to_nat PAIR_CODE_LENGTH_) with 10%nat.
  cbn [String.substring]. now rewrite substring_0_0.
Qed.

Lemma substringFrom_10 (a0 b0 a1 b1 a2 b2 a3 b3 a4 b4 : ascii) (s : string) :
  JsString.substringFrom
    (String a0 (String b0 (String a1 (String b1 (String a2 (String b2
       (String a3 (String b3 (String a4 (String b4 s))))))))))
    PAIR_CODE_LENGTH_
  = s.
Proof.
  unfold JsString.substringFrom. change (Z.to_nat PAIR_CODE_LENGTH_) with 10%nat.
  cbn [String.substring String.length Nat.sub]. rewrite Nat.sub_0_r. apply substring_all.
Qed.

(** The decoded area of a code with a grid string, and where it lies. *)
Lemma decode_grid (a0 b0 a1 b1 a2 b2 a3 b3 a4 b4 g : ascii) (grid : string) :
  alpha a0 -> alpha b0 -> alpha a1 -> alpha b1 -> alpha a2 -> alpha b2 ->
  alpha a3 -> alpha b3 -> alpha a4 -> alpha b4 -> digits (String g grid) ->
  isFull (String a0 (String b0 (String a1 (String b1 (String a2 (String b2
            (String a3 (String b3 (String "+" (String a4 (String b4
               (String g grid)))))))))))) = true ->
  let vlat := inject_Z (digit a0) * 20 + inject_Z (digit a1) * 1
              + inject_Z (digit a2) * (1 # 20) + inject_Z (digit a3) * (1 # 400)
              + inject_Z (digit a4) * (1 # 8000) in
  let vlng := inject_Z (digit b0) * 20 + inject_Z (digit b1) * 1
              + inject_Z (digit b2) * (1 # 20) + inject_Z (digit b3) * (1 # 400)
              + inject_Z (digit b4) * (1 # 8000) in
  exists lo1 lo2 hi1 hi2,
    decode (N := Exact.number)
      (String a0 (String b0 (String a1 (String b1 (String a2 (String b2
         (String a3 (String b3 (String "+" (String a4 (String b4
            (String g grid))))))))))))
    = Return (newCodeArea (N := Exact.number) lo1 lo2 hi1 hi2
                (10 + Z.of_nat (String.length (String g grid)))) /\
    lo1 == vlat + grid_lat (String g grid) GS - 90 /\
    hi1 == vlat + grid_lat (String g grid) GS
           + grid_height (String g grid) GS - 90 /\
    lo2 == vlng + grid_lng (String g grid) GS - 180 /\
    hi2 == vlng + grid_lng (String g grid) GS
           + grid_width (String g grid) GS - 180.
Proof.
  intros A0 B0 A1 B1 A2 B2 A3 B3 A4 B4 Hg Hf vlat vlng. subst vlat vlng.
  unfold decode. rewrite Hf. cbn [negb]. cbv zeta.
  rewrite !strip_grid by assumption.
  rewrite substringTo_10, substringFrom_10, decodePairs_10.
  assert (Hlen : (JsString.length
                    (String a0 (String b0 (String a1 (String b1 (String a2 (String b2
                       (String a3 (String b3 (String a4 (String b4
                          (String g grid)))))))))))
                  <=? PAIR_CODE_LENGTH_)%Z = false).
  { apply Z.leb_gt. unfold JsString.length, PAIR_CODE_LENGTH_. cbn [String.length]. lia. }
  rewrite Hlen. unfold decodeGrid. cbn [of_Z Exact.number].
  destruct (decodeGrid_loop_exact (String g grid) (inject_Z 0) (inject_Z 0) GS GS)
    as [la [lo [pl [pn [E [H1 [H2 [H3 H4]]]]]]]].
  rewrite E. do 4 eexists. split; [reflexivity|].
  cbn [newCodeArea latitudeLo latitudeHi longitudeLo longitudeHi codeLength
       add sub of_Z Exact.number].
  pose proof PR_0 as P0. pose proof PR_1 as P1. pose proof PR_2 as P2.
  pose proof PR_3 as P3. pose proof PR_4 as P4.
  set (gl := grid_lat (String g grid) GS) in *.
  set (gn := grid_lng (String g grid) GS) in *.
  set (gh := grid_height (String g grid) GS) in *.
  set (gw := grid_width (String g grid) GS) in *.
  change (inject_Z 0) with 0 in *. change (inject_Z 90) with 90.
  change (inject_Z 180) with 180.
  rewrite H1, H2, H3, H4, P0, P1, P2, P3, P4.
  split; [ring|]. split; [ring|]. split; ring.
Qed.

Lemma encode_grid (fuel : nat) (lat lng : Q)
      (a0 b0 a1 b1 a2 b2 a3 b3 a4 b4 : ascii) (grid : string) :
  alpha a0 -> alpha b0 -> alpha a1 -> alpha b1 -> alpha a2 -> alpha b2 ->
  alpha a3 -> alpha b3 -> alpha a4 -> alpha b4 -> digits grid -> grid <> "" ->
  (digit a0 < 9)%Z -> (digit b0 < 18)%Z ->
  let vlat := inject_Z (digit a0) * 20 + inject_Z (digit a1) * 1
              + inject_Z (digit a2) * (1 # 20) + inject_Z (digit a3) * (1 # 400)
              + inject_Z (digit a4) * (1 # 8000) in
  let vlng := inject_Z (digit b0) * 20 + inject_Z (digit b1) * 1
              + inject_Z (digit b2) * (1 # 20) + inject_Z (digit b3) * (1 # 400)
              + inject_Z (digit b4) * (1 # 8000) in
  vlat + grid_lat grid GS <= lat + 90 ->
  lat + 90 < vlat + grid_lat grid GS + grid_height grid GS ->
  vlng + grid_lng grid GS <= lng + 180 ->
  lng + 180 < vlng + grid_lng grid GS + grid_width grid GS ->
  encode (N := Exact.number) fuel lat lng (10 + Z.of_nat (String.length grid))
  = Return (String a0 (String b0 (String a1 (String b1 (String a2 (String b2
             (String a3 (String b3 (String "+" (String a4 (String b4 grid))))))))))).
Proof.
  intros A0 B0 A1 B1 A2 B2 A3 B3 A4 B4 Hg Hne D0 E0 vlat vlng L1 L2 N1 N2.
  subst vlat vlng.
  pose proof GS_value as G0.
  assert (Gpos : 0 < GS) by (rewrite G0; reflexivity).
  destruct (grid_lat_bounds grid GS Hg Gpos) as [GL1 GL2].
  destruct (grid_lng_bounds grid GS Hg Gpos) as [GN1 GN2].
  set (gl := grid_lat grid GS) in *. set (gn := grid_lng grid GS) in *.
  set (gh := grid_height grid GS) in *. set (gw := grid_width grid GS) in *.
  rewrite G0 in GL2, GN2.
  digit_facts. first_facts.
  assert (Hlen : (0 < Z.of_nat (String.length grid))%Z).
  { destruct grid; [contradiction|]. cbn [String.length]. lia. }
  rewrite encode_exact; [|apply accepted_length; lia|lra|lra|lra|lra].
  assert (Hgt : (10 + Z.of_nat (String.length grid) >? PAIR_CODE_LENGTH_)%Z = true)
    by (apply Z.gtb_lt; unfold PAIR_CODE_LENGTH_; lia).
  rewrite Hgt.
  replace (Z.min (10 + Z.of_nat (String.length grid)) PAIR_CODE_LENGTH_) with 10%Z
    by (unfold PAIR_CODE_LENGTH_; lia).
  replace (10 + Z.of_nat (String.length grid) - PAIR_CODE_LENGTH_)%Z
    with (Z.of_nat (String.length grid)) by (unfold PAIR_CODE_LENGTH_; lia).
  assert (Epairs : encodePairs (N := Exact.number) lat lng 10
                   = String a0 (String b0 (String a1 (String b1 (String a2 (String b2
                       (String a3 (String b3 (String "+" (String a4 (String b4 ""))))))))))).
  { unfold encodePairs. cbv zeta. cbn [add of_Z Exact.number]. q_consts.
    change (Z.to_nat 10) with 10%nat.
    rewrite (encodePairs_loop_10 (lat + 90) (lng + 180) a0 b0 a1 b1 a2 b2 a3 b3 a4 b4);
      try assumption; try lra.
    reflexivity. }
  rewrite Epairs.
  unfold encodeGrid. cbv zeta. rewrite Nat2Z.id.
  cbn [add of_Z rem Exact.number]. q_consts. unfold Exact.remainder.
  set (klat := (digit a0 * 160000 + digit a1 * 8000 + digit a2 * 400
                + digit a3 * 20 + digit a4)%Z).
  set (klng := (digit b0 * 160000 + digit b1 * 8000 + digit b2 * 400
                + digit b3 * 20 + digit b4)%Z).
  assert (Klat : inject_Z klat * (1 # 8000)
                 == inject_Z (digit a0) * 20 + inject_Z (digit a1) * 1
                    + inject_Z (digit a2) * (1 # 20) + inject_Z (digit a3) * (1 # 400)
                    + inject_Z (digit a4) * (1 # 8000)).
  { unfold klat. rewrite !inject_Z_plus, !inject_Z_mult.
    change (inject_Z 160000) with 160000. change (inject_Z 8000) with 8000.
    change (inject_Z 400) with 400. change (inject_Z 20) with 20. ring. }
  assert (Klng : inject_Z klng * (1 # 8000)
                 == inject_Z (digit b0) * 20 + inject_Z (digit b1) * 1
                    + inject_Z (digit b2) * (1 # 20) + inject_Z (digit b3) * (1 # 400)
                    + inject_Z (digit b4) * (1 # 8000)).
  { unfold klng. rewrite !inject_Z_plus, !inject_Z_mult.
    change (inject_Z 160000) with 160000. change (inject_Z 8000) with 8000.
    change (inject_Z 400) with 400. change (inject_Z 20) with 20. ring. }
  assert (Kpos : (0 <= klat /\ 0 <= klng)%Z).
  { unfold klat, klng.
    pose proof (alpha_digit_range a0 A0). pose proof (alpha_digit_range a1 A1).
    pose proof (alpha_digit_range a2 A2). pose proof (alpha_digit_range a3 A3).
    pose proof (alpha_digit_range a4 A4). pose proof (alpha_digit_range b0 B0).
    pose proof (alpha_digit_range b1 B1). pose proof (alpha_digit_range b2 B2).
    pose proof (alpha_digit_range b3 B3). pose proof (alpha_digit_range b4 B4). lia. }
  clearbody klat klng.
  rewrite (trunc_div_unique (lat + 90) GS (1 # 8000) klat);
    [|exact G0|reflexivity|lia|lra|lra].
  rewrite (trunc_div_unique (lng + 180) GS (1 # 8000) klng);
    [|exact G0|reflexivity|lia|lra|lra].
  rewrite (encodeGrid_loop_exact grid GS GS _ _ ""); try assumption.
  - reflexivity.
  - fold gl. rewrite G0. lra.
  - fold gl gh. rewrite G0. lra.
  - fold gn. rewrite G0. lra.
  - fold gn gw. rewrite G0. lra.
Qed.

Lemma cell_grid (a0 b0 a1 b1 a2 b2 a3 b3 a4 b4 g : ascii) (grid : string) :
  alpha a0 -> alpha b0 -> alpha a1 -> alpha b1 -> alpha a2 -> alpha b2 ->
  alpha a3 -> alpha b3 -> alpha a4 -> alpha b4 -> digits (String g grid) ->
  isFull (String a0 (String b0 (String a1 (String b1 (String a2 (String b2
            (String a3 (String b3 (String "+" (String a4 (String b4
               (String g grid)))))))))))) = true ->
  exists area,
    decode (N := Exact.number)
      (String a0 (String b0 (String a1 (String b1 (String a2 (String b2
         (String a3 (String b3 (String "+" (String a4 (String b4
            (String g grid)))))))))))) = Return area /\
    latitudeLo area < latitudeHi area /\ longitudeLo area < longitudeHi area /\
    latitudeHi area <= 90 /\ longitudeHi area <= 180 /\
    latitudeCenter area == (latitudeLo area + latitudeHi area) * (1 # 2) /\
    longitudeCenter area == (longitudeLo area + longitudeHi area) * (1 # 2) /\
    forall fuel lat lng, in_cell area lat lng ->
      encode (N := Exact.number) fuel lat lng (codeLength area)
      = Return (String a0 (String b0 (String a1 (String b1 (String a2 (String b2
                  (String a3 (String b3 (String "+" (String a4 (String b4
                     (String g grid)))))))))))).
Proof.
  intros A0 B0 A1 B1 A2 B2 A3 B3 A4 B4 Hg Hf.
  destruct (first_digits _ a0 b0 _ Hf eq_refl A0 B0) as [D0 E0].
  pose proof GS_value as G0.
  assert (Gpos : 0 < GS) by (rewrite G0; reflexivity).
  destruct (grid_lat_bounds _ GS Hg Gpos) as [GL1 GL2].
  destruct (grid_lng_bounds _ GS Hg Gpos) as [GN1 GN2].
  pose proof (grid_height_pos (String g grid) GS Gpos) as GH.
  pose proof (grid_width_pos (String g grid) GS Gpos) as GW.
  destruct (decode_grid a0 b0 a1 b1 a2 b2 a3 b3 a4 b4 g grid) as
      [lo1 [lo2 [hi1 [hi2 [Hd [H1 [H2 [H3 H4]]]]]]]]; try assumption.
  set (gl := grid_lat (String g grid) GS) in *.
  set (gn := grid_lng (String g grid) GS) in *.
  set (gh := grid_height (String g grid) GS) in *.
  set (gw := grid_width (String g grid) GS) in *.
  rewrite G0 in GL2, GN2.
  digit_facts. first_facts.
  assert (S1 : lo1 < hi1) by lra.
  assert (S2 : lo2 < hi2) by lra.
  assert (S3 : hi1 <= 90) by lra.
  assert (S4 : hi2 <= 180) by lra.
  destruct (newCodeArea_center lo1 lo2 hi1 hi2
              (10 + Z.of_nat (String.length (String g grid))) S1 S2 S3 S4) as [S5 S6].
  eexists. split; [exact Hd|].
  split; [exact S1|]. split; [exact S2|]. split; [exact S3|]. split; [exact S4|].
  split; [exact S5|]. split; [exact S6|].
  cbn [newCodeArea latitudeLo latitudeHi longitudeLo longitudeHi codeLength].
  intros fuel lat lng [L1 [L2 [N1 N2]]].
  cbn [newCodeArea latitudeLo latitudeHi longitudeLo longitudeHi codeLength]
    in L1, L2, N1, N2.
  apply encode_grid; try assumption; try discriminate; fold gl gn gh gw; lra.
Qed.

(** *** Every canonical full code *)

(** The area of a canonical full code, and what its points encode to. *)
Theorem canonical_code_cell (c : string) :
  isFull c = true -> canonical c = true ->
  exists area,
    decode (N := Exact.number) c = Return area /\
    latitudeLo area < latitudeHi area /\ longitudeLo area < longitudeHi area /\
    latitudeHi area <= 90 /\ longitudeHi area <= 180 /\
    latitudeCenter area == (latitudeLo area + latitudeHi area) * (1 # 2) /\
    longitudeCenter area == (longitudeLo area + longitudeHi area) * (1 # 2) /\
    forall fuel lat lng, in_cell area lat lng ->
      encode (N := Exact.number) fuel lat lng (codeLength area) = Return c.
Proof.
  intros Hf Hc. destruct (canonical_full_shape c Hf Hc).
  - now apply cell_2.
  - now apply cell_4.
  - now apply cell_6.
  - now apply cell_8.
  - destruct grid as [|g grid].
    + now apply cell_10.
    + now apply cell_grid.
Qed.

(** In exact arithmetic the centre of the decoded area of a canonical
    code of any length, encoded at the decoded length, gives the code
    back. *)
Theorem decode_center_reencodes (fuel : nat) (c : string) :
  isFull c = true -> canonical c = true ->
  exists area,
    decode (N := Exact.number) c = Return area /\
    encode (N := Exact.number) fuel (latitudeCenter area) (longitudeCenter area)
           (codeLength area) = Return c.
Proof.
  intros Hf Hc.
  destruct (canonical_code_cell c Hf Hc)
    as [area [Hd [H1 [H2 [_ [_ [C1 [C2 Henc]]]]]]]].
  exists area. split; [exact Hd|]. apply Henc. unfold in_cell.
  rewrite C1, C2. lra.
Qed.

(** In whatever case the code is written, the centre of its area encodes
    to its upper case. *)
Lemma decode_center_reencodes_upper (fuel : nat) (c : string) :
  isFull c = true -> padding_to_separator false c = true ->
  exists area,
    decode (N := Exact.number) c = Return area /\
    encode (N := Exact.number) fuel (latitudeCenter area) (longitudeCenter area)
           (codeLength area) = Return (JsString.toUpperCase c).
Proof.
  intros Hf Hp.
  destruct (canonical_code_cell (JsString.toUpperCase c))
    as [area [Hd [H1 [H2 [_ [_ [C1 [C2 Henc]]]]]]]].
  - now rewrite isFull_upper.
  - now apply canonical_upper.
  - rewrite decode_upper in Hd. exists area. split; [exact Hd|].
    apply Henc. unfold in_cell. rewrite C1, C2. lra.
Qed.


(** *** Shortening and recovering a canonical code *)

Lemma digits_drop_run_sep (s : string) : digits s -> JsString.drop_run "+" s = s.
Proof.
  destruct s as [|c s]; [reflexivity|]. rewrite digits_cons. intros [Hc Hs].
  simpl. now rewrite (alpha_not_sep c Hc).
Qed.

(** What is left of a code after its first eight digits is a short code. *)
Lemma isShort_plus (rest : string) :
  digits rest -> String.length rest <> 1%nat -> isShort (String "+" rest) = true.
Proof.
  intros Hd Hlen.
  assert (Hsep : JsString.indexOf (String "+" rest) SEPARATOR_ = 0%Z).
  { unfold SEPARATOR_. now rewrite indexOf_char. }
  assert (Hlast : JsString.lastIndexOf (String "+" rest) SEPARATOR_ = 0%Z).
  { unfold JsString.lastIndexOf, SEPARATOR_. cbn [JsString.last_index].
    rewrite (digits_last_sep rest Hd), prefix_char. reflexivity. }
  assert (Hpad : JsString.indexOf (String "+" rest) PADDING_CHARACTER_ = (-1)%Z).
  { unfold PADDING_CHARACTER_. rewrite indexOf_char. cbn [find_char].
    change (Ascii.eqb "+" "0") with false. cbv iota.
    now rewrite (digits_find_pad rest Hd). }
  assert (Hrest : isValid_rest (String "+" rest) = true).
  { unfold isValid_rest. rewrite Hsep.
    assert (E : (JsString.length (String "+" rest) - 0 - 1 =? 1)%Z = false).
    { apply Z.eqb_neq. unfold JsString.length. cbn [String.length]. lia. }
    rewrite E. cbv zeta. unfold sep_char, pad_char.
    cbn [JsString.replaceRun]. change (Ascii.eqb "+" "+") with true. cbv iota.
    rewrite (digits_drop_run_sep rest Hd), (digits_replaceRun_pad rest Hd).
    rewrite all_code_chars_spec. now apply digits_valid. }
  assert (Hv : isValid (String "+" rest) = true).
  { unfold isValid. rewrite Hsep, Hlast, Hpad. exact Hrest. }
  unfold isShort. rewrite Hv, Hsep. reflexivity.
Qed.

Lemma isShort_pair (a b : ascii) :
  alpha a -> alpha b -> isShort (String a (String b "+")) = true.
Proof.
  intros Ha Hb.
  assert (Hsep : JsString.indexOf (String a (String b "+")) SEPARATOR_ = 2%Z).
  { unfold SEPARATOR_. rewrite indexOf_char. cbn [find_char].
    now rewrite (alpha_not_sep a Ha), (alpha_not_sep b Hb). }
  assert (Hlast : JsString.lastIndexOf (String a (String b "+")) SEPARATOR_ = 2%Z).
  { unfold JsString.lastIndexOf, SEPARATOR_. cbn [JsString.last_index].
    rewrite !prefix_char. reflexivity. }
  assert (Hpad : JsString.indexOf (String a (String b "+")) PADDING_CHARACTER_ = (-1)%Z).
  { unfold PADDING_CHARACTER_. rewrite indexOf_char. cbn [find_char].
    now rewrite (alpha_not_pad a Ha), (alpha_not_pad b Hb). }
  assert (Hrest : isValid_rest (String a (String b "+")) = true).
  { unfold isValid_rest. rewrite Hsep.
    change (JsString.length (String a (String b "+")) - 2 - 1 =? 1)%Z with false.
    cbv zeta. strip. rewrite all_code_chars_spec.
    cbn [all_chars]. now rewrite (alpha_valid_char a Ha), (alpha_valid_char b Hb). }
  assert (Hv : isValid (String a (String b "+")) = true).
  { unfold isValid. rewrite Hsep, Hlast, Hpad. exact Hrest. }
  unfold isShort. rewrite Hv, Hsep. reflexivity.
Qed.

(** Recovery of a code from what follows its first eight digits. *)
Lemma recover_plus (fuel : nat) (a0 b0 a1 b1 a2 b2 a3 b3 : ascii) (rest : string)
      (area : CodeArea (num := Q)) (rlat rlng : Q) :
  alpha a0 -> alpha b0 -> alpha a1 -> alpha b1 -> alpha a2 -> alpha b2 ->
  alpha a3 -> alpha b3 -> (digit a0 < 9)%Z -> (digit b0 < 18)%Z ->
  digits rest -> String.length rest <> 1%nat ->
  let vlat := inject_Z (digit a0) * 20 + inject_Z (digit a1) * 1
              + inject_Z (digit a2) * (1 # 20) + inject_Z (digit a3) * (1 # 400) in
  let vlng := inject_Z (digit b0) * 20 + inject_Z (digit b1) * 1
              + inject_Z (digit b2) * (1 # 20) + inject_Z (digit b3) * (1 # 400) in
  decode (N := Exact.number)
    (String a0 (String b0 (String a1 (String b1 (String a2 (String b2
       (String a3 (String b3 (String "+" rest))))))))) = Return area ->
  vlat - 90 <= rlat -> rlat < vlat - 90 + (1 # 400) ->
  vlng - 180 <= rlng -> rlng < vlng - 180 + (1 # 400) ->
  latitudeCenter area - rlat <= 1 # 800 -> - (1 # 800) <= latitudeCenter area - rlat ->
  longitudeCenter area - rlng <= 1 # 800 -> - (1 # 800) <= longitudeCenter area - rlng ->
  encode (N := Exact.number) fuel (latitudeCenter area) (longitudeCenter area)
         (codeLength area)
  = Return (String a0 (String b0 (String a1 (String b1 (String a2 (String b2
              (String a3 (String b3 (String "+" rest))))))))) ->
  recoverNearest (N := Exact.number) fuel (String "+" rest) rlat rlng
  = Return (String a0 (String b0 (String a1 (String b1 (String a2 (String b2
              (String a3 (String b3 (String "+" rest))))))))).
Proof.
  intros A0 B0 A1 B1 A2 B2 A3 B3 D0 E0 Hd Hlen vlat vlng Hdec L1 L2 N1 N2
         C1 C2 C3 C4 Henc.
  subst vlat vlng. digit_facts. first_facts.
  unfold recoverNearest. rewrite (isShort_plus rest Hd Hlen). cbn [negb]. cbv zeta.
  rewrite clipLatitude_exact by lra.
  rewrite normalizeLongitude_exact by lra. cbn [bind].
  assert (Hup : JsString.toUpperCase (String "+" rest) = String "+" rest).
  { cbn [JsString.toUpperCase]. now rewrite (digits_upper rest Hd). }
  rewrite Hup.
  assert (Hsep : JsString.indexOf (String "+" rest) SEPARATOR_ = 0%Z).
  { unfold SEPARATOR_. now rewrite indexOf_char. }
  rewrite Hsep.
  cbn [pow floor mul div sub add opp ltb of_Z Exact.number].
  change (Qpower (inject_Z 20) (2 - (SEPARATOR_POSITION_ - 0) / 2)) with (1 # 400).
  change ((1 # 400) / inject_Z 2) with (1 # 800).
  set (klat := (digit a0 * 8000 + digit a1 * 400 + digit a2 * 20 + digit a3 - 36000)%Z).
  set (klng := (digit b0 * 8000 + digit b1 * 400 + digit b2 * 20 + digit b3 - 72000)%Z).
  assert (Klat : inject_Z klat * (1 # 400)
                 == inject_Z (digit a0) * 20 + inject_Z (digit a1) * 1
                    + inject_Z (digit a2) * (1 # 20) + inject_Z (digit a3) * (1 # 400)
                    - 90).
  { unfold klat, Z.sub. rewrite !inject_Z_plus, !inject_Z_mult.
    change (inject_Z 8000) with 8000. change (inject_Z 400) with 400.
    change (inject_Z 20) with 20. change (inject_Z (- (36000))) with (- (36000)). ring. }
  assert (Klng : inject_Z klng * (1 # 400)
                 == inject_Z (digit b0) * 20 + inject_Z (digit b1) * 1
                    + inject_Z (digit b2) * (1 # 20) + inject_Z (digit b3) * (1 # 400)
                    - 180).
  { unfold klng, Z.sub. rewrite !inject_Z_plus, !inject_Z_mult.
    change (inject_Z 8000) with 8000. change (inject_Z 400) with 400.
    change (inject_Z 20) with 20. change (inject_Z (- (72000))) with (- (72000)). ring. }
  clearbody klat klng.
  rewrite (Qfloor_div_unique rlat (1 # 400) (1 # 400) klat);
    [|reflexivity|reflexivity|lra|lra].
  rewrite (Qfloor_div_unique rlng (1 # 400) (1 # 400) klng);
    [|reflexivity|reflexivity|lra|lra].
  change PAIR_CODE_LENGTH_ with 10%Z.
  rewrite (encode_10 fuel _ _ a0 b0 a1 b1 a2 b2 a3 b3 "2" "2");
    try assumption; try reflexivity;
    try (change (inject_Z (digit "2")) with 0; lra).
  cbn [bind].
  change (JsString.substringTo
            (String a0 (String b0 (String a1 (String b1 (String a2 (String b2
               (String a3 (String b3 "+22"))))))))
            (SEPARATOR_POSITION_ - 0))
    with (String a0 (String b0 (String a1 (String b1 (String a2 (String b2
            (String a3 (String b3 "")))))))).
  cbn [append]. rewrite Hdec. cbn [bind].
  rewrite (less_false _ _ C1), (less_false _ _ C2),
    (less_false _ _ C3), (less_false _ _ C4).
  exact Henc.
Qed.

(** Recovery of an eight-digit code from its last pair. *)
Lemma recover_pair (fuel : nat) (a0 b0 a1 b1 a2 b2 a3 b3 : ascii)
      (area : CodeArea (num := Q)) (rlat rlng : Q) :
  alpha a0 -> alpha b0 -> alpha a1 -> alpha b1 -> alpha a2 -> alpha b2 ->
  alpha a3 -> alpha b3 -> (digit a0 < 9)%Z -> (digit b0 < 18)%Z ->
  let vlat := inject_Z (digit a0) * 20 + inject_Z (digit a1) * 1
              + inject_Z (digit a2) * (1 # 20) in
  let vlng := inject_Z (digit b0) * 20 + inject_Z (digit b1) * 1
              + inject_Z (digit b2) * (1 # 20) in
  decode (N := Exact.number)
    (String a0 (String b0 (String a1 (String b1 (String a2 (String b2
       (String a3 (String b3 "+")))))))) = Return area ->
  vlat - 90 <= rlat -> rlat < vlat - 90 + (1 # 20) ->
  vlng - 180 <= rlng -> rlng < vlng - 180 + (1 # 20) ->
  latitudeCenter area - rlat <= 1 # 40 -> - (1 # 40) <= latitudeCenter area - rlat ->
  longitudeCenter area - rlng <= 1 # 40 -> - (1 # 40) <= longitudeCenter area - rlng ->
  encode (N := Exact.number) fuel (latitudeCenter area) (longitudeCenter area)
         (codeLength area)
  = Return (String a0 (String b0 (String a1 (String b1 (String a2 (String b2
              (String a3 (String b3 "+")))))))) ->
  recoverNearest (N := Exact.number) fuel (String a3 (String b3 "+")) rlat rlng
  = Return (String a0 (String b0 (String a1 (String b1 (String a2 (String b2
              (String a3 (String b3 "+")))))))).
Proof.
  intros A0 B0 A1 B1 A2 B2 A3 B3 D0 E0 vlat vlng Hdec L1 L2 N1 N2
         C1 C2 C3 C4 Henc.
  subst vlat vlng. digit_facts. first_facts.
  unfold recoverNearest. rewrite (isShort_pair a3 b3 A3 B3). cbn [negb]. cbv zeta.
  rewrite clipLatitude_exact by lra.
  rewrite normalizeLongitude_exact by lra. cbn [bind].
  assert (Hup : JsString.toUpperCase (String a3 (String b3 "+"))
                = String a3 (String b3 "+")).
  { cbn [JsString.toUpperCase]. now rewrite (alpha_upper a3 A3), (alpha_upper b3 B3). }
  rewrite Hup.
  assert (Hsep : JsString.indexOf (String a3 (String b3 "+")) SEPARATOR_ = 2%Z).
  { unfold SEPARATOR_. rewrite indexOf_char. cbn [find_char].
    now rewrite (alpha_not_sep a3 A3), (alpha_not_sep b3 B3). }
  rewrite Hsep.
  cbn [pow floor mul div sub add opp ltb of_Z Exact.number].
  change (Qpower (inject_Z 20) (2 - (SEPARATOR_POSITION_ - 2) / 2)) with (1 # 20).
  change ((1 # 20) / inject_Z 2) with (1 # 40).
  set (klat := (digit a0 * 400 + digit a1 * 20 + digit a2 - 1800)%Z).
  set (klng := (digit b0 * 400 + digit b1 * 20 + digit b2 - 3600)%Z).
  assert (Klat : inject_Z klat * (1 # 20)
                 == inject_Z (digit a0) * 20 + inject_Z (digit a1) * 1
                    + inject_Z (digit a2) * (1 # 20) - 90).
  { unfold klat, Z.sub. rewrite !inject_Z_plus, !inject_Z_mult.
    change (inject_Z 400) with 400. change (inject_Z 20) with 20.
    change (inject_Z (- (1800))) with (- (1800)). ring. }
  assert (Klng : inject_Z klng * (1 # 20)
                 == inject_Z (digit b0) * 20 + inject_Z (digit b1) * 1
                    + inject_Z (digit b2) * (1 # 20) - 180).
  { unfold klng, Z.sub. rewrite !inject_Z_plus, !inject_Z_mult.
    change (inject_Z 400) with 400. change (inject_Z 20) with 20.
    change (inject_Z (- (3600))) with (- (3600)). ring. }
  clearbody klat klng.
  rewrite (Qfloor_div_unique rlat (1 # 20) (1 # 20) klat);
    [|reflexivity|reflexivity|lra|lra].
  rewrite (Qfloor_div_unique rlng (1 # 20) (1 # 20) klng);
    [|reflexivity|reflexivity|lra|lra].
  change PAIR_CODE_LENGTH_ with 10%Z.
  rewrite (encode_10 fuel _ _ a0 b0 a1 b1 a2 b2 "2" "2" "2" "2");
    try assumption; try reflexivity;
    try (change (inject_Z (digit "2")) with 0; lra).
  cbn [bind].
  change (JsString.substringTo
            (String a0 (String b0 (String a1 (String b1 (String a2 (String b2
               "22+22"))))))
            (SEPARATOR_POSITION_ - 2))
    with (String a0 (String b0 (String a1 (String b1 (String a2 (String b2 "")))))).
  cbn [append]. rewrite Hdec. cbn [bind].
  rewrite (less_false _ _ C1), (less_false _ _ C2),
    (less_false _ _ C3), (less_false _ _ C4).
  exact Henc.
Qed.

Lemma substringFrom_8 (a0 b0 a1 b1 a2 b2 a3 b3 : ascii) (s : string) :
  JsString.substringFrom
    (String a0 (String b0 (String a1 (String b1 (String a2 (String b2
       (String a3 (String b3 s)))))))) 8
  = s.
Proof.
  unfold JsString.substringFrom. change (Z.to_nat 8) with 8%nat.
  cbn [String.substring String.length Nat.sub]. rewrite Nat.sub_0_r. apply substring_all.
Qed.

Lemma substringFrom_6 (a0 b0 a1 b1 a2 b2 : ascii) (s : string) :
  JsString.substringFrom
    (String a0 (String b0 (String a1 (String b1 (String a2 (String b2 s)))))) 6
  = s.
Proof.
  unfold JsString.substringFrom. change (Z.to_nat 6) with 6%nat.
  cbn [String.substring String.length Nat.sub]. rewrite Nat.sub_0_r. apply substring_all.
Qed.

Lemma range_lt (x y b : Q) :
  Qabs x < b -> Qabs y < b -> Exact.maximum (Qabs x) (Qabs y) < b.
Proof. intros Hx Hy. unfold Exact.maximum. now destruct (Qle_bool (Qabs x) (Qabs y)). Qed.

Lemma Qabs_lt_bounds (x b : Q) : Qabs x < b -> - b < x /\ x < b.
Proof. intros H. now apply Qabs_Qlt_condition. Qed.

Lemma Qabs_lt_intro (x b : Q) : - b < x -> x < b -> Qabs x < b.
Proof. intros H1 H2. apply Qabs_Qlt_condition. now split. Qed.

Ltac no_padding H :=
  exfalso; unfold PADDING_CHARACTER_ in H; rewrite indexOf_char in H;
  cbn [find_char] in H;
  repeat (rewrite alpha_not_pad in H by assumption);
  change (Ascii.eqb "0" "0") with true in H; cbv iota in H;
  cbn [option_map] in H; discriminate H.

(** A canonical full code without padding: its first eight digits, what
    follows the separator, and where its area lies. *)
Lemma unpadded_code_facts (c : string) (area : CodeArea (num := Q)) :
  isFull c = true -> canonical c = true ->
  JsString.indexOf c PADDING_CHARACTER_ = (-1)%Z ->
  decode (N := Exact.number) c = Return area ->
  exists a0 b0 a1 b1 a2 b2 a3 b3 rest,
    c = String a0 (String b0 (String a1 (String b1 (String a2 (String b2
          (String a3 (String b3 (String "+" rest)))))))) /\
    (alpha a0 /\ alpha b0 /\ alpha a1 /\ alpha b1 /\
     alpha a2 /\ alpha b2 /\ alpha a3 /\ alpha b3) /\
    digits rest /\ String.length rest <> 1%nat /\
    (digit a0 < 9)%Z /\ (digit b0 < 18)%Z /\
    inject_Z (digit a0) * 20 + inject_Z (digit a1) * 1
    + inject_Z (digit a2) * (1 # 20) + inject_Z (digit a3) * (1 # 400) - 90
    <= latitudeLo area /\
    latitudeHi area
    <= inject_Z (digit a0) * 20 + inject_Z (digit a1) * 1
       + inject_Z (digit a2) * (1 # 20) + inject_Z (digit a3) * (1 # 400) - 90
       + (1 # 400) /\
    inject_Z (digit b0) * 20 + inject_Z (digit b1) * 1
    + inject_Z (digit b2) * (1 # 20) + inject_Z (digit b3) * (1 # 400) - 180
    <= longitudeLo area /\
    longitudeHi area
    <= inject_Z (digit b0) * 20 + inject_Z (digit b1) * 1
       + inject_Z (digit b2) * (1 # 20) + inject_Z (digit b3) * (1 # 400) - 180
       + (1 # 400) /\
    (rest <> "" ->
     latitudeHi area - latitudeLo area <= 1 # 8000 /\
     longitudeHi area - longitudeLo area <= 1 # 8000) /\
    (8 <= codeLength area)%Z.
Proof.
  intros Hf Hc Hnp Hd. destruct (canonical_full_shape c Hf Hc)
    as [a0 b0 A0 B0
       |a0 b0 a1 b1 A0 B0 A1 B1
       |a0 b0 a1 b1 a2 b2 A0 B0 A1 B1 A2 B2
       |a0 b0 a1 b1 a2 b2 a3 b3 A0 B0 A1 B1 A2 B2 A3 B3
       |a0 b0 a1 b1 a2 b2 a3 b3 a4 b4 grid A0 B0 A1 B1 A2 B2 A3 B3 A4 B4 Hg].
  - no_padding Hnp.
  - no_padding Hnp.
  - no_padding Hnp.
  - destruct (first_digits _ a0 b0 _ Hf eq_refl A0 B0) as [D0 E0].
    rewrite (decode_8 a0 b0 a1 b1 a2 b2 a3 b3) in Hd by assumption.
    apply Return_inj in Hd. subst area.
    exists a0, b0, a1, b1, a2, b2, a3, b3, "".
    split; [reflexivity|]. split; [repeat split; assumption|].
    split; [reflexivity|]. split; [discriminate|].
    split; [exact D0|]. split; [exact E0|].
    cbn [newCodeArea latitudeLo latitudeHi longitudeLo longitudeHi codeLength].
    pair_setup. rewrite P0, P1, P2, P3.
    split; [lra|]. split; [lra|]. split; [lra|]. split; [lra|].
    split; [intros H'; now contradiction H'|lia].
  - destruct (first_digits _ a0 b0 _ Hf eq_refl A0 B0) as [D0 E0].
    exists a0, b0, a1, b1, a2, b2, a3, b3, (String a4 (String b4 grid)).
    split; [reflexivity|]. split; [repeat split; assumption|].
    split; [apply digits_cons; split; [assumption|]; apply digits_cons; now split|].
    split; [cbn [String.length]; lia|].
    split; [exact D0|]. split; [exact E0|].
    destruct grid as [|g grid].
    + rewrite (decode_10 a0 b0 a1 b1 a2 b2 a3 b3 a4 b4) in Hd by assumption.
      apply Return_inj in Hd. subst area.
      cbn [newCodeArea latitudeLo latitudeHi longitudeLo longitudeHi codeLength].
      pair_setup. rewrite P0, P1, P2, P3, P4.
      split; [lra|]. split; [lra|]. split; [lra|]. split; [lra|].
      split; [intros _; split; lra|lia].
    + destruct (decode_grid a0 b0 a1 b1 a2 b2 a3 b3 a4 b4 g grid)
        as [lo1 [lo2 [hi1 [hi2 [Hd' [H1 [H2 [H3 H4]]]]]]]]; try assumption.
      rewrite Hd' in Hd. apply Return_inj in Hd. subst area.
      cbn [newCodeArea latitudeLo latitudeHi longitudeLo longitudeHi codeLength].
      pose proof GS_value as G0.
      assert (Gpos : 0 < GS) by (rewrite G0; reflexivity).
      destruct (grid_lat_bounds _ GS Hg Gpos) as [GL1 GL2].
      destruct (grid_lng_bounds _ GS Hg Gpos) as [GN1 GN2].
      pose proof (grid_height_pos (String g grid) GS Gpos) as GH.
      pose proof (grid_width_pos (String g grid) GS Gpos) as GW.
      set (gl := grid_lat (String g grid) GS) in *.
      set (gn := grid_lng (String g grid) GS) in *.
      set (gh := grid_height (String g grid) GS) in *.
      set (gw := grid_width (String g grid) GS) in *.
      rewrite G0 in GL2, GN2. digit_facts.
      rewrite H1, H2, H3, H4.
      split; [lra|]. split; [lra|]. split; [lra|]. split; [lra|].
      split; [intros _; split; lra|lia].
Qed.

Lemma shorten_loop_exact (range : Q) (code : string) :
  shorten_loop (N := Exact.number) 5 3 range code
  = if Exact.less range (PR 3 * decimal (N := Exact.number) 3 10)
    then JsString.substringFrom code 8
    else if Exact.less range (PR 2 * decimal (N := Exact.number) 3 10)
         then JsString.substringFrom code 6
         else if Exact.less range (PR 1 * decimal (N := Exact.number) 3 10)
              then JsString.substringFrom code 4
              else code.
Proof. reflexivity. Qed.

Lemma threshold_3 : PR 3 * decimal (N := Exact.number) 3 10 == 3 # 4000.
Proof. rewrite PR_3. reflexivity. Qed.

Lemma threshold_2 : PR 2 * decimal (N := Exact.number) 3 10 == 3 # 200.
Proof. rewrite PR_2. reflexivity. Qed.

(** A canonical full code without padding, shortened and then recovered
    with a reference point less than half a cell away from the centre of its
    area in both axes, comes back whole. *)
Lemma recover_shorten_canonical (fuel : nat) (c : string) (area : CodeArea (num := Q))
      (rlat rlng : Q) :
  isFull c = true -> canonical c = true ->
  JsString.indexOf c PADDING_CHARACTER_ = (-1)%Z ->
  decode (N := Exact.number) c = Return area ->
  Qabs (latitudeCenter area - rlat) < (latitudeHi area - latitudeLo area) * (1 # 2) ->
  Qabs (longitudeCenter area - rlng) < (longitudeHi area - longitudeLo area) * (1 # 2) ->
  exists short,
    shorten (N := Exact.number) fuel c rlat rlng = Return short /\
    recoverNearest (N := Exact.number) fuel short rlat rlng = Return c.
Proof.
  intros Hf Hc Hnp Hd Hlat Hlng.
  destruct (canonical_code_cell c Hf Hc)
    as [area' [Hd' [S1 [S2 [S3 [S4 [C1 [C2 Hcell]]]]]]]].
  rewrite Hd in Hd'. apply Return_inj in Hd'. subst area'.
  destruct (unpadded_code_facts c area Hf Hc Hnp Hd)
    as [a0 [b0 [a1 [b1 [a2 [b2 [a3 [b3 [rest
       [Ec [[A0 [B0 [A1 [B1 [A2 [B2 [A3 B3]]]]]]]
       [Hrest [Hlen [D0 [E0 [L1 [L2 [N1 [N2 [Hsmall Hcl]]]]]]]]]]]]]]]]]]]].
  apply Qabs_lt_bounds in Hlat as [Hlat1 Hlat2].
  apply Qabs_lt_bounds in Hlng as [Hlng1 Hlng2].
  digit_facts. first_facts.
  assert (Hin : in_cell area rlat rlng).
  { unfold in_cell. rewrite C1 in Hlat1, Hlat2. rewrite C2 in Hlng1, Hlng2. lra. }
  assert (Henc : encode (N := Exact.number) fuel (latitudeCenter area)
                        (longitudeCenter area) (codeLength area) = Return c).
  { apply Hcell. unfold in_cell. rewrite C1, C2. lra. }
  destruct Hin as [I1 [I2 [I3 I4]]].
  (* what [shorten] computes *)
  assert (Hup : JsString.toUpperCase c = c).
  { apply andb_true_iff in Hc as [Hc _]. now apply String.eqb_eq. }
  assert (Hshort :
            shorten (N := Exact.number) fuel c rlat rlng
            = Return (shorten_loop (N := Exact.number) 5 3
                        (Exact.maximum (Qabs (latitudeCenter area - rlat))
                                       (Qabs (longitudeCenter area - rlng))) c)).
  { unfold shorten. rewrite Hf, Hnp. cbn [negb Z.eqb]. cbv zeta.
    rewrite Hup, Hd. cbn [bind].
    assert (E : (codeLength area <? MIN_TRIMMABLE_CODE_LEN_)%Z = false)
      by (apply Z.ltb_ge; unfold MIN_TRIMMABLE_CODE_LEN_; lia).
    rewrite E. rewrite clipLatitude_exact by lra.
    rewrite normalizeLongitude_exact by lra. reflexivity. }
  rewrite Hshort, shorten_loop_exact.
  pose proof threshold_3 as T3. pose proof threshold_2 as T2.
  assert (Hrange : Exact.maximum (Qabs (latitudeCenter area - rlat))
                                 (Qabs (longitudeCenter area - rlng)) < 1 # 800).
  { apply range_lt; apply Qabs_lt_intro; lra. }
  destruct (Exact.less _ (PR 3 * decimal 3 10)) eqn:E3.
  - (* eight characters removed *)
    exists (String "+" rest). subst c. split; [now rewrite substringFrom_8|].
    apply recover_plus with (area := area); try assumption; lra.
  - destruct rest as [|r rest].
    + (* six characters removed *)
      rewrite less_true by (rewrite T2; lra).
      exists (String a3 (String b3 "+")). subst c.
      split; [now rewrite substringFrom_6|].
      apply recover_pair with (area := area); try assumption; lra.
    + exfalso. destruct (Hsmall ltac:(discriminate)) as [Z1 Z2].
      rewrite less_true in E3; [discriminate|].
      rewrite T3. apply Qlt_trans with (1 # 8000); [|reflexivity].
      apply range_lt; apply Qabs_lt_intro; lra.
Qed.

(** In exact arithmetic a full code without padding, of at least
    [MIN_TRIMMABLE_CODE_LEN_] digits, shortened and then recovered with a
    reference point less than half a cell away from the centre of its area
    in both axes, comes back whole and in upper case. *)
Theorem recover_shorten_exact (fuel : nat) (c : string) (area : CodeArea (num := Q))
        (rlat rlng : Q) :
  isFull c = true ->
  JsString.indexOf c PADDING_CHARACTER_ = (-1)%Z ->
  decode (N := Exact.number) c = Return area ->
  (MIN_TRIMMABLE_CODE_LEN_ <= codeLength area)%Z ->
  Qabs (latitudeCenter area - rlat) < (latitudeHi area - latitudeLo area) * (1 # 2) ->
  Qabs (longitudeCenter area - rlng) < (longitudeHi area - longitudeLo area) * (1 # 2) ->
  exists short,
    shorten (N := Exact.number) fuel c rlat rlng = Return short /\
    recoverNearest (N := Exact.number) fuel short rlat rlng
    = Return (JsString.toUpperCase c).
Proof.
  intros Hf Hnp Hd _ Hlat Hlng.
  rewrite <- shorten_upper.
  apply recover_shorten_canonical with (area := area).
  - now rewrite isFull_upper.
  - apply canonical_upper, padding_to_separator_unpadded.
    now apply indexOf_absent.
  - now rewrite indexOf_upper_pad.
  - now rewrite decode_upper.
  - exact Hlat.
  - exact Hlng.
Qed.

(** *** The forms are full codes *)

Ltac scan :=
  unfold sep_char, pad_char;
  repeat first
    [ progress rewrite alpha_not_sep by assumption
    | progress rewrite alpha_not_pad by assumption
    | progress rewrite alpha_valid_char by assumption
    | progress literal_chars
    | progress cbv iota
    | progress cbn [find_char option_map JsString.last_index JsString.matchRuns
                    JsString.take_run JsString.drop_run JsString.replaceRun
                    all_chars andb] ].

Lemma isFull_intro (a0 b0 : ascii) (tail : string) :
  alpha a0 -> alpha b0 -> (digit a0 < 9)%Z -> (digit b0 < 18)%Z ->
  isValid (String a0 (String b0 tail)) = true ->
  JsString.indexOf (String a0 (String b0 tail)) SEPARATOR_ = 8%Z ->
  isFull (String a0 (String b0 tail)) = true.
Proof.
  intros A0 B0 D0 E0 Hv Hs. unfold isFull, isShort. rewrite Hv, Hs. cbn [negb].
  change ((8 >=? 0)%Z && (8 <? SEPARATOR_POSITION_)%Z) with false. cbv iota zeta.
  change (JsString.charAt (String a0 (String b0 tail)) 0) with (String a0 "").
  change (JsString.charAt (String a0 (String b0 tail)) 1) with (String b0 "").
  cbn [JsString.toUpperCase]. rewrite (alpha_upper a0 A0), (alpha_upper b0 B0).
  fold (digit a0). fold (digit b0). change ENCODING_BASE_ with 20%Z.
  unfold LATITUDE_MAX_, LONGITUDE_MAX_.
  assert (E1 : (digit a0 * 20 >=? 90 * 2)%Z = false)
    by (rewrite Z.geb_leb; apply Z.leb_gt; lia).
  assert (E2 : (digit b0 * 20 >=? 180 * 2)%Z = false)
    by (rewrite Z.geb_leb; apply Z.leb_gt; lia).
  rewrite E1, E2. now rewrite andb_false_r.
Qed.

Lemma isFull_2 (a0 b0 : ascii) :
  alpha a0 -> alpha b0 ->
  (digit a0 < 9)%Z -> (digit b0 < 18)%Z ->
  isFull (String a0 (String b0 "000000+")) = true.
Proof.
  intros A0 B0 D0 E0.
  assert (Hsep : JsString.indexOf (String a0 (String b0 "000000+")) SEPARATOR_ = 8%Z).
  { unfold SEPARATOR_. rewrite indexOf_char. scan. reflexivity. }
  assert (Hlast : JsString.lastIndexOf (String a0 (String b0 "000000+")) SEPARATOR_ = 8%Z) by reflexivity.
  assert (Hpad : JsString.indexOf (String a0 (String b0 "000000+")) PADDING_CHARACTER_ = 2%Z).
  { unfold PADDING_CHARACTER_. rewrite indexOf_char. scan. reflexivity. }
  assert (Hm : JsString.matchAll pad_char (String a0 (String b0 "000000+")) = ["000000"]).
  { unfold JsString.matchAll. cbn [String.length]. scan. reflexivity. }
  assert (Hrest : isValid_rest (String a0 (String b0 "000000+")) = true).
  { unfold isValid_rest. rewrite Hsep.
    change (JsString.length (String a0 (String b0 "000000+")) - 8 - 1 =? 1)%Z with false.
    cbv iota zeta. scan. rewrite all_code_chars_spec. scan. reflexivity. }
  apply isFull_intro; try assumption.
  unfold isValid. rewrite Hsep, Hlast, Hpad, Hm, Hrest. reflexivity.
Qed.

Lemma isFull_4 (a0 b0 a1 b1 : ascii) :
  alpha a0 -> alpha b0 -> alpha a1 -> alpha b1 ->
  (digit a0 < 9)%Z -> (digit b0 < 18)%Z ->
  isFull (String a0 (String b0 (String a1 (String b1 "0000+")))) = true.
Proof.
  intros A0 B0 A1 B1 D0 E0.
  assert (Hsep : JsString.indexOf (String a0 (String b0 (String a1 (String b1 "0000+")))) SEPARATOR_ = 8%Z).
  { unfold SEPARATOR_. rewrite indexOf_char. scan. reflexivity. }
  assert (Hlast : JsString.lastIndexOf (String a0 (String b0 (String a1 (String b1 "0000+")))) SEPARATOR_ = 8%Z) by reflexivity.
  assert (Hpad : JsString.indexOf (String a0 (String b0 (String a1 (String b1 "0000+")))) PADDING_CHARACTER_ = 4%Z).
  { unfold PADDING_CHARACTER_. rewrite indexOf_char. scan. reflexivity. }
  assert (Hm : JsString.matchAll pad_char (String a0 (String b0 (String a1 (String b1 "0000+")))) = ["0000"]).
  { unfold JsString.matchAll. cbn [String.length]. scan. reflexivity. }
  assert (Hrest : isValid_rest (String a0 (String b0 (String a1 (String b1 "0000+")))) = true).
  { unfold isValid_rest. rewrite Hsep.
    change (JsString.length (String a0 (String b0 (String a1 (String b1 "0000+")))) - 8 - 1 =? 1)%Z with false.
    cbv iota zeta. scan. rewrite all_code_chars_spec. scan. reflexivity. }
  apply isFull_intro; try assumption.
  unfold isValid. rewrite Hsep, Hlast, Hpad, Hm, Hrest. reflexivity.
Qed.

Lemma isFull_6 (a0 b0 a1 b1 a2 b2 : ascii) :
  alpha a0 -> alpha b0 -> alpha a1 -> alpha b1 -> alpha a2 -> alpha b2 ->
  (digit a0 < 9)%Z -> (digit b0 < 18)%Z ->
  isFull (String a0 (String b0 (String a1 (String b1 (String a2 (String b2 "00+")))))) = true.
Proof.
  intros A0 B0 A1 B1 A2 B2 D0 E0.
  assert (Hsep : JsString.indexOf (String a0 (String b0 (String a1 (String b1 (String a2 (String b2 "00+")))))) SEPARATOR_ = 8%Z).
  { unfold SEPARATOR_. rewrite indexOf_char. scan. reflexivity. }
  assert (Hlast : JsString.lastIndexOf (String a0 (String b0 (String a1 (String b1 (String a2 (String b2 "00+")))))) SEPARATOR_ = 8%Z) by reflexivity.
  assert (Hpad : JsString.indexOf (String a0 (String b0 (String a1 (String b1 (String a2 (String b2 "00+")))))) PADDING_CHARACTER_ = 6%Z).
  { unfold PADDING_CHARACTER_. rewrite indexOf_char. scan. reflexivity. }
  assert (Hm : JsString.matchAll pad_char (String a0 (String b0 (String a1 (String b1 (String a2 (String b2 "00+")))))) = ["00"]).
  { unfold JsString.matchAll. cbn [String.length]. scan. reflexivity. }
  assert (Hrest : isValid_rest (String a0 (String b0 (String a1 (String b1 (String a2 (String b2 "00+")))))) = true).
  { unfold isValid_rest. rewrite Hsep.
    change (JsString.length (String a0 (String b0 (String a1 (String b1 (String a2 (String b2 "00+")))))) - 8 - 1 =? 1)%Z with false.
    cbv iota zeta. scan. rewrite all_code_chars_spec. scan. reflexivity. }
  apply isFull_intro; try assumption.
  unfold isValid. rewrite Hsep, Hlast, Hpad, Hm, Hrest. reflexivity.
Qed.

Lemma isFull_8 (a0 b0 a1 b1 a2 b2 a3 b3 : ascii) (rest : string) :
  alpha a0 -> alpha b0 -> alpha a1 -> alpha b1 -> alpha a2 -> alpha b2 ->
  alpha a3 -> alpha b3 -> digits rest -> String.length rest <> 1%nat ->
  (digit a0 < 9)%Z -> (digit b0 < 18)%Z ->
  isFull (String a0 (String b0 (String a1 (String b1 (String a2 (String b2
            (String a3 (String b3 (String "+" rest))))))))) = true.
Proof.
  intros A0 B0 A1 B1 A2 B2 A3 B3 Hd Hlen D0 E0.
  set (code := String a0 (String b0 (String a1 (String b1 (String a2 (String b2
                 (String a3 (String b3 (String "+" rest))))))))).
  assert (Hsep : JsString.indexOf code SEPARATOR_ = 8%Z).
  { unfold SEPARATOR_, code. rewrite indexOf_char. scan. reflexivity. }
  assert (Hlast : JsString.lastIndexOf code SEPARATOR_ = 8%Z).
  { unfold JsString.lastIndexOf, SEPARATOR_, code. cbn [JsString.last_index].
    rewrite (digits_last_sep rest Hd), prefix_char. reflexivity. }
  assert (Hpad : JsString.indexOf code PADDING_CHARACTER_ = (-1)%Z).
  { unfold PADDING_CHARACTER_, code. rewrite indexOf_char. scan.
    now rewrite (digits_find_pad rest Hd). }
  assert (Hrest : isValid_rest code = true).
  { unfold isValid_rest. rewrite Hsep.
    assert (E : (JsString.length code - 8 - 1 =? 1)%Z = false).
    { apply Z.eqb_neq. unfold JsString.length, code. cbn [String.length]. lia. }
    rewrite E. cbv iota zeta. unfold code. scan.
    rewrite (digits_drop_run_sep rest Hd). scan.
    rewrite (digits_replaceRun_pad rest Hd), all_code_chars_spec. scan.
    now apply digits_valid. }
  apply isFull_intro; try assumption.
  fold code. unfold isValid. rewrite Hsep, Hlast, Hpad, Hrest. reflexivity.
Qed.

(** *** Every point has its digits *)

Lemma floor_split (x p : Q) (b : Z) :
  0 < p -> 0 <= x -> x < inject_Z b * p ->
  exists d, (0 <= d < b)%Z /\ inject_Z d * p <= x /\ x < inject_Z d * p + p.
Proof.
  intros Hp H0 Hb.
  destruct (Qfloor_div_bounds x p p (Qeq_refl p) Hp) as [F1 F2].
  set (d := Qfloor (x / p)) in *. exists d.
  assert (D1 : (0 <= d)%Z).
  { destruct (Z_lt_le_dec d 0) as [Hneg|]; [exfalso|assumption].
    assert (H1 : inject_Z d + 1 <= 0).
    { change 1 with (inject_Z 1). rewrite <- inject_Z_plus.
      change 0 with (inject_Z 0). rewrite <- Zle_Qle. lia. }
    assert (H2 : (inject_Z d + 1) * p <= 0 * p)
      by (apply Qmult_le_compat_r; [exact H1|lra]).
    lra. }
  assert (D2 : (d < b)%Z).
  { rewrite Zlt_Qlt. apply (Qmult_lt_r _ _ p Hp). lra. }
  split; [lia|]. split; [exact F1|]. lra.
Qed.

Lemma digit_split (x p : Q) (b : Z) :
  0 < p -> 0 <= x -> x < inject_Z b * p -> (b <= 20)%Z ->
  exists a, alpha a /\ (digit a < b)%Z /\
            inject_Z (digit a) * p <= x /\ x < inject_Z (digit a) * p + p.
Proof.
  intros Hp H0 Hb Hb20.
  destruct (floor_split x p b Hp H0 Hb) as [d [Hd [F1 F2]]].
  destruct (digit_char d ltac:(lia)) as [a [Ha [_ Ea]]].
  exists a. rewrite Ea. split; [exact Ha|]. split; [lia|]. split; assumption.
Qed.

(** The five pair digits of a coordinate, shifted to start at 0. *)
Lemma coordinate_digits (x : Q) (b : Z) :
  0 <= x -> x < inject_Z b * 20 -> (b <= 20)%Z ->
  exists a0 a1 a2 a3 a4,
    (alpha a0 /\ alpha a1 /\ alpha a2 /\ alpha a3 /\ alpha a4) /\
    (digit a0 < b)%Z /\
    (inject_Z (digit a0) * 20 <= x /\ x < inject_Z (digit a0) * 20 + 20) /\
    (inject_Z (digit a0) * 20 + inject_Z (digit a1) * 1 <= x /\
     x < inject_Z (digit a0) * 20 + inject_Z (digit a1) * 1 + 1) /\
    (inject_Z (digit a0) * 20 + inject_Z (digit a1) * 1
     + inject_Z (digit a2) * (1 # 20) <= x /\
     x < inject_Z (digit a0) * 20 + inject_Z (digit a1) * 1
         + inject_Z (digit a2) * (1 # 20) + (1 # 20)) /\
    (inject_Z (digit a0) * 20 + inject_Z (digit a1) * 1
     + inject_Z (digit a2) * (1 # 20) + inject_Z (digit a3) * (1 # 400) <= x /\
     x < inject_Z (digit a0) * 20 + inject_Z (digit a1) * 1
         + inject_Z (digit a2) * (1 # 20) + inject_Z (digit a3) * (1 # 400)
         + (1 # 400)) /\
    (inject_Z (digit a0) * 20 + inject_Z (digit a1) * 1
     + inject_Z (digit a2) * (1 # 20) + inject_Z (digit a3) * (1 # 400)
     + inject_Z (digit a4) * (1 # 8000) <= x /\
     x < inject_Z (digit a0) * 20 + inject_Z (digit a1) * 1
         + inject_Z (digit a2) * (1 # 20) + inject_Z (digit a3) * (1 # 400)
         + inject_Z (digit a4) * (1 # 8000) + (1 # 8000)).
Proof.
  intros H0 Hb Hb20.
  destruct (digit_split x 20 b) as [a0 [A0 [D0 [L0 U0]]]]; try lra; try assumption.
  destruct (digit_split (x - inject_Z (digit a0) * 20) 1 20)
    as [a1 [A1 [_ [L1 U1]]]]; try lra; try lia.
  { change (inject_Z 20) with 20. lra. }
  destruct (digit_split (x - inject_Z (digit a0) * 20 - inject_Z (digit a1) * 1)
                        (1 # 20) 20)
    as [a2 [A2 [_ [L2 U2]]]]; try lra; try lia.
  { change (inject_Z 20) with 20. lra. }
  destruct (digit_split (x - inject_Z (digit a0) * 20 - inject_Z (digit a1) * 1
                         - inject_Z (digit a2) * (1 # 20)) (1 # 400) 20)
    as [a3 [A3 [_ [L3 U3]]]]; try lra; try lia.
  { change (inject_Z 20) with 20. lra. }
  destruct (digit_split (x - inject_Z (digit a0) * 20 - inject_Z (digit a1) * 1
                         - inject_Z (digit a2) * (1 # 20)
                         - inject_Z (digit a3) * (1 # 400)) (1 # 8000) 20)
    as [a4 [A4 [_ [L4 U4]]]]; try lra; try lia.
  { change (inject_Z 20) with 20. lra. }
  exists a0, a1, a2, a3, a4.
  split; [repeat split; assumption|]. split; [exact D0|].
  repeat split; lra.
Qed.

(** The grid digits of a point of a pair cell. *)
Lemma grid_split (n : nat) (pl pn alat alng : Q) :
  0 < pl -> 0 < pn -> 0 <= alat -> alat < pl -> 0 <= alng -> alng < pn ->
  exists code,
    String.length code = n /\ digits code /\
    grid_lat code pl <= alat /\ alat < grid_lat code pl + grid_height code pl /\
    grid_lng code pn <= alng /\ alng < grid_lng code pn + grid_width code pn.
Proof.
  revert pl pn alat alng. induction n as [|n IH]; intros pl pn alat alng Hpl Hpn L0 L1 N0 N1.
  - exists "". cbn. repeat split; lra.
  - assert (Eql : pl / 5 * 5 == pl) by field.
    assert (Eqn : pn / 4 * 4 == pn) by field.
    set (ql := pl / 5) in *. set (qn := pn / 4) in *.
    assert (Hql : 0 < ql) by lra. assert (Hqn : 0 < qn) by lra.
    destruct (floor_split alat ql 5 Hql L0) as [row [Hrow [R1 R2]]].
    { change (inject_Z 5) with 5. lra. }
    destruct (floor_split alng qn 4 Hqn N0) as [col [Hcol [C1 C2]]].
    { change (inject_Z 4) with 4. lra. }
    destruct (digit_char (row * 4 + col) ltac:(lia)) as [c [Hc [_ Ec]]].
    assert (Erow : grid_row c = row).
    { unfold grid_row, GRID_COLUMNS_. rewrite Ec.
      rewrite Z.add_comm, Z.div_add by lia. rewrite Z.div_small by lia. lia. }
    assert (Ecol : grid_col c = col).
    { unfold grid_col, GRID_COLUMNS_. rewrite Ec.
      rewrite Z.rem_mod_nonneg by lia.
      rewrite Z.add_comm, Z.mod_add by lia. apply Z.mod_small. lia. }
    destruct (IH ql qn (alat - inject_Z row * ql) (alng - inject_Z col * qn))
      as [code [Hlen [Hd [G1 [G2 [G3 G4]]]]]]; try lra.
    exists (String c code).
    split; [cbn [String.length]; now rewrite Hlen|].
    split; [apply digits_cons; now split|].
    cbn [grid_lat grid_lng grid_height grid_width]. fold ql qn.
    rewrite Erow, Ecol. repeat split; lra.
Qed.

(** *** Nine digits asked *)

(** The loop of [encodePairs] writes ten digits when nine are asked. *)
Lemma encodePairs_loop_9 (x y : Q) (a0 b0 a1 b1 a2 b2 a3 b3 a4 b4 : ascii) :
  alpha a0 -> alpha b0 -> alpha a1 -> alpha b1 -> alpha a2 -> alpha b2 ->
  alpha a3 -> alpha b3 -> alpha a4 -> alpha b4 ->
  let vlat := inject_Z (digit a0) * 20 + inject_Z (digit a1) * 1
              + inject_Z (digit a2) * (1 # 20) + inject_Z (digit a3) * (1 # 400)
              + inject_Z (digit a4) * (1 # 8000) in
  let vlng := inject_Z (digit b0) * 20 + inject_Z (digit b1) * 1
              + inject_Z (digit b2) * (1 # 20) + inject_Z (digit b3) * (1 # 400)
              + inject_Z (digit b4) * (1 # 8000) in
  vlat <= x -> x < vlat + (1 # 8000) ->
  vlng <= y -> y < vlng + (1 # 8000) ->
  encodePairs_loop (N := Exact.number) 9 9 0 x y ""
  = String a0 (String b0 (String a1 (String b1 (String a2 (String b2
      (String a3 (String b3 (String "+" (String a4 (String b4 "")))))))))).
Proof.
  intros A0 B0 A1 B1 A2 B2 A3 B3 A4 B4 vlat vlng L1 L2 N1 N2. subst vlat vlng.
  pair_setup.
  pair_step a0 b0 0%Z 20 P0.
  pair_step a1 b1 1%Z 1 P1.
  pair_step a2 b2 2%Z (1 # 20) P2.
  pair_step a3 b3 3%Z (1 # 400) P3.
  pair_step a4 b4 4%Z (1 # 8000) P4.
  reflexivity.
Qed.

Lemma encode_9 (fuel : nat) (lat lng : Q) (a0 b0 a1 b1 a2 b2 a3 b3 a4 b4 : ascii) :
  alpha a0 -> alpha b0 -> alpha a1 -> alpha b1 -> alpha a2 -> alpha b2 ->
  alpha a3 -> alpha b3 -> alpha a4 -> alpha b4 ->
  (digit a0 < 9)%Z -> (digit b0 < 18)%Z ->
  inject_Z (digit a0) * 20 + inject_Z (digit a1) * 1 + inject_Z (digit a2) * (1 # 20)
  + inject_Z (digit a3) * (1 # 400) + inject_Z (digit a4) * (1 # 8000) <= lat + 90 ->
  lat + 90 < inject_Z (digit a0) * 20 + inject_Z (digit a1) * 1
             + inject_Z (digit a2) * (1 # 20) + inject_Z (digit a3) * (1 # 400)
             + inject_Z (digit a4) * (1 # 8000) + (1 # 8000) ->
  inject_Z (digit b0) * 20 + inject_Z (digit b1) * 1 + inject_Z (digit b2) * (1 # 20)
  + inject_Z (digit b3) * (1 # 400) + inject_Z (digit b4) * (1 # 8000) <= lng + 180 ->
  lng + 180 < inject_Z (digit b0) * 20 + inject_Z (digit b1) * 1
              + inject_Z (digit b2) * (1 # 20) + inject_Z (digit b3) * (1 # 400)
              + inject_Z (digit b4) * (1 # 8000) + (1 # 8000) ->
  encode (N := Exact.number) fuel lat lng 9
  = Return (String a0 (String b0 (String a1 (String b1 (String a2 (String b2
              (String a3 (String b3 (String "+" (String a4 (String b4 ""))))))))))).
Proof.
  intros A0 B0 A1 B1 A2 B2 A3 B3 A4 B4 D0 E0 L1 L2 N1 N2.
  digit_facts. first_facts.
  rewrite encode_exact; [|apply accepted_length; lia|lra|lra|lra|lra].
  change (9 >? PAIR_CODE_LENGTH_)%Z with false. cbv iota.
  change (Z.min 9 PAIR_CODE_LENGTH_) with 9%Z.
  unfold encodePairs. cbv zeta. cbn [add of_Z Exact.number]. q_consts.
  change (Z.to_nat 9) with 9%nat.
  rewrite (encodePairs_loop_9 (lat + 90) (lng + 180) a0 b0 a1 b1 a2 b2 a3 b3 a4 b4);
    try assumption; try lra.
  reflexivity.
Qed.

(** *** Encoding, then decoding *)

(** The five forms are canonical. *)
Lemma full_shape_canonical (c : string) : full_shape c -> canonical c = true.
Proof.
  intros H. unfold canonical. apply andb_true_iff.
  destruct H; split;
    repeat first
      [ progress rewrite alpha_upper by assumption
      | progress rewrite alpha_not_sep by assumption
      | progress rewrite alpha_not_pad by assumption
      | progress rewrite digits_upper by assumption
      | progress unfold sep_char, pad_char
      | progress cbn [JsString.toUpperCase padding_to_separator]
      | progress literal_chars
      | progress cbv iota ];
    try reflexivity; apply String.eqb_refl.
Qed.

(** A point in range is encoded to a full code, whose area contains it.
    At length 9 the code has ten digits. *)
Lemma encode_decode_in_range (fuel : nat) (lat lng : Q) (len : Z) :
  (len = 2 \/ len = 4 \/ len = 6 \/ len = 8 \/ 9 <= len)%Z ->
  -90 <= lat -> lat < 90 -> -180 <= lng -> lng < 180 ->
  exists code area,
    encode (N := Exact.number) fuel lat lng len = Return code /\
    isFull code = true /\
    decode (N := Exact.number) code = Return area /\
    in_cell area lat lng /\
    latitudeHi area <= 90 /\ longitudeHi area <= 180 /\
    codeLength area = (if (len =? 9)%Z then 10%Z else len) /\
    canonical code = true.
Proof.
  intros Hlen La Lb Na Nb.
  destruct (coordinate_digits (lat + 90) 9)
    as [a0 [a1 [a2 [a3 [a4 [[A0 [A1 [A2 [A3 A4]]]]
       [D0 [[X1 X1'] [[X2 X2'] [[X3 X3'] [[X4 X4'] [X5 X5']]]]]]]]]]]];
    [lra|change (inject_Z 9) with 9; lra|lia|].
  destruct (coordinate_digits (lng + 180) 18)
    as [b0 [b1 [b2 [b3 [b4 [[B0 [B1 [B2 [B3 B4]]]]
       [E0 [[Y1 Y1'] [[Y2 Y2'] [[Y3 Y3'] [[Y4 Y4'] [Y5 Y5']]]]]]]]]]]];
    [lra|change (inject_Z 18) with 18; lra|lia|].
  pair_setup. first_facts.
  destruct Hlen as [->|[->|[->|[->|Hlen]]]].
  - (* 2 digits *)
    assert (Hf : isFull (String a0 (String b0 "000000+")) = true)
      by (apply (isFull_2 a0 b0); assumption).
    exists (String a0 (String b0 "000000+")). eexists.
    split; [apply encode_2; assumption|]. split; [exact Hf|].
    split; [apply decode_2; assumption|].
    unfold in_cell.
    cbn [newCodeArea latitudeLo latitudeHi longitudeLo longitudeHi codeLength].
    rewrite ?P0, ?P1, ?P2, ?P3, ?P4.
    split; [split; [lra|split; [lra|split; lra]]|].
    split; [lra|]. split; [lra|]. split; [reflexivity|].
    apply full_shape_canonical. constructor; first [assumption|reflexivity].
  - (* 4 digits *)
    assert (Hf : isFull (String a0 (String b0 (String a1 (String b1 "0000+")))) = true)
      by (apply (isFull_4 a0 b0 a1 b1); assumption).
    exists (String a0 (String b0 (String a1 (String b1 "0000+")))). eexists.
    split; [apply encode_4; assumption|]. split; [exact Hf|].
    split; [apply decode_4; assumption|].
    unfold in_cell.
    cbn [newCodeArea latitudeLo latitudeHi longitudeLo longitudeHi codeLength].
    rewrite ?P0, ?P1, ?P2, ?P3, ?P4.
    split; [split; [lra|split; [lra|split; lra]]|].
    split; [lra|]. split; [lra|]. split; [reflexivity|].
    apply full_shape_canonical. constructor; first [assumption|reflexivity].
  - (* 6 digits *)
    assert (Hf : isFull (String a0 (String b0 (String a1 (String b1 (String a2 (String b2 "00+")))))) = true)
      by (apply (isFull_6 a0 b0 a1 b1 a2 b2); assumption).
    exists (String a0 (String b0 (String a1 (String b1 (String a2 (String b2 "00+")))))). eexists.
    split; [apply encode_6; assumption|]. split; [exact Hf|].
    split; [apply decode_6; assumption|].
    unfold in_cell.
    cbn [newCodeArea latitudeLo latitudeHi longitudeLo longitudeHi codeLength].
    rewrite ?P0, ?P1, ?P2, ?P3, ?P4.
    split; [split; [lra|split; [lra|split; lra]]|].
    split; [lra|]. split; [lra|]. split; [reflexivity|].
    apply full_shape_canonical. constructor; first [assumption|reflexivity].
  - (* 8 digits *)
    assert (Hf : isFull (String a0 (String b0 (String a1 (String b1 (String a2 (String b2 (String a3 (String b3 "+")))))))) = true)
      by (apply (isFull_8 a0 b0 a1 b1 a2 b2 a3 b3 ""); try assumption; [reflexivity|discriminate]).
    exists (String a0 (String b0 (String a1 (String b1 (String a2 (String b2 (String a3 (String b3 "+")))))))). eexists.
    split; [apply encode_8; assumption|]. split; [exact Hf|].
    split; [apply decode_8; assumption|].
    unfold in_cell.
    cbn [newCodeArea latitudeLo latitudeHi longitudeLo longitudeHi codeLength].
    rewrite ?P0, ?P1, ?P2, ?P3, ?P4.
    split; [split; [lra|split; [lra|split; lra]]|].
    split; [lra|]. split; [lra|]. split; [reflexivity|].
    apply full_shape_canonical. constructor; first [assumption|reflexivity].
  - assert (Hten : len = 9%Z \/ len = 10%Z \/ (11 <= len)%Z) by lia.
    destruct Hten as [->|[->|Hten]]; [| |].
    + (* nine digits asked, ten written *)
      assert (Hf : isFull (String a0 (String b0 (String a1 (String b1 (String a2
                     (String b2 (String a3 (String b3 (String "+" (String a4
                        (String b4 ""))))))))))) = true).
      { apply (isFull_8 a0 b0 a1 b1 a2 b2 a3 b3 (String a4 (String b4 "")));
          try assumption; [|discriminate].
        apply digits_cons; split; [assumption|]. apply digits_cons; now split. }
      exists (String a0 (String b0 (String a1 (String b1 (String a2 (String b2
                (String a3 (String b3 (String "+" (String a4 (String b4 ""))))))))))).
      eexists.
      split; [apply encode_9; assumption|]. split; [exact Hf|].
      split; [apply decode_10; assumption|].
      unfold in_cell.
      cbn [newCodeArea latitudeLo latitudeHi longitudeLo longitudeHi codeLength].
      rewrite ?P0, ?P1, ?P2, ?P3, ?P4.
      split; [split; [lra|split; [lra|split; lra]]|].
      split; [lra|]. split; [lra|]. split; [reflexivity|].
      apply full_shape_canonical. constructor; first [assumption|reflexivity].
    + (* ten digits *)
      assert (Hf : isFull (String a0 (String b0 (String a1 (String b1 (String a2
                     (String b2 (String a3 (String b3 (String "+" (String a4
                        (String b4 ""))))))))))) = true).
      { apply (isFull_8 a0 b0 a1 b1 a2 b2 a3 b3 (String a4 (String b4 "")));
          try assumption; [|discriminate].
        apply digits_cons; split; [assumption|]. apply digits_cons; now split. }
      exists (String a0 (String b0 (String a1 (String b1 (String a2 (String b2
                (String a3 (String b3 (String "+" (String a4 (String b4 ""))))))))))).
      eexists.
      split; [apply encode_10; assumption|]. split; [exact Hf|].
      split; [apply decode_10; assumption|].
      unfold in_cell.
      cbn [newCodeArea latitudeLo latitudeHi longitudeLo longitudeHi codeLength].
      rewrite ?P0, ?P1, ?P2, ?P3, ?P4.
      split; [split; [lra|split; [lra|split; lra]]|].
      split; [lra|]. split; [lra|]. split; [reflexivity|].
      apply full_shape_canonical. constructor; first [assumption|reflexivity].
    + (* ten digits and a grid string *)
      pose proof GS_value as G0.
      assert (Gpos : 0 < GS) by (rewrite G0; reflexivity).
      set (vlat := inject_Z (digit a0) * 20 + inject_Z (digit a1) * 1
                   + inject_Z (digit a2) * (1 # 20) + inject_Z (digit a3) * (1 # 400)
                   + inject_Z (digit a4) * (1 # 8000)) in *.
      set (vlng := inject_Z (digit b0) * 20 + inject_Z (digit b1) * 1
                   + inject_Z (digit b2) * (1 # 20) + inject_Z (digit b3) * (1 # 400)
                   + inject_Z (digit b4) * (1 # 8000)) in *.
      destruct (grid_split (Z.to_nat (len - 10)) GS GS (lat + 90 - vlat)
                           (lng + 180 - vlng))
        as [grid [Hn [Hg [G1 [G2 [G3 G4]]]]]]; try lra.
      destruct grid as [|g grid]; [cbn [String.length] in Hn; lia|].
      assert (Elen : len = (10 + Z.of_nat (String.length (String g grid)))%Z)
        by (rewrite Hn; lia).
      assert (Hf : isFull (String a0 (String b0 (String a1 (String b1 (String a2
                     (String b2 (String a3 (String b3 (String "+" (String a4
                        (String b4 (String g grid)))))))))))) = true).
      { apply (isFull_8 a0 b0 a1 b1 a2 b2 a3 b3
                 (String a4 (String b4 (String g grid)))); try assumption.
        - apply digits_cons; split; [assumption|]. apply digits_cons; now split.
        - cbn [String.length]. lia. }
      destruct (decode_grid a0 b0 a1 b1 a2 b2 a3 b3 a4 b4 g grid)
        as [lo1 [lo2 [hi1 [hi2 [Hd [K1 [K2 [K3 K4]]]]]]]]; try assumption.
      fold vlat vlng in K1, K2, K3, K4.
      destruct (grid_lat_bounds _ GS Hg Gpos) as [GL1 GL2].
      destruct (grid_lng_bounds _ GS Hg Gpos) as [GN1 GN2].
      set (gl := grid_lat (String g grid) GS) in *.
      set (gn := grid_lng (String g grid) GS) in *.
      set (gh := grid_height (String g grid) GS) in *.
      set (gw := grid_width (String g grid) GS) in *.
      exists (String a0 (String b0 (String a1 (String b1 (String a2 (String b2
                (String a3 (String b3 (String "+" (String a4 (String b4
                   (String g grid)))))))))))).
      eexists.
      split.
      { rewrite Elen. apply encode_grid; try assumption; try discriminate;
          fold vlat vlng gl gn gh gw; lra. }
      split; [exact Hf|]. split; [exact Hd|].
      unfold in_cell.
      cbn [newCodeArea latitudeLo latitudeHi longitudeLo longitudeHi codeLength].
      split; [split; [lra|split; [lra|split; lra]]|].
      unfold vlat, vlng in *.
      split; [lra|]. split; [lra|].
      assert (E9 : (len =? 9)%Z = false) by (apply Z.eqb_neq; lia).
      rewrite E9. split; [symmetry; exact Elen|].
      apply full_shape_canonical. constructor; first [assumption|reflexivity].
Qed.

(** *** Any longitude, and latitude 90 *)

Lemma less_inv (x y : Q) : Exact.less x y = true -> x < y.
Proof.
  unfold Exact.less. intros H. apply negb_true_iff in H.
  destruct (Qlt_le_dec x y) as [Hlt|Hle]; [exact Hlt|].
  apply Qle_bool_iff in Hle. congruence.
Qed.

Lemma less_false_inv (x y : Q) : Exact.less x y = false -> y <= x.
Proof.
  unfold Exact.less. intros H. apply negb_false_iff in H. now apply Qle_bool_iff.
Qed.

Lemma inject_succ (n : nat) :
  inject_Z (Z.of_nat (S n)) == inject_Z (Z.of_nat n) + 1.
Proof. rewrite Nat2Z.inj_succ. unfold Z.succ. now rewrite inject_Z_plus. Qed.

Lemma normalize_up_exact (fuel : nat) (lng : Q) :
  -180 - lng < 360 * inject_Z (Z.of_nat fuel) ->
  exists lng', normalize_up (N := Exact.number) fuel lng = Return lng' /\
               -180 <= lng' /\ (lng' < 180 \/ lng' = lng).
Proof.
  revert lng. induction fuel as [|fuel IH]; intros lng H.
  - cbn [normalize_up ltb of_Z Exact.number].
    change (inject_Z (Z.of_nat 0)) with 0 in H.
    rewrite (less_false lng (inject_Z (-180)))
      by (change (inject_Z (-180)) with (-180); lra).
    exists lng. split; [reflexivity|]. split; [lra|now right].
  - cbn [normalize_up ltb add of_Z Exact.number].
    rewrite inject_succ in H.
    destruct (Exact.less lng (inject_Z (-180))) eqn:E.
    + apply less_inv in E. change (inject_Z (-180)) with (-180) in E.
      destruct (IH (lng + inject_Z 360)) as [lng' [Hr [H1 H2]]].
      { change (inject_Z 360) with 360. lra. }
      exists lng'. split; [exact Hr|]. split; [exact H1|]. left.
      destruct H2 as [H2|H2]; [exact H2|]. rewrite H2.
      change (inject_Z 360) with 360. lra.
    + apply less_false_inv in E. change (inject_Z (-180)) with (-180) in E.
      exists lng. split; [reflexivity|]. split; [exact E|now right].
Qed.

Lemma normalize_down_exact (fuel : nat) (lng : Q) :
  -180 <= lng -> lng - 180 < 360 * inject_Z (Z.of_nat fuel) ->
  exists lng', normalize_down (N := Exact.number) fuel lng = Return lng' /\
               -180 <= lng' /\ lng' < 180.
Proof.
  revert lng. induction fuel as [|fuel IH]; intros lng H0 H.
  - cbn [normalize_down leb of_Z Exact.number].
    change (inject_Z (Z.of_nat 0)) with 0 in H.
    rewrite (Qle_bool_false (inject_Z 180) lng)
      by (change (inject_Z 180) with 180; lra).
    exists lng. split; [reflexivity|]. split; lra.
  - cbn [normalize_down leb sub of_Z Exact.number].
    rewrite inject_succ in H.
    destruct (Qle_bool (inject_Z 180) lng) eqn:E.
    + apply Qle_bool_iff in E. change (inject_Z 180) with 180 in E.
      apply IH; change (inject_Z 360) with 360; lra.
    + assert (Hlt : lng < 180).
      { destruct (Qlt_le_dec lng 180) as [Hlt|Hle]; [exact Hlt|].
        apply Qle_bool_iff in Hle. change (inject_Z 180) with 180 in E. congruence. }
      exists lng. split; [reflexivity|]. split; lra.
Qed.

(** With enough fuel, [normalizeLongitude] returns a longitude in range. *)
Lemma normalizeLongitude_total (fuel : nat) (lng : Q) :
  Qabs lng < 360 * inject_Z (Z.of_nat fuel) ->
  exists lng', normalizeLongitude (N := Exact.number) fuel lng = Return lng' /\
               -180 <= lng' /\ lng' < 180.
Proof.
  intros H. apply Qabs_lt_bounds in H as [H1 H2].
  destruct (normalize_up_exact fuel lng) as [lng1 [Hup [U1 U2]]]; [lra|].
  destruct (normalize_down_exact fuel lng1 U1) as [lng' [Hdown [D1 D2]]].
  { destruct U2 as [U2|U2]; [|rewrite U2]; lra. }
  exists lng'. unfold normalizeLongitude. rewrite Hup. cbn [bind].
  split; [exact Hdown|]. split; assumption.
Qed.

(** The shift of latitude 90 is positive, and no more than a cell of two
    digits. *)
Lemma precision_exact (len : Z) :
  (2 <= len)%Z ->
  0 < computeLatitudePrecision (N := Exact.number) len /\
  computeLatitudePrecision (N := Exact.number) len <= 20.
Proof.
  intros Hlen. unfold computeLatitudePrecision.
  destruct (len <=? 10)%Z eqn:E.
  - apply Z.leb_le in E.
    assert (H : (len = 2 \/ len = 3 \/ len = 4 \/ len = 5 \/ len = 6 \/ len = 7 \/
                 len = 8 \/ len = 9 \/ len = 10)%Z) by lia.
    repeat (destruct H as [H|H]; [subst len; split; [reflexivity|discriminate]|]).
    subst len; split; [reflexivity|discriminate].
  - apply Z.leb_gt in E. cbn [pow div of_Z Exact.number].
    assert (H1 : 1 <= inject_Z GRID_ROWS_ ^ (len - 10)).
    { apply Qpower_1_le; [discriminate|lia]. }
    assert (H20 : inject_Z 20 ^ (-3) == 1 # 8000) by reflexivity.
    set (q := inject_Z GRID_ROWS_ ^ (len - 10)) in *. rewrite H20.
    split.
    + apply Qlt_shift_div_l; lra.
    + apply Qle_shift_div_r; lra.
Qed.

Lemma Qle_bool_cases (x y : Q) :
  (Qle_bool x y = true /\ x <= y) \/ (Qle_bool x y = false /\ y < x).
Proof.
  destruct (Qle_bool x y) eqn:E.
  - left. split; [reflexivity|]. now apply Qle_bool_iff.
  - right. split; [reflexivity|]. apply Qnot_le_lt. intros H.
    apply Qle_bool_iff in H. congruence.
Qed.

(** [clipLatitude] gives 90, -90 or the latitude itself. *)
Lemma clipLatitude_cases (lat : Q) :
  (90 <= lat /\ clipLatitude (N := Exact.number) lat = inject_Z 90) \/
  (lat < -90 /\ clipLatitude (N := Exact.number) lat = inject_Z (-90)) \/
  (-90 <= lat /\ lat < 90 /\ clipLatitude (N := Exact.number) lat = lat).
Proof.
  unfold clipLatitude. cbn [min max of_Z Exact.number].
  unfold Exact.minimum, Exact.maximum.
  destruct (Qle_bool_cases (inject_Z (-90)) lat) as [[E1 H1]|[E1 H1]]; rewrite E1.
  - destruct (Qle_bool_cases (inject_Z 90) lat) as [[E2 H2]|[E2 H2]]; rewrite E2.
    + left. split; [exact H2|reflexivity].
    + right. right. split; [exact H1|]. split; [exact H2|reflexivity].
  - right. left. split; [exact H1|]. reflexivity.
Qed.

(** At any latitude: [encode] works on the clipped latitude, shifted down
    from 90. *)
Lemma encode_decode_clipped (fuel : nat) (lat lng : Q) (len : Z) :
  ~ rejected_length len ->
  Qabs lng < 360 * inject_Z (Z.of_nat fuel) ->
  exists lat' lng' code area,
    normalizeLongitude (N := Exact.number) fuel lng = Return lng' /\
    lat' = (if Qeq_bool (clipLatitude (N := Exact.number) lat) 90
            then 90 - computeLatitudePrecision (N := Exact.number) len
            else clipLatitude (N := Exact.number) lat) /\
    encode (N := Exact.number) fuel lat lng len = Return code /\
    isFull code = true /\
    decode (N := Exact.number) code = Return area /\
    in_cell area lat' lng' /\
    latitudeHi area <= 90 /\ longitudeHi area <= 180 /\
    codeLength area = (if (len =? 9)%Z then 10%Z else len) /\
    canonical code = true.
Proof.
  intros Hacc Hfuel.
  assert (Hcases : (len = 2 \/ len = 4 \/ len = 6 \/ len = 8 \/ 9 <= len)%Z).
  { assert (H : (len < 2 \/ len = 2 \/ len = 3 \/ len = 4 \/ len = 5 \/ len = 6 \/
                 len = 7 \/ 8 <= len)%Z) by lia.
    destruct H as [H|[H|[H|[H|[H|[H|[H|H]]]]]]]; try lia;
      exfalso; apply Hacc; unfold rejected_length;
      first [left; lia|right; split; [lia|subst len; reflexivity]]. }
  destruct (normalizeLongitude_total fuel lng Hfuel) as [lng' [Hn [N1 N2]]].
  destruct (precision_exact len ltac:(lia)) as [Pp Pl].
  set (prec := computeLatitudePrecision (N := Exact.number) len) in *.
  set (clat := clipLatitude (N := Exact.number) lat).
  set (lat' := if Qeq_bool clat 90 then 90 - prec else clat).
  assert (Hlat' : -90 <= lat' /\ lat' < 90 /\
                  (if Qeq_bool clat (inject_Z 90) then clat - prec else clat) = lat').
  { unfold lat', clat.
    destruct (clipLatitude_cases lat) as [[H1 ->]|[[H1 ->]|[H1 [H2 ->]]]].
    - change (Qeq_bool (inject_Z 90) 90) with true.
      change (Qeq_bool (inject_Z 90) (inject_Z 90)) with true. cbv iota.
      split; [lra|]. split; [lra|reflexivity].
    - change (Qeq_bool (inject_Z (-90)) 90) with false.
      change (Qeq_bool (inject_Z (-90)) (inject_Z 90)) with false. cbv iota.
      split; [discriminate|]. split; [reflexivity|reflexivity].
    - change (inject_Z 90) with 90.
      rewrite (Qeq_bool_false lat 90) by lra.
      split; [exact H1|]. split; [exact H2|reflexivity]. }
  destruct Hlat' as [La' [Lb' Eshift]].
  assert (Henc : encode (N := Exact.number) fuel lat lng len
                 = encode (N := Exact.number) 0 lat' lng' len).
  { rewrite !encode_accepted by assumption. cbv zeta.
    rewrite Hn, (clipLatitude_exact lat'), (normalizeLongitude_exact 0 lng')
      by assumption.
    cbn [bind eqb sub of_Z Exact.number].
    assert (E' : Qeq_bool lat' (inject_Z 90) = false).
    { apply Qeq_bool_false. change (inject_Z 90) with 90. lra. }
    rewrite E'. fold clat. fold prec. now rewrite Eshift. }
  destruct (encode_decode_in_range 0 lat' lng' len Hcases La' Lb' N1 N2)
    as [code [area [He [Hf [Hd [Hin [Hhi [Hhi' [Hcl Hcan]]]]]]]]].
  exists lat', lng', code, area.
  split; [exact Hn|]. split; [reflexivity|]. split; [now rewrite Henc|].
  split; [exact Hf|]. split; [exact Hd|]. split; [exact Hin|].
  split; [exact Hhi|]. split; [exact Hhi'|]. split; [exact Hcl|exact Hcan].
Qed.

(** What the algorithm does in exact arithmetic: for every latitude from
    -90 to 90, every longitude and every length [encode] accepts, [encode]
    returns a full code; [decode] returns its area, which contains the
    latitude (at 90, shifted down by [computeLatitudePrecision]) and the
    normalized longitude, and ends at latitude 90 at most.  The failures at
    latitude 90 in binary64 come from rounding alone. *)
Theorem encode_decode_exact (fuel : nat) (lat lng : Q) (len : Z) :
  ~ rejected_length len ->
  -90 <= lat -> lat <= 90 ->
  Qabs lng < 360 * inject_Z (Z.of_nat fuel) ->
  exists lng' code area,
    normalizeLongitude (N := Exact.number) fuel lng = Return lng' /\
    encode (N := Exact.number) fuel lat lng len = Return code /\
    isFull code = true /\
    decode (N := Exact.number) code = Return area /\
    in_cell area
            (if Qeq_bool lat 90
             then 90 - computeLatitudePrecision (N := Exact.number) len
             else lat) lng' /\
    latitudeHi area <= 90 /\
    codeLength area = (if (len =? 9)%Z then 10%Z else len).
Proof.
  intros Hacc La Lb Hfuel.
  destruct (encode_decode_clipped fuel lat lng len Hacc Hfuel)
    as [lat' [lng' [code [area [Hn [Elat [He [Hf [Hd [Hin [Hhi [_ [Hcl _]]]]]]]]]]]]].
  exists lng', code, area.
  split; [exact Hn|]. split; [exact He|]. split; [exact Hf|]. split; [exact Hd|].
  split; [|split; [exact Hhi|exact Hcl]].
  assert (E : (if Qeq_bool lat 90
               then 90 - computeLatitudePrecision (N := Exact.number) len
               else lat) = lat'); [|now rewrite E].
  rewrite Elat.
  destruct (clipLatitude_cases lat) as [[H1 ->]|[[H1 _]|[H1 [H2 ->]]]].
  - change (Qeq_bool (inject_Z 90) 90) with true. cbv iota.
    assert (E90 : Qeq_bool lat 90 = true) by (apply Qeq_bool_iff; lra).
    now rewrite E90.
  - exfalso. lra.
  - reflexivity.
Qed.

Transparent PAIR_RESOLUTIONS_at GRID_SIZE_DEGREES_.

End ExactCodes.

Lemma decode_center_reencodes_witness :
  exists area,
    decode (N := Exact.number) "7FG49Q00+" = Return area /\
    encode (N := Exact.number) 0 (latitudeCenter area) (longitudeCenter area)
           (codeLength area) = Return "7FG49Q00+".
Proof.
  apply (decode_center_reencodes 0 "7FG49Q00+"); reflexivity.
Defined.


(** In binary64 the digits beyond the precision of a double are not
    reproduced either. *)
Lemma long_code_not_reproduced :
  isFull "8FVC2222+22GCCCCCCCCCCCCCCCCCCC" = true /\
  canonical "8FVC2222+22GCCCCCCCCCCCCCCCCCCC" = true /\
  bind (decode (N := Float64.number) "8FVC2222+22GCCCCCCCCCCCCCCCCCCC")
       (fun area => encode (N := Float64.number) 0 (latitudeCenter area)
                           (longitudeCenter area) (codeLength area))
  = Return "8FVC2222+22GCCCCCCCCCCCCCRRFR57".
Proof. vm_compute. repeat split. Qed.

Lemma recover_shorten_exact_witness :
  exists short,
    shorten (N := Exact.number) 0 "9c3w9qcj+2vx"
            (513701125 # 10000000) (-1217765625 # 1000000000) = Return short /\
    recoverNearest (N := Exact.number) 0 short
            (513701125 # 10000000) (-1217765625 # 1000000000) = Return "9C3W9QCJ+2VX".
Proof.
  eapply (recover_shorten_exact 0 "9c3w9qcj+2vx" _
            (513701125 # 10000000) (-1217765625 # 1000000000)).
  - reflexivity.
  - reflexivity.
  - vm_compute. reflexivity.
  - vm_compute. discriminate.
  - vm_compute. reflexivity.
  - vm_compute. reflexivity.
Defined.

(** A full code in lower case is shortened and recovered in upper case. *)
Lemma recover_shorten_lower_case :
  isFull "9c3w9qcj+2vx" = true /\
  JsString.indexOf "9c3w9qcj+2vx" PADDING_CHARACTER_ = -1 /\
  exists area,
    decode (N := Float64.number) "9c3w9qcj+2vx" = Return area /\
    MIN_TRIMMABLE_CODE_LEN_ <= codeLength area /\
    bind (shorten (N := Float64.number) 0 "9c3w9qcj+2vx"
                  (latitudeCenter area) (longitudeCenter area))
         (fun short => recoverNearest (N := Float64.number) 0 short
                         (latitudeCenter area) (longitudeCenter area))
    = Return "9C3W9QCJ+2VX".
Proof.
  split; [reflexivity|]. split; [reflexivity|].
  eexists. split; [vm_compute; reflexivity|].
  split; [vm_compute; discriminate|]. vm_compute. reflexivity.
Qed.

(** In binary64 a code of thirty digits, in upper case, is not recovered
    either: the digits beyond the precision of a double are lost. *)
Lemma recover_shorten_long_code :
  isFull "8FVC2222+22GCCCCCCCCCCCCCCCCCCC" = true /\
  canonical "8FVC2222+22GCCCCCCCCCCCCCCCCCCC" = true /\
  exists area,
    decode (N := Float64.number) "8FVC2222+22GCCCCCCCCCCCCCCCCCCC" = Return area /\
    bind (shorten (N := Float64.number) 0 "8FVC2222+22GCCCCCCCCCCCCCCCCCCC"
                  (latitudeCenter area) (longitudeCenter area))
         (fun short => recoverNearest (N := Float64.number) 0 short
                         (latitudeCenter area) (longitudeCenter area))
    = Return "8FVC2222+22GCCCCCCCCCCCCCRRFR57".
Proof.
  split; [reflexivity|]. split; [reflexivity|].
  eexists. split; [vm_compute; reflexivity|]. vm_compute. reflexivity.
Qed.

(** At latitude 90 and length 25, where binary64 loses the shift of the
    latitude, exact arithmetic gives a full code, whose area ends at
    latitude 90. *)
Example encode_exact_90_length_25 :
  encode (N := Exact.number) 0 90%Q 0%Q 25 = Return "CFX2X2X2+X2RRRRRRRRRRRRRRR" /\
  isFull "CFX2X2X2+X2RRRRRRRRRRRRRRR" = true /\
  exists area,
    decode (N := Exact.number) "CFX2X2X2+X2RRRRRRRRRRRRRRR" = Return area /\
    (latitudeHi area == 90)%Q.
Proof.
  split; [vm_compute; reflexivity|]. split; [reflexivity|].
  eexists. split; [vm_compute; reflexivity|]. vm_compute. reflexivity.
Qed.

Lemma encode_decode_exact_witness :
  exists lng' code area,
    normalizeLongitude (N := Exact.number) 1 0%Q = Return lng' /\
    encode (N := Exact.number) 1 90%Q 0%Q 25 = Return code /\
    isFull code = true /\
    decode (N := Exact.number) code = Return area /\
    in_cell area (90 - computeLatitudePrecision (N := Exact.number) 25)%Q lng' /\
    (latitudeHi area <= 90)%Q /\
    codeLength area = 25.
Proof.
  apply (encode_decode_exact 1 90%Q 0%Q 25).
  - unfold rejected_length. lia.
  - discriminate.
  - discriminate.
  - reflexivity.
Defined.

(** In binary64, at the centre of the cell of these codes, the round trips
    come out. *)
Example decode_center_reencodes_binary64 :
  bind (decode (N := Float64.number) "7FG49Q00+")
       (fun area => encode (N := Float64.number) 0 (latitudeCenter area)
                           (longitudeCenter area) (codeLength area))
  = Return "7FG49Q00+" /\
  bind (decode (N := Float64.number) "9C3W9QCJ+2VX")
       (fun area => encode (N := Float64.number) 0 (latitudeCenter area)
                           (longitudeCenter area) (codeLength area))
  = Return "9C3W9QCJ+2VX".
Proof. vm_compute. split; reflexivity. Qed.

Example recover_shorten_binary64 :
  bind (decode (N := Float64.number) "9C3W9QCJ+2VX")
       (fun area =>
          bind (shorten (N := Float64.number) 0 "9C3W9QCJ+2VX"
                        (latitudeCenter area) (longitudeCenter area))
               (fun short => recoverNearest (N := Float64.number) 0 short
                               (latitudeCenter area) (longitudeCenter area)))
  = Return "9C3W9QCJ+2VX".
Proof. vm_compute. reflexivity. Qed.

(** * Pair codes in binary64 *)

(** ** Rounding a quotient down to a digit *)











(** ** The round trip of pair codes *)


Section NormalizedLongitude.

Context {num : Type} {N : Number num}.



End NormalizedLongitude.

Module AxisFacts.

Import AxisCheck.



Lemma all_rest_spec (n : nat) (tbl : list entry) :
  forall p : list entry -> bool,
    all_rest n tbl p = true ->
    forall es, List.length es = n -> Forall (fun e => In e tbl) es -> p es = true.
Proof.
  induction n as [|n IH]; intros p H es Hlen Hin.
  - destruct es; [exact H|discriminate].
  - destruct es as [|e es]; [discriminate|].
    inversion Hin as [|? ? He Hes]; subst.
    cbn [all_rest] in H. rewrite forallb_forall in H.
    apply (IH (fun es => p (e :: es))); [now apply H|now injection Hlen|exact Hes].
Qed.

Lemma all_codes_spec (first rest : list entry) (k : nat) (p : list entry -> bool) :
  all_codes first rest k p = true ->
  forall e es, In e first -> List.length es = k ->
               Forall (fun e => In e rest) es -> p (e :: es) = true.
Proof.
  unfold all_codes. intros H e es He Hlen Hin. rewrite forallb_forall in H.
  exact (all_rest_spec k rest _ (H e He) es Hlen Hin).
Qed.

Lemma in_table (n : nat) (d : Z) :
  0 <= d < Z.of_nat n -> In (entry_of d) (table n).
Proof.
  intros H. unfold table. apply in_map_iff. exists (Z.to_nat d).
  split; [now rewrite Z2Nat.id by lia|]. apply in_seq. lia.
Qed.




Ltac f64_ops :=
  change (@floor float Float64.number) with Float64.round_down in *;
  change (@toInteger float Float64.number) with Float64.to_index in *;
  change (@div float Float64.number) with PrimFloat.div in *;
  change (@sub float Float64.number) with PrimFloat.sub in *;
  change (@add float Float64.number) with PrimFloat.add in *;
  change (@mul float Float64.number) with PrimFloat.mul in *;
  change (@min float Float64.number) with Float64.minimum in *;
  change (@max float Float64.number) with Float64.maximum in *;
  change (@ltb float Float64.number) with PrimFloat.ltb in *;
  change (@leb float Float64.number) with PrimFloat.leb in *;
  change (@eqb float Float64.number) with PrimFloat.eqb in *;
  change (@of_Z float Float64.number) with Float64.from_Z in *.



Lemma latitude_area_checked (k : nat) (e : entry) (es : list entry) :
  (k <= 4)%nat -> In e (table 9) -> List.length es = k ->
  Forall (fun e => In e (table 20)) es ->
  axis_area (resolutions 0 (S k))
            (PAIR_RESOLUTIONS_at (N := Float64.number) (Z.of_nat k))
            (Float64.from_Z 0) (Float64.from_Z 2) (Float64.from_Z 90)
            (Float64.from_Z (-90)) (e :: es) = true.
Proof.
  intros Hk He Hlen Hes.
  assert (C0 : latitude_areas 0 = true) by (vm_compute; reflexivity).
  assert (C1 : latitude_areas 1 = true) by (vm_compute; reflexivity).
  assert (C2 : latitude_areas 2 = true) by (vm_compute; reflexivity).
  assert (C3 : latitude_areas 3 = true) by (vm_compute; reflexivity).
  assert (C4 : latitude_areas 4 = true) by (vm_compute; reflexivity).
  assert (C : latitude_areas k = true).
  { destruct k as [|[|[|[|[|k]]]]]; [exact C0|exact C1|exact C2|exact C3|exact C4|lia]. }
  clear C0 C1 C2 C3 C4. unfold latitude_areas in C. cbv zeta in C.
  exact (all_codes_spec _ _ _ _ C e es He Hlen Hes).
Qed.

Lemma longitude_area_checked (k : nat) (e : entry) (es : list entry) :
  (k <= 4)%nat -> In e (table 18) -> List.length es = k ->
  Forall (fun e => In e (table 20)) es ->
  axis_area (resolutions 0 (S k))
            (PAIR_RESOLUTIONS_at (N := Float64.number) (Z.of_nat k))
            (Float64.from_Z 0) (Float64.from_Z 2) (Float64.from_Z 180)
            (Float64.from_Z (-180)) (e :: es) = true.
Proof.
  intros Hk He Hlen Hes.
  assert (C0 : longitude_areas 0 = true) by (vm_compute; reflexivity).
  assert (C1 : longitude_areas 1 = true) by (vm_compute; reflexivity).
  assert (C2 : longitude_areas 2 = true) by (vm_compute; reflexivity).
  assert (C3 : longitude_areas 3 = true) by (vm_compute; reflexivity).
  assert (C4 : longitude_areas 4 = true) by (vm_compute; reflexivity).
  assert (C : longitude_areas k = true).
  { destruct k as [|[|[|[|[|k]]]]]; [exact C0|exact C1|exact C2|exact C3|exact C4|lia]. }
  clear C0 C1 C2 C3 C4. unfold longitude_areas in C. cbv zeta in C.
  exact (all_codes_spec _ _ _ _ C e es He Hlen Hes).
Qed.




(** The area of [k + 1] pairs of digits lies on the globe and has its centre
    inside. *)
Lemma pairs_area (k : nat) (el eg : entry) (esl esg : list entry) :
  (k <= 4)%nat -> In el (table 9) -> In eg (table 18) ->
  List.length esl = k -> List.length esg = k ->
  Forall (fun e => In e (table 20)) esl -> Forall (fun e => In e (table 20)) esg ->
  let area := area_of k (el :: esl) (eg :: esg) in
  ((Float64.from_Z (-90) <=? latitudeLo area)%float = true /\
   (latitudeLo area <? latitudeCenter area)%float = true /\
   (latitudeCenter area <? latitudeHi area)%float = true /\
   (latitudeHi area <=? Float64.from_Z 90)%float = true) /\
  ((Float64.from_Z (-180) <=? longitudeLo area)%float = true /\
   (longitudeLo area <? longitudeCenter area)%float = true /\
   (longitudeCenter area <? longitudeHi area)%float = true /\
   (longitudeHi area <=? Float64.from_Z 180)%float = true).
Proof.
  intros Hk Hel Heg Ll Lg Fl Fg area.
  pose proof (latitude_area_checked k el esl Hk Hel Ll Fl) as CL.
  pose proof (longitude_area_checked k eg esg Hk Heg Lg Fg) as CG.
  unfold axis_area in CL, CG. cbv zeta in CL, CG.
  rewrite !andb_true_iff in CL, CG.
  destruct CL as [[[L1 L2] L3] L4]. destruct CG as [[[G1 G2] G3] G4].
  subst area. unfold area_of. cbv zeta.
  cbn [newCodeArea latitudeLo latitudeHi longitudeLo longitudeHi
       latitudeCenter longitudeCenter].
  unfold LATITUDE_MAX_, LONGITUDE_MAX_. f64_ops. tauto.
Qed.

Ltac table_facts :=
  repeat match goal with
  | |- Forall _ [] => constructor
  | |- Forall _ (_ :: _) => constructor
  | |- In (entry_of (digit ?a)) (table ?n) =>
      apply in_table;
      match goal with
      | A : alpha a |- _ =>
          pose proof (alpha_digit_range a A); cbn [Z.of_nat Pos.of_succ_nat Pos.succ]; lia
      end
  end.

Ltac pair_shape Hf strip_lemma :=
  split; [lia|]; split; [table_facts|]; split; [table_facts|];
  split; [reflexivity|]; split; [reflexivity|];
  split; [table_facts|]; split; [table_facts|];
  split;
  [ unfold decode; rewrite Hf; cbn [negb]; cbv zeta;
    rewrite !strip_lemma by assumption; reflexivity
  | cbn [pairs_text entry_of]; cbv zeta;
    rewrite !alpha_charAt by assumption; reflexivity ].

End AxisFacts.

Import AxisCheck AxisFacts.

(** A canonical full code of at most eleven characters is a pair code:
    [decode] returns the area of its digits, and the digits written by
    [encodePairs] are the code. *)
Lemma pair_code_digits (c : string) :
  isFull c = true -> canonical c = true -> JsString.length c <= 11 ->
  exists (k : nat) (el eg : entry) (esl esg : list entry),
    (k <= 4)%nat /\ In el (table 9) /\ In eg (table 18) /\
    List.length esl = k /\ List.length esg = k /\
    Forall (fun e => In e (table 20)) esl /\ Forall (fun e => In e (table 20)) esg /\
    decode (N := Float64.number) c = Return (area_of k (el :: esl) (eg :: esg)) /\
    pad_code (pairs_text (2 * Z.of_nat (S k)) 0 (el :: esl) (eg :: esg) "") = c.
Proof.
  intros Hf Hc Hlen.
  destruct (canonical_full_shape c Hf Hc)
    as [a0 b0 A0 B0|a0 b0 a1 b1 A0 B0 A1 B1|a0 b0 a1 b1 a2 b2 A0 B0 A1 B1 A2 B2
        |a0 b0 a1 b1 a2 b2 a3 b3 A0 B0 A1 B1 A2 B2 A3 B3
        |a0 b0 a1 b1 a2 b2 a3 b3 a4 b4 grid A0 B0 A1 B1 A2 B2 A3 B3 A4 B4 G];
    destruct (first_digits _ a0 b0 _ Hf eq_refl A0 B0) as [D0 E0].
  - exists 0%nat, (entry_of (digit a0)), (entry_of (digit b0)), [], [].
    pair_shape Hf strip_2.
  - exists 1%nat, (entry_of (digit a0)), (entry_of (digit b0)),
      [entry_of (digit a1)], [entry_of (digit b1)].
    pair_shape Hf strip_4.
  - exists 2%nat, (entry_of (digit a0)), (entry_of (digit b0)),
      [entry_of (digit a1); entry_of (digit a2)],
      [entry_of (digit b1); entry_of (digit b2)].
    pair_shape Hf strip_6.
  - exists 3%nat, (entry_of (digit a0)), (entry_of (digit b0)),
      [entry_of (digit a1); entry_of (digit a2); entry_of (digit a3)],
      [entry_of (digit b1); entry_of (digit b2); entry_of (digit b3)].
    pair_shape Hf strip_8.
  - destruct grid as [|g grid].
    + exists 4%nat, (entry_of (digit a0)), (entry_of (digit b0)),
        [entry_of (digit a1); entry_of (digit a2); entry_of (digit a3);
         entry_of (digit a4)],
        [entry_of (digit b1); entry_of (digit b2); entry_of (digit b3);
         entry_of (digit b4)].
      pair_shape Hf strip_10.
    + exfalso. unfold JsString.length in Hlen. cbn [String.length] in Hlen. lia.
Qed.



(** X11: In binary64 the area [decode] returns for a canonical full code of at
    most ten digits lies on the globe, and its centre lies inside it: from
    south to north, -90, the lower edge, the centre, the upper edge and 90
    follow each other, and likewise from west to east between -180 and
    180. *)
Theorem pair_code_area (c : string) :
  isFull c = true -> canonical c = true -> JsString.length c <= 11 ->
  exists area,
    decode (N := Float64.number) c = Return area /\
    ((Float64.from_Z (-90) <=? latitudeLo area)%float = true /\
     (latitudeLo area <? latitudeCenter area)%float = true /\
     (latitudeCenter area <? latitudeHi area)%float = true /\
     (latitudeHi area <=? Float64.from_Z 90)%float = true) /\
    ((Float64.from_Z (-180) <=? longitudeLo area)%float = true /\
     (longitudeLo area <? longitudeCenter area)%float = true /\
     (longitudeCenter area <? longitudeHi area)%float = true /\
     (longitudeHi area <=? Float64.from_Z 180)%float = true).
Proof.
  intros Hf Hc Hlen.
  destruct (pair_code_digits c Hf Hc Hlen)
    as [k [el [eg [esl [esg [Hk [Hel [Heg [Ll [Lg [Fl [Fg [Hd _]]]]]]]]]]]]].
  exists (area_of k (el :: esl) (eg :: esg)). split; [exact Hd|].
  exact (pairs_area k el eg esl esg Hk Hel Heg Ll Lg Fl Fg).
Qed.

Lemma pair_code_area_witness :
  exists area,
    decode (N := Float64.number) "7FG49Q22+" = Return area /\
    ((Float64.from_Z (-90) <=? latitudeLo area)%float = true /\
     (latitudeLo area <? latitudeCenter area)%float = true /\
     (latitudeCenter area <? latitudeHi area)%float = true /\
     (latitudeHi area <=? Float64.from_Z 90)%float = true) /\
    ((Float64.from_Z (-180) <=? longitudeLo area)%float = true /\
     (longitudeLo area <? longitudeCenter area)%float = true /\
     (longitudeCenter area <? longitudeHi area)%float = true /\
     (longitudeHi area <=? Float64.from_Z 180)%float = true).
Proof.
  apply (pair_code_area "7FG49Q22+"); [reflexivity|reflexivity|].
  vm_compute. discriminate.
Defined.

(** In binary64 a canonical code of 23 digits is not reproduced: its last
    digit is lost to rounding. *)
Lemma code_of_23_digits_not_reproduced :
  isFull "9487XG8C+5M392G96R2F4QQP" = true /\
  canonical "9487XG8C+5M392G96R2F4QQP" = true /\
  bind (decode (N := Float64.number) "9487XG8C+5M392G96R2F4QQP")
       (fun area => encode (N := Float64.number) 0 (latitudeCenter area)
                           (longitudeCenter area) (codeLength area))
  = Return "9487XG8C+5M392G96R2F4QQG".
Proof. vm_compute. repeat split. Qed.

(** ** Shortening and recovering in binary64 *)

(** C3 fails in the program at the code ["7FG49Q22+"] and the reference
    point (20.349999999999998, 2.7500000000000004), which lies in the
    decoded area, less than half a cell (0.00125 degrees) from its centre in
    both axes.  [shorten] returns ["22+"].  [recoverNearest] rounds the
    reference down to the multiples 20.3 and 2.75 of the resolution 0.05 and
    encodes them; in binary64 the third digit of the latitude comes out as
    ['7'] instead of ['8'], so the candidate is ["7FG47Q22+"], two cells too
    low, and moving it by one resolution gives ["7FG48Q22+"]. *)
Lemma recover_shorten_not_recovered :
  isFull "7FG49Q22+" = true /\
  JsString.indexOf "7FG49Q22+" PADDING_CHARACTER_ = -1 /\
  exists area,
    decode (N := Float64.number) "7FG49Q22+" = Return area /\
    MIN_TRIMMABLE_CODE_LEN_ <= codeLength area /\
    (latitudeLo area <=? 0x1.4599999999999p+4)%float = true /\
    (0x1.4599999999999p+4 <? latitudeHi area)%float = true /\
    (longitudeLo area <=? 0x1.6000000000001p+1)%float = true /\
    (0x1.6000000000001p+1 <? longitudeHi area)%float = true /\
    (Qabs (exact_value (latitudeCenter area) - exact_value 0x1.4599999999999p+4)
     < (25 # 10000) / 2)%Q /\
    (Qabs (exact_value (longitudeCenter area) - exact_value 0x1.6000000000001p+1)
     < (25 # 10000) / 2)%Q /\
    shorten (N := Float64.number) 0 "7FG49Q22+"
            0x1.4599999999999p+4%float 0x1.6000000000001p+1%float
    = Return "22+" /\
    encode (N := Float64.number) 0
           (Float64.round_down (0x1.4599999999999p+4 / f64 5 100) * f64 5 100)%float
           (Float64.round_down (0x1.6000000000001p+1 / f64 5 100) * f64 5 100)%float
           PAIR_CODE_LENGTH_
    = Return "7FG47QX2+X2" /\
    recoverNearest (N := Float64.number) 0 "22+"
                   0x1.4599999999999p+4%float 0x1.6000000000001p+1%float
    = Return "7FG48Q22+".
Proof.
  split; [reflexivity|]. split; [reflexivity|].
  eexists. split; [vm_compute; reflexivity|].
  split; [vm_compute; discriminate|].
  repeat (split; [vm_compute; reflexivity|]).
  vm_compute. reflexivity.
Qed.

(** * Further properties of the codec *)

(** ** The case of the letters *)

(** X3: On a string of ASCII characters the validators do not look at the
    case of the letters. *)
Theorem validators_ignore_case (code : string) :
  ascii_string code ->
  isValid (JsString.toUpperCase code) = isValid code /\
  isShort (JsString.toUpperCase code) = isShort code /\
  isFull (JsString.toUpperCase code) = isFull code.
Proof.
  intros _.
  split; [apply isValid_upper|]. split; [apply isShort_upper|apply isFull_upper].
Qed.

Lemma validators_ignore_case_witness :
  isValid (JsString.toUpperCase "9c3w9qcj+2vx") = isValid "9c3w9qcj+2vx" /\
  isShort (JsString.toUpperCase "9c3w9qcj+2vx") = isShort "9c3w9qcj+2vx" /\
  isFull (JsString.toUpperCase "9c3w9qcj+2vx") = isFull "9c3w9qcj+2vx".
Proof. apply (validators_ignore_case "9c3w9qcj+2vx"). reflexivity. Defined.

Section CaseOfCodes.

Context {num : Type} {N : Number num}.

Lemma recoverNearest_upper (fuel : nat) (code : string) (lat lng : num) :
  isShort code = true ->
  recoverNearest fuel (JsString.toUpperCase code) lat lng
  = recoverNearest fuel code lat lng.
Proof.
  intros Hs. unfold recoverNearest.
  rewrite isShort_upper, Hs, toUpperCase_idem. reflexivity.
Qed.

(** X4: [decode] and [shorten] read a code of ASCII characters as they read its
    upper case, and so does [recoverNearest] a short code. *)
Theorem codec_ignores_case (fuel : nat) (code : string) (lat lng : num) :
  ascii_string code ->
  decode (JsString.toUpperCase code) = decode code /\
  shorten fuel (JsString.toUpperCase code) lat lng = shorten fuel code lat lng /\
  (isShort code = true ->
   recoverNearest fuel (JsString.toUpperCase code) lat lng
   = recoverNearest fuel code lat lng).
Proof.
  intros _.
  split; [apply decode_upper|]. split; [apply shorten_upper|apply recoverNearest_upper].
Qed.

End CaseOfCodes.

Lemma codec_ignores_case_witness :
  decode (N := Float64.number) (JsString.toUpperCase "9c3w9qcj+2vx")
  = decode (N := Float64.number) "9c3w9qcj+2vx" /\
  shorten (N := Float64.number) 0 (JsString.toUpperCase "9c3w9qcj+2vx")
          (f64 513701125 10000000) (f64 (-1217765625) 1000000000)
  = shorten (N := Float64.number) 0 "9c3w9qcj+2vx"
            (f64 513701125 10000000) (f64 (-1217765625) 1000000000) /\
  (isShort "9c3w9qcj+2vx" = true ->
   recoverNearest (N := Float64.number) 0 (JsString.toUpperCase "9c3w9qcj+2vx")
                  (f64 513701125 10000000) (f64 (-1217765625) 1000000000)
   = recoverNearest (N := Float64.number) 0 "9c3w9qcj+2vx"
                    (f64 513701125 10000000) (f64 (-1217765625) 1000000000)).
Proof.
  apply (codec_ignores_case (N := Float64.number) 0 "9c3w9qcj+2vx"). reflexivity.
Defined.

(** ** The form of a valid code *)

Section ValidCodes.

Lemma rem_2_even (z : Z) : 0 <= z -> Z.rem z 2 <> 1 -> Z.even z = true.
Proof.
  intros H0 H. rewrite Z.rem_mod_nonneg in H by lia.
  rewrite Zeven_mod. apply Z.eqb_eq.
  pose proof (Z.mod_pos_bound z 2 ltac:(lia)). lia.
Qed.

Lemma matchRuns_nil (fuel : nat) (c : ascii) (s : string) :
  (String.length s <= fuel)%nat -> JsString.matchRuns fuel c s = [] ->
  mem_char c s = false.
Proof.
  revert fuel. induction s as [|a s IH]; intros fuel Hf; [reflexivity|].
  destruct fuel as [|fuel]; [cbn in Hf; lia|].
  cbn [mem_char JsString.matchRuns]. destruct (Ascii.eqb a c); [discriminate|].
  cbn [orb]. apply IH. cbn in Hf. lia.
Qed.

Lemma matchRuns_head (fuel : nat) (c : ascii) (s run : string) (l : list string) :
  JsString.matchRuns fuel c s = run :: l -> (0 < String.length run)%nat.
Proof.
  revert fuel. induction s as [|a s IH]; intros fuel; destruct fuel as [|fuel];
    try discriminate.
  cbn [JsString.matchRuns]. destruct (Ascii.eqb a c) eqn:E.
  - intros H. injection H as H _. subst run.
    cbn [JsString.take_run]. rewrite E. cbn [String.length]. lia.
  - apply IH.
Qed.

Lemma isShort_by_separator (code : string) :
  isValid code = true ->
  isShort code = (JsString.indexOf code SEPARATOR_ <? SEPARATOR_POSITION_).
Proof.
  intros Hv. destruct (isValid_facts code Hv) as [_ [[H0 H8] _]].
  unfold isShort. rewrite Hv. cbn [negb].
  assert (E : (JsString.indexOf code SEPARATOR_ >=? 0) = true)
    by (rewrite Z.geb_leb; apply Z.leb_le; lia).
  rewrite E. cbn [andb]. now destruct (_ <? _).
Qed.

Lemma isFull_separator (code : string) :
  isFull code = true -> JsString.indexOf code SEPARATOR_ = SEPARATOR_POSITION_.
Proof.
  intros Hf. pose proof (isFull_valid code Hf) as Hv.
  destruct (isValid_facts code Hv) as [_ [[H0 H8] _]].
  pose proof (isFull_not_short code Hf) as Hn.
  rewrite (isShort_by_separator code Hv) in Hn. apply Z.ltb_ge in Hn.
  unfold SEPARATOR_POSITION_ in *. lia.
Qed.

Lemma first_digit_test (c : ascii) :
  alphabet_char c = true ->
  (JsString.indexOf CODE_ALPHABET_ (String c "") * ENCODING_BASE_ >=? LATITUDE_MAX_ * 2)
  = negb (mem_char c "23456789C").
Proof. destruct c as [[|] [|] [|] [|] [|] [|] [|] [|]]; vm_compute; congruence. Qed.

Lemma second_digit_test (c : ascii) :
  alphabet_char c = true ->
  (JsString.indexOf CODE_ALPHABET_ (String c "") * ENCODING_BASE_ >=? LONGITUDE_MAX_ * 2)
  = negb (mem_char c "23456789CFGHJMPQRV").
Proof. destruct c as [[|] [|] [|] [|] [|] [|] [|] [|]]; vm_compute; congruence. Qed.

Lemma upper_not_pad (c : ascii) :
  mem_char (JsString.upper c) CODE_ALPHABET_ = true -> c <> pad_char.
Proof. intros H ->. discriminate H. Qed.

(** X2: Among the valid codes the short ones have their separator before
    position 8 and all others have it at position 8.  Such a code is full
    when its first character is one of [23456789C] (a latitude below 180
    degrees from the south pole) and its second one of [23456789CFGHJMPQRV]
    (a longitude below 360 degrees), in either case -- or when its second
    character is the padding character, which the test of the longitude
    lets through. *)
Theorem short_and_full_codes (code : string) :
  isValid code = true ->
  (isShort code = true <-> JsString.indexOf code SEPARATOR_ < SEPARATOR_POSITION_) /\
  (isShort code = false <-> JsString.indexOf code SEPARATOR_ = SEPARATOR_POSITION_) /\
  (isFull code = true <->
   JsString.indexOf code SEPARATOR_ = SEPARATOR_POSITION_ /\
   exists c0 c1 rest,
     code = String c0 (String c1 rest) /\
     mem_char (JsString.upper c0) "23456789C" = true /\
     (c1 = pad_char \/ mem_char (JsString.upper c1) "23456789CFGHJMPQRV" = true)).
Proof.
  intros Hv. destruct (isValid_facts code Hv) as [_ [[H0 H8] [Hpad _]]].
  pose proof (isShort_by_separator code Hv) as Hs.
  unfold SEPARATOR_POSITION_ in *.
  split; [rewrite Hs; apply Z.ltb_lt|].
  split; [rewrite Hs, Z.ltb_ge; lia|].
  assert (Hform : JsString.indexOf code SEPARATOR_ = 8 ->
                  exists c0 c1 rest,
                    code = String c0 (String c1 rest) /\
                    mem_char (JsString.upper c0) CODE_ALPHABET_ = true /\
                    (c1 = pad_char \/ mem_char (JsString.upper c1) CODE_ALPHABET_ = true)).
  { intros E8.
    destruct code as [|c0 [|c1 rest]]; [discriminate Hv| |].
    - exfalso. revert E8. unfold SEPARATOR_. rewrite indexOf_char.
      cbn [find_char]. destruct (Ascii.eqb c0 "+"); discriminate.
    - exists c0, c1, rest. split; [reflexivity|].
      assert (Hn0 : c0 <> sep_char).
      { intros ->. discriminate E8. }
      assert (Hn1 : c1 <> sep_char).
      { intros ->. revert E8. unfold SEPARATOR_. rewrite indexOf_char.
        cbn [find_char]. fold sep_char.
        destruct (Ascii.eqb c0 sep_char); [discriminate|].
        rewrite Ascii.eqb_refl. discriminate. }
      assert (Hp0 : c0 <> pad_char).
      { intros ->. destruct Hpad as [Hp _]; [|now apply Hp]. reflexivity. }
      split.
      + destruct (isValid_chars _ c0 Hv) as [H|[H|H]];
          [cbn [mem_char]; now rewrite Ascii.eqb_refl|contradiction|contradiction|exact H].
      + destruct (isValid_chars _ c1 Hv) as [H|[H|H]];
          [cbn [mem_char]; rewrite Ascii.eqb_refl; now rewrite orb_true_r
          |contradiction|now left|now right]. }
  assert (Hfull : forall c0 c1 rest,
             code = String c0 (String c1 rest) ->
             JsString.indexOf code SEPARATOR_ = 8 ->
             isFull code
             = negb (JsString.indexOf CODE_ALPHABET_ (String (JsString.upper c0) "")
                     * ENCODING_BASE_ >=? LATITUDE_MAX_ * 2)
               && negb (JsString.indexOf CODE_ALPHABET_ (String (JsString.upper c1) "")
                        * ENCODING_BASE_ >=? LONGITUDE_MAX_ * 2)).
  { intros c0 c1 rest Ec E8. unfold isFull. rewrite Hv, Hs, E8. cbn [negb Z.ltb Z.compare].
    cbv zeta. subst code.
    change (JsString.toUpperCase (JsString.charAt (String c0 (String c1 rest)) 0))
      with (String (JsString.upper c0) "").
    change (JsString.toUpperCase (JsString.charAt (String c0 (String c1 rest)) 1))
      with (String (JsString.upper c1) "").
    assert (El : (JsString.length (String c0 (String c1 rest)) >? 1) = true).
    { rewrite Z.gtb_ltb. apply Z.ltb_lt. unfold JsString.length.
      cbn [String.length]. lia. }
    rewrite El. cbn [andb].
    destruct (_ >=? LATITUDE_MAX_ * 2); [reflexivity|].
    now destruct (_ >=? LONGITUDE_MAX_ * 2). }
  split.
  - intros Hf. pose proof (isFull_separator code Hf) as E8.
    unfold SEPARATOR_POSITION_ in E8. split; [exact E8|].
    destruct (Hform E8) as [c0 [c1 [rest [Ec [Hc0 Hc1]]]]].
    exists c0, c1, rest. split; [exact Ec|].
    rewrite (Hfull c0 c1 rest Ec E8) in Hf. apply andb_true_iff in Hf as [F0 F1].
    rewrite (first_digit_test _ Hc0), negb_involutive in F0.
    split; [exact F0|].
    destruct Hc1 as [Hc1|Hc1]; [now left|right].
    now rewrite (second_digit_test _ Hc1), negb_involutive in F1.
  - intros [E8 [c0 [c1 [rest [Ec [F0 F1]]]]]].
    destruct (Hform E8) as [d0 [d1 [rest' [Ec' [Hc0 Hc1]]]]].
    rewrite Ec in Ec'. injection Ec' as <- <- <-.
    rewrite (Hfull c0 c1 rest Ec E8).
    rewrite (first_digit_test _ Hc0), F0. cbn [negb andb].
    destruct Hc1 as [-> | Hc1]; [reflexivity|].
    rewrite (second_digit_test _ Hc1).
    destruct F1 as [-> | F1]; [discriminate Hc1|]. now rewrite F1.
Qed.

Lemma short_and_full_codes_witness :
  (isShort "9C3W9QCJ+2VX" = true <->
   JsString.indexOf "9C3W9QCJ+2VX" SEPARATOR_ < SEPARATOR_POSITION_) /\
  (isShort "9C3W9QCJ+2VX" = false <->
   JsString.indexOf "9C3W9QCJ+2VX" SEPARATOR_ = SEPARATOR_POSITION_) /\
  (isFull "9C3W9QCJ+2VX" = true <->
   JsString.indexOf "9C3W9QCJ+2VX" SEPARATOR_ = SEPARATOR_POSITION_ /\
   exists c0 c1 rest,
     "9C3W9QCJ+2VX" = String c0 (String c1 rest) /\
     mem_char (JsString.upper c0) "23456789C" = true /\
     (c1 = pad_char \/ mem_char (JsString.upper c1) "23456789CFGHJMPQRV" = true)).
Proof. apply (short_and_full_codes "9C3W9QCJ+2VX"). reflexivity. Defined.

End ValidCodes.

(** ** The codes [isValid] accepts *)

Section Grammar.

Lemma letter_cases (x : ascii) :
  letter x = true ->
  Ascii.eqb x sep_char = false /\ Ascii.eqb x pad_char = false /\ valid_char x = true.
Proof.
  intros H. destruct x as [[] [] [] [] [] [] [] []]; vm_compute in H;
    try discriminate H; repeat split.
Qed.

Lemma letters_cons (c : ascii) (s : string) :
  letters (String c s) <-> letter c = true /\ letters s.
Proof. unfold letters. simpl. apply andb_true_iff. Qed.

Lemma letters_app (s t : string) : letters (s ++ t) <-> letters s /\ letters t.
Proof. unfold letters. rewrite all_chars_app. apply andb_true_iff. Qed.

Lemma letters_absent (x : ascii) (s : string) :
  letter x = false -> letters s -> mem_char x s = false.
Proof.
  intros Hx Hs. destruct (mem_char x s) eqn:E; [|reflexivity].
  unfold letters in Hs. rewrite all_chars_forall in Hs. apply Hs in E. congruence.
Qed.

Lemma letters_no_sep (s : string) : letters s -> mem_char sep_char s = false.
Proof. now apply letters_absent. Qed.

Lemma letters_no_pad (s : string) : letters s -> mem_char pad_char s = false.
Proof. now apply letters_absent. Qed.

Lemma letters_valid (s : string) : letters s -> all_chars valid_char s = true.
Proof.
  apply all_chars_weaken. intros c Hc. now apply letter_cases in Hc.
Qed.

Lemma mem_char_app (x : ascii) (s t : string) :
  mem_char x (s ++ t) = mem_char x s || mem_char x t.
Proof. induction s as [|a s IH]; [reflexivity|]. simpl. now rewrite IH, orb_assoc. Qed.

Lemma mem_char_repeat (x c : ascii) (n : nat) :
  Ascii.eqb c x = false -> mem_char x (JsString.repeat c n) = false.
Proof. intros H. induction n as [|n IH]; [reflexivity|]. simpl. now rewrite H. Qed.

Lemma length_repeat (c : ascii) (n : nat) : String.length (JsString.repeat c n) = n.
Proof. induction n as [|n IH]; [reflexivity|]. simpl. now rewrite IH. Qed.

Lemma find_char_app (x : ascii) (w rest : string) :
  mem_char x w = false -> find_char x (w ++ String x rest) = Some (String.length w).
Proof.
  induction w as [|a w IH]; simpl.
  - intros _. now rewrite Ascii.eqb_refl.
  - intros H. apply orb_false_iff in H as [H1 H2]. now rewrite H1, (IH H2).
Qed.

Lemma find_char_absent (x : ascii) (s : string) :
  mem_char x s = false -> find_char x s = None.
Proof. rewrite find_char_mem. now destruct (find_char x s). Qed.

Lemma last_index_absent (x : ascii) (s : string) :
  mem_char x s = false -> JsString.last_index (String x "") s = None.
Proof.
  induction s as [|a s IH]; [reflexivity|]. simpl mem_char. intros H.
  apply orb_false_iff in H as [H1 H2]. cbn [JsString.last_index].
  now rewrite (IH H2), prefix_char, H1.
Qed.

Lemma last_index_unique (x : ascii) (w rest : string) :
  mem_char x rest = false ->
  JsString.last_index (String x "") (w ++ String x rest) = Some (String.length w).
Proof.
  intros H. replace (String.length w) with (String.length w + 0)%nat by lia.
  apply last_index_app. cbn [JsString.last_index].
  now rewrite (last_index_absent x rest H), prefix_char, Ascii.eqb_refl.
Qed.

Lemma matchRuns_absent (fuel : nat) (c : ascii) (s : string) :
  mem_char c s = false -> JsString.matchRuns fuel c s = [].
Proof.
  revert fuel. induction s as [|a s IH]; intros fuel H; destruct fuel as [|fuel];
    try reflexivity.
  simpl in H. apply orb_false_iff in H as [H1 H2].
  cbn [JsString.matchRuns]. rewrite H1. now apply IH.
Qed.

Lemma matchRuns_skip (fuel : nat) (c : ascii) (pre s : string) :
  mem_char c pre = false ->
  JsString.matchRuns (String.length pre + fuel) c (pre ++ s) = JsString.matchRuns fuel c s.
Proof.
  induction pre as [|a pre IH]; [reflexivity|]. simpl mem_char. intros H.
  apply orb_false_iff in H as [H1 H2].
  cbn [String.length Nat.add append JsString.matchRuns]. rewrite H1. now apply IH.
Qed.

Lemma take_run_repeat (c : ascii) (n : nat) (s : string) :
  mem_char c (String.substring 0 1 s) = false ->
  JsString.take_run c (JsString.repeat c n ++ s) = JsString.repeat c n.
Proof.
  intros H. induction n as [|n IH].
  - destruct s as [|a s]; [reflexivity|]. cbn in H |- *.
    apply orb_false_iff in H as [H _]. now rewrite H.
  - cbn [JsString.repeat append JsString.take_run]. now rewrite Ascii.eqb_refl, IH.
Qed.

Lemma drop_run_repeat (c : ascii) (n : nat) (s : string) :
  mem_char c (String.substring 0 1 s) = false ->
  JsString.drop_run c (JsString.repeat c n ++ s) = s.
Proof.
  intros H. induction n as [|n IH].
  - destruct s as [|a s]; [reflexivity|]. cbn in H |- *.
    apply orb_false_iff in H as [H _]. now rewrite H.
  - cbn [JsString.repeat append JsString.drop_run]. now rewrite Ascii.eqb_refl, IH.
Qed.

Lemma first_absent (c : ascii) (s : string) :
  mem_char c s = false -> mem_char c (String.substring 0 1 s) = false.
Proof.
  destruct s as [|a s]; [reflexivity|]. cbn. intros H.
  apply orb_false_iff in H as [H _]. rewrite H. now destruct s.
Qed.

Lemma replaceRun_absent (c : ascii) (s : string) :
  mem_char c s = false -> JsString.replaceRun c s = s.
Proof.
  induction s as [|a s IH]; [reflexivity|]. simpl. intros H.
  apply orb_false_iff in H as [H1 H2]. now rewrite H1, (IH H2).
Qed.

Lemma drop_run_absent (c : ascii) (s : string) :
  mem_char c s = false -> JsString.drop_run c s = s.
Proof.
  destruct s as [|a s]; [reflexivity|]. simpl. intros H.
  apply orb_false_iff in H as [H1 H2]. now rewrite H1.
Qed.

Lemma replaceRun_app (c : ascii) (pre s : string) :
  mem_char c pre = false ->
  JsString.replaceRun c (pre ++ s) = (pre ++ JsString.replaceRun c s)%string.
Proof.
  induction pre as [|a pre IH]; [reflexivity|]. simpl. intros H.
  apply orb_false_iff in H as [H1 H2]. now rewrite H1, (IH H2).
Qed.

Lemma replaceRun_sep_at (w rest : string) :
  mem_char sep_char w = false -> mem_char sep_char rest = false ->
  JsString.replaceRun sep_char (w ++ String sep_char rest) = (w ++ rest)%string.
Proof.
  intros Hw Hr. rewrite replaceRun_app by exact Hw.
  cbn [JsString.replaceRun]. rewrite Ascii.eqb_refl. now rewrite drop_run_absent.
Qed.

Lemma replaceRun_repeat (c : ascii) (n : nat) (s : string) :
  mem_char c s = false ->
  JsString.replaceRun c (JsString.repeat c n ++ s) = s.
Proof.
  intros H. destruct n as [|n].
  - now apply replaceRun_absent.
  - cbn [JsString.repeat append JsString.replaceRun]. rewrite Ascii.eqb_refl.
    apply drop_run_repeat. now apply first_absent.
Qed.

Lemma app_assoc_string (s t u : string) : ((s ++ t) ++ u = s ++ t ++ u)%string.
Proof. induction s as [|a s IH]; [reflexivity|]. simpl. now rewrite IH. Qed.

Lemma app_empty_r (s : string) : (s ++ "" = s)%string.
Proof. induction s as [|a s IH]; [reflexivity|]. simpl. now rewrite IH. Qed.

(** The strings of the grammar are valid codes. *)
Lemma grammar_valid (pre post rest : string) (k : nat) :
  letters pre -> letters post -> letters rest ->
  Nat.even k = true -> (k <= 6)%nat ->
  (k <> 0%nat -> pre <> "" /\ rest = "") ->
  Nat.even (String.length pre + k + String.length post) = true ->
  (String.length pre + k + String.length post <= 8)%nat ->
  String.length rest <> 1%nat ->
  isValid (pre ++ JsString.repeat pad_char k ++ post ++ String sep_char rest) = true.
Proof.
  intros Hpre Hpost Hrest Hk Hk6 Hpad Heven H8 Hone.
  set (w := (pre ++ JsString.repeat pad_char k ++ post)%string).
  assert (Ecode : (pre ++ JsString.repeat pad_char k ++ post ++ String sep_char rest
                   = w ++ String sep_char rest)%string).
  { unfold w. now rewrite !app_assoc_string. }
  rewrite Ecode.
  assert (Hw : mem_char sep_char w = false).
  { unfold w. rewrite !mem_char_app, (letters_no_sep pre Hpre),
      (letters_no_sep post Hpost), mem_char_repeat; reflexivity. }
  assert (Hlw : String.length w = (String.length pre + k + String.length post)%nat).
  { unfold w. rewrite !length_app, length_repeat. lia. }
  pose proof (letters_no_sep rest Hrest) as Hr.
  assert (Hsep : JsString.indexOf (w ++ String sep_char rest) SEPARATOR_
                 = Z.of_nat (String.length w)).
  { unfold SEPARATOR_. fold sep_char. now rewrite indexOf_char, find_char_app. }
  assert (Hlast : JsString.lastIndexOf (w ++ String sep_char rest) SEPARATOR_
                  = Z.of_nat (String.length w)).
  { unfold JsString.lastIndexOf, SEPARATOR_. fold sep_char.
    now rewrite last_index_unique. }
  assert (Hlen : JsString.length (w ++ String sep_char rest)
                 = Z.of_nat (String.length w) + 1 + Z.of_nat (String.length rest)).
  { unfold JsString.length. rewrite length_app. cbn [String.length]. lia. }
  assert (Hrem : (Z.rem (Z.of_nat (String.length w)) 2 =? 1) = false).
  { apply Z.eqb_neq. rewrite Z.rem_mod_nonneg by lia. rewrite Hlw.
    apply Nat.even_spec in Heven. destruct Heven as [m Hm]. rewrite Hm.
    rewrite Nat2Z.inj_mul. change (Z.of_nat 2) with 2.
    rewrite Z.mul_comm, Z.mod_mul by lia. lia. }
  assert (Hvrest : isValid_rest (w ++ String sep_char rest) = true).
  { unfold isValid_rest. rewrite Hsep, Hlen.
    assert (E : (Z.of_nat (String.length w) + 1 + Z.of_nat (String.length rest)
                 - Z.of_nat (String.length w) - 1 =? 1) = false)
      by (apply Z.eqb_neq; lia).
    rewrite E. cbv zeta. rewrite replaceRun_sep_at by assumption.
    rewrite all_code_chars_spec. unfold w.
    rewrite app_assoc_string, replaceRun_app by (now apply letters_no_pad).
    rewrite app_assoc_string, replaceRun_repeat.
    - apply letters_valid. apply letters_app. split; [exact Hpre|].
      apply letters_app. now split.
    - rewrite mem_char_app, (letters_no_pad post Hpost), (letters_no_pad rest Hrest).
      reflexivity. }
  unfold isValid.
  assert (Hne : String.eqb (w ++ String sep_char rest) "" = false)
    by (destruct w; reflexivity).
  rewrite Hne, Hsep, Hlast, Z.eqb_refl. cbn [negb].
  assert (E1 : (Z.of_nat (String.length w) =? -1) = false) by (apply Z.eqb_neq; lia).
  assert (E2 : (Z.of_nat (String.length w) >? SEPARATOR_POSITION_) = false).
  { unfold SEPARATOR_POSITION_. rewrite Z.gtb_ltb. apply Z.ltb_ge. lia. }
  rewrite E1, E2, Hrem. cbn [orb].
  destruct (Nat.eq_dec k 0) as [->|Hk0].
  - (* no padding *)
    assert (Hnp : JsString.indexOf (w ++ String sep_char rest) PADDING_CHARACTER_ = -1).
    { unfold PADDING_CHARACTER_. fold pad_char. apply indexOf_absent.
      unfold w. cbn [JsString.repeat append].
      rewrite !mem_char_app. cbn [mem_char].
      rewrite (letters_no_pad pre Hpre), (letters_no_pad post Hpost),
        (letters_no_pad rest Hrest). reflexivity. }
    rewrite Hnp. exact Hvrest.
  - destruct (Hpad Hk0) as [Hpne ->].
    assert (Hidx : JsString.indexOf (w ++ String sep_char "") PADDING_CHARACTER_
                   = Z.of_nat (String.length pre)).
    { unfold PADDING_CHARACTER_. fold pad_char. rewrite indexOf_char. unfold w.
      destruct k as [|k]; [contradiction|].
      cbn [JsString.repeat]. rewrite !app_assoc_string. cbn [append].
      now rewrite find_char_app by (now apply letters_no_pad). }
    rewrite Hidx.
    assert (E3 : (Z.of_nat (String.length pre) >? -1) = true) by (apply Z.gtb_lt; lia).
    assert (E4 : (Z.of_nat (String.length pre) =? 0) = false).
    { apply Z.eqb_neq. destruct pre; [contradiction|]. cbn [String.length]. lia. }
    rewrite E3, E4.
    assert (Hm : JsString.matchAll pad_char (w ++ String sep_char "")
                 = [JsString.repeat pad_char k]).
    { unfold JsString.matchAll, w. rewrite !app_assoc_string.
      rewrite !length_app, length_repeat.
      rewrite matchRuns_skip by (now apply letters_no_pad).
      destruct k as [|k]; [contradiction|].
      cbn [Nat.add JsString.repeat append JsString.matchRuns].
      rewrite Ascii.eqb_refl.
      assert (Hfirst : mem_char pad_char
                         (String.substring 0 1 (post ++ String sep_char "")) = false).
      { apply first_absent. rewrite mem_char_app, (letters_no_pad post Hpost).
        reflexivity. }
      change (String pad_char (JsString.repeat pad_char k ++ post ++ String sep_char ""))
        with (JsString.repeat pad_char (S k) ++ post ++ String sep_char "")%string.
      rewrite take_run_repeat, drop_run_repeat by exact Hfirst.
      rewrite matchRuns_absent; [reflexivity|].
      rewrite mem_char_app, (letters_no_pad post Hpost). reflexivity. }
    rewrite Hm. cbn [List.length nth]. unfold JsString.length at 1 2.
    rewrite length_repeat.
    change (Z.of_nat 1 >? 1) with false. cbn [orb].
    assert (E5 : (Z.rem (Z.of_nat k) 2 =? 1) = false).
    { apply Z.eqb_neq. rewrite Z.rem_mod_nonneg by lia.
      apply Nat.even_spec in Hk. destruct Hk as [m Hm']. rewrite Hm'.
      rewrite Nat2Z.inj_mul. change (Z.of_nat 2) with 2.
      rewrite Z.mul_comm, Z.mod_mul by lia. lia. }
    assert (E6 : (Z.of_nat k >? SEPARATOR_POSITION_ - 2) = false).
    { unfold SEPARATOR_POSITION_. rewrite Z.gtb_ltb. apply Z.ltb_ge. lia. }
    rewrite E5, E6. cbn [orb].
    assert (E7 : JsString.charAt (w ++ String sep_char "")
                   (JsString.length (w ++ String sep_char "") - 1) = SEPARATOR_).
    { rewrite Hlen. cbn [String.length].
      replace (Z.of_nat (String.length w) + 1 + Z.of_nat 0 - 1)
        with (JsString.length w) by (unfold JsString.length; lia).
      apply charAt_app_length. }
    rewrite E7, String.eqb_refl. cbn [negb]. exact Hvrest.
Qed.

Lemma take_drop_run (c : ascii) (s : string) :
  s = (JsString.take_run c s ++ JsString.drop_run c s)%string.
Proof.
  induction s as [|a s IH]; [reflexivity|]. simpl.
  destruct (Ascii.eqb a c); [|reflexivity]. simpl. now rewrite <- IH.
Qed.

Lemma take_run_is_repeat (c : ascii) (s : string) :
  JsString.take_run c s = JsString.repeat c (String.length (JsString.take_run c s)).
Proof.
  induction s as [|a s IH]; [reflexivity|]. simpl.
  destruct (Ascii.eqb a c) eqn:E; [|reflexivity]. simpl.
  apply Ascii.eqb_eq in E. subst a. now rewrite <- IH.
Qed.

Lemma drop_run_length (c : ascii) (s : string) :
  (String.length (JsString.drop_run c s) <= String.length s)%nat.
Proof.
  induction s as [|a s IH]; [apply Nat.le_refl|]. simpl.
  destruct (Ascii.eqb a c); simpl; lia.
Qed.

(** A string with one run of [c] only. *)
Lemma single_run (fuel : nat) (c : ascii) (s run : string) :
  (String.length s <= fuel)%nat -> JsString.matchRuns fuel c s = [run] ->
  exists pre post,
    s = (pre ++ run ++ post)%string /\ mem_char c pre = false /\
    mem_char c post = false /\ run = JsString.repeat c (String.length run) /\
    run <> "".
Proof.
  revert fuel. induction s as [|a s IH]; intros fuel Hf; destruct fuel as [|fuel];
    try discriminate.
  cbn [JsString.matchRuns]. destruct (Ascii.eqb a c) eqn:E.
  - intros H. injection H as Hrun Hnil.
    apply matchRuns_nil in Hnil;
      [|pose proof (drop_run_length c s); cbn in Hf; lia].
    rewrite E in Hrun. subst run.
    exists "", (JsString.drop_run c s). cbn [append].
    split; [now rewrite <- take_drop_run|].
    split; [reflexivity|]. split; [exact Hnil|].
    split; [|discriminate].
    pose proof (take_run_is_repeat c (String a s)) as H.
    cbn [JsString.take_run] in H. rewrite E in H. exact H.
  - intros H. destruct (IH fuel ltac:(cbn in Hf; lia) H)
      as [pre [post [Es [Hpre [Hpost [Hrep Hne]]]]]].
    exists (String a pre), post. cbn [append mem_char]. rewrite E, Hpre.
    split; [now rewrite <- Es|]. repeat split; assumption.
Qed.

Lemma drop_run_snoc (c x : ascii) (s : string) :
  Ascii.eqb x c = false ->
  JsString.drop_run c (s ++ String x "") = (JsString.drop_run c s ++ String x "")%string.
Proof.
  intros Hx. induction s as [|a s IH]; simpl; [now rewrite Hx|].
  destruct (Ascii.eqb a c); [exact IH|reflexivity].
Qed.

Lemma take_run_snoc (c x : ascii) (s : string) :
  Ascii.eqb x c = false ->
  JsString.take_run c (s ++ String x "") = JsString.take_run c s.
Proof.
  intros Hx. induction s as [|a s IH]; simpl; [now rewrite Hx|].
  destruct (Ascii.eqb a c); [now rewrite IH|reflexivity].
Qed.

(** A last character other than [c] adds no run of [c]. *)
Lemma matchRuns_snoc (fuel : nat) (c x : ascii) (s : string) :
  Ascii.eqb x c = false -> (String.length s <= fuel)%nat ->
  JsString.matchRuns (S fuel) c (s ++ String x "") = JsString.matchRuns fuel c s.
Proof.
  intros Hx. revert s. induction fuel as [|fuel IH]; intros s Hf.
  - destruct s; [|cbn in Hf; lia]. cbn. now rewrite Hx.
  - destruct s as [|a s]; [cbn; now rewrite Hx|].
    cbn [append]. change (JsString.matchRuns (S (S fuel)) c (String a (s ++ String x "")))
      with (if Ascii.eqb a c
            then JsString.take_run c (String a (s ++ String x ""))
                 :: JsString.matchRuns (S fuel) c (JsString.drop_run c (s ++ String x ""))
            else JsString.matchRuns (S fuel) c (s ++ String x "")).
    change (JsString.matchRuns (S fuel) c (String a s))
      with (if Ascii.eqb a c
            then JsString.take_run c (String a s)
                 :: JsString.matchRuns fuel c (JsString.drop_run c s)
            else JsString.matchRuns fuel c s).
    destruct (Ascii.eqb a c) eqn:E.
    + rewrite drop_run_snoc by exact Hx.
      rewrite IH by (pose proof (drop_run_length c s); cbn in Hf; lia).
      cbn [JsString.take_run]. rewrite E. now rewrite take_run_snoc.
    + apply IH. cbn in Hf. lia.
Qed.

Lemma chars_letters (s : string) :
  (forall x, mem_char x s = true -> x = sep_char \/ x = pad_char \/ letter x = true) ->
  mem_char sep_char s = false -> mem_char pad_char s = false -> letters s.
Proof.
  intros H Hs Hp. apply all_chars_forall. intros x Hx.
  destruct (H x Hx) as [->|[->|Hl]]; [congruence|congruence|exact Hl].
Qed.

Lemma Z_rem_even (n : nat) : Z.rem (Z.of_nat n) 2 <> 1 -> Nat.even n = true.
Proof.
  intros H. rewrite Z.rem_mod_nonneg in H by lia.
  destruct (Nat.even n) eqn:E; [reflexivity|exfalso].
  apply H. rewrite <- Nat.negb_odd in E. apply negb_false_iff, Nat.odd_spec in E.
  destruct E as [m Hm]. rewrite Hm, Nat2Z.inj_add, Nat2Z.inj_mul.
  change (Z.of_nat 2) with 2. change (Z.of_nat 1) with 1.
  rewrite Z.add_comm, Z.mul_comm, Z.mod_add by lia. reflexivity.
Qed.

(** A valid code is a string of the grammar. *)
Lemma valid_grammar (code : string) :
  isValid code = true ->
  exists pre k post rest,
    code = (pre ++ JsString.repeat pad_char k ++ post ++ String sep_char rest)%string /\
    letters pre /\ letters post /\ letters rest /\
    Nat.even k = true /\ (k <= 6)%nat /\
    (k <> 0%nat -> pre <> "" /\ rest = "") /\
    Nat.even (String.length pre + k + String.length post) = true /\
    (String.length pre + k + String.length post <= 8)%nat /\
    String.length rest <> 1%nat.
Proof.
  intros Hv.
  destruct (isValid_facts code Hv) as [Hlast [[H0 H8] [Hpad Hone]]].
  assert (Heven : Z.rem (JsString.indexOf code SEPARATOR_) 2 <> 1).
  { revert Hv. unfold isValid.
    destruct (String.eqb code ""); [discriminate|].
    destruct (JsString.indexOf code SEPARATOR_ =? -1); [discriminate|].
    destruct (negb _); [discriminate|].
    destruct (JsString.indexOf code SEPARATOR_ >? SEPARATOR_POSITION_);
      [discriminate|]. cbn [orb].
    destruct (Z.rem (JsString.indexOf code SEPARATOR_) 2 =? 1) eqn:E; [discriminate|].
    intros _. now apply Z.eqb_neq. }
  pose proof (fun x => isValid_chars code x Hv) as Hch.
  unfold SEPARATOR_ in *. fold sep_char in *.
  rewrite indexOf_char in *.
  destruct (find_char sep_char code) as [n|] eqn:Efind; [|lia].
  destruct (find_char_some _ _ _ Efind) as [p [rest [Ec [Hlen Hp]]]].
  unfold JsString.lastIndexOf in Hlast.
  destruct (JsString.last_index (String sep_char "") code) as [m|] eqn:Elast; [|lia].
  assert (m = n) by lia. subst m.
  assert (Hrest : mem_char sep_char rest = false).
  { apply (last_index_sep_rest p). unfold sep_char in *. rewrite <- Ec, Hlen.
    exact Elast. }
  assert (Hlc : JsString.length code = Z.of_nat n + 1 + Z.of_nat (String.length rest)).
  { unfold JsString.length. rewrite Ec, length_app. cbn [String.length]. lia. }
  assert (Hr1 : String.length rest <> 1%nat) by lia.
  assert (Hn8 : (n <= 8)%nat) by lia.
  assert (Hne : Nat.even n = true) by (now apply Z_rem_even).
  assert (Chp : forall x, mem_char x p = true ->
                  x = sep_char \/ x = pad_char \/ letter x = true).
  { intros x Hx. apply Hch. rewrite Ec, mem_char_app, Hx. reflexivity. }
  assert (Chr : forall x, mem_char x rest = true ->
                  x = sep_char \/ x = pad_char \/ letter x = true).
  { intros x Hx. apply Hch. rewrite Ec, mem_char_app. cbn [mem_char].
    rewrite Hx. now rewrite !orb_true_r. }
  destruct (mem_char pad_char code) eqn:Epad.
  - (* a padded code *)
    assert (Hidx : JsString.indexOf code PADDING_CHARACTER_ > -1).
    { pose proof (indexOf_ge code PADDING_CHARACTER_).
      destruct (Z.eq_dec (JsString.indexOf code PADDING_CHARACTER_) (-1)) as [E|E]; [|lia].
      apply indexOf_absent in E. unfold pad_char in Epad. congruence. }
    destruct (Hpad Hidx) as [P1 [P2 [P3 [P4 P5]]]].
    assert (Erest : rest = "").
    { apply (padded_rest_empty code p rest); try assumption. }
    subst rest.
    assert (Hm : JsString.matchAll pad_char code
                 = JsString.matchRuns (String.length p) pad_char p).
    { unfold JsString.matchAll. rewrite Ec, length_app. cbn [String.length].
      replace (String.length p + 1)%nat with (S (String.length p)) by lia.
      apply matchRuns_snoc; [reflexivity|apply Nat.le_refl]. }
    rewrite Hm in P2, P3, P4.
    assert (Hpp : mem_char pad_char p = true).
    { rewrite Ec, mem_char_app in Epad. cbn in Epad. now rewrite orb_false_r in Epad. }
    destruct (JsString.matchRuns (String.length p) pad_char p) as [|run [|r2 l]] eqn:Er.
    + apply matchRuns_nil in Er; [congruence|apply Nat.le_refl].
    + destruct (single_run _ _ _ _ (Nat.le_refl _) Er)
        as [pre [post [Ep [Hpre [Hpost [Hrep Hrne]]]]]].
      cbn [nth] in P3, P4. unfold JsString.length in P3, P4.
      exists pre, (String.length run), post, "".
      rewrite <- Hrep.
      assert (Hlp : String.length p
                    = (String.length pre + String.length run + String.length post)%nat).
      { rewrite Ep, !length_app. lia. }
      split; [rewrite Ec, Ep; now rewrite !app_assoc_string|].
      assert (Lpre : letters pre).
      { apply chars_letters; [|rewrite Ep, mem_char_app in Hp;
                                now apply orb_false_iff in Hp|exact Hpre].
        intros x Hx. apply Chp. rewrite Ep, mem_char_app, Hx. reflexivity. }
      assert (Lpost : letters post).
      { apply chars_letters; [| |exact Hpost].
        - intros x Hx. apply Chp. rewrite Ep, !mem_char_app, Hx.
          now rewrite !orb_true_r.
        - rewrite Ep, !mem_char_app in Hp. apply orb_false_iff in Hp as [_ Hp].
          now apply orb_false_iff in Hp. }
      split; [exact Lpre|]. split; [exact Lpost|]. split; [reflexivity|].
      split; [now apply Z_rem_even|]. split; [lia|].
      split.
      { intros _. split; [|reflexivity]. intros ->.
        apply P1. unfold PADDING_CHARACTER_. fold pad_char. rewrite indexOf_char.
        rewrite Ec, Ep. cbn [append]. destruct run as [|r run]; [contradiction|].
        rewrite Hrep. cbn [String.length JsString.repeat append find_char].
        now rewrite Ascii.eqb_refl. }
      rewrite <- Hlp, Hlen. repeat split; assumption.
    + cbn [List.length] in P2. lia.
  - (* no padding *)
    rewrite Ec, mem_char_app in Epad. apply orb_false_iff in Epad as [Ep1 Ep2].
    cbn [mem_char] in Ep2. apply orb_false_iff in Ep2 as [_ Ep2].
    exists p, 0%nat, "", rest. cbn [JsString.repeat append].
    split; [exact Ec|].
    split; [now apply chars_letters|]. split; [reflexivity|].
    split; [now apply chars_letters|]. split; [reflexivity|]. split; [lia|].
    split; [intros H; now contradiction H|].
    rewrite Nat.add_0_r, Nat.add_0_r, Hlen. repeat split; assumption.
Qed.

(** X1: [isValid] accepts exactly the strings made of alphabet characters in
    either case [pre], then an even number [k] of padding characters, six at
    most, then alphabet characters [post], the separator and alphabet
    characters [rest], where [pre], the padding and [post] make an even
    number of characters, eight at most, a padded code has a character before
    its padding and none after the separator, and the separator is not
    followed by a single character. *)
Theorem valid_codes (code : string) :
  isValid code = true <->
  exists pre k post rest,
    code = (pre ++ JsString.repeat pad_char k ++ post ++ String sep_char rest)%string /\
    letters pre /\ letters post /\ letters rest /\
    Nat.even k = true /\ (k <= 6)%nat /\
    (k <> 0%nat -> pre <> "" /\ rest = "") /\
    Nat.even (String.length pre + k + String.length post) = true /\
    (String.length pre + k + String.length post <= 8)%nat /\
    String.length rest <> 1%nat.
Proof.
  split; [apply valid_grammar|].
  intros [pre [k [post [rest [-> [H1 [H2 [H3 [H4 [H5 [H6 [H7 [H8 H9]]]]]]]]]]]]].
  now apply grammar_valid.
Qed.

End Grammar.

(** ** The length [decode] reports *)

Section DecodedLength.

Context {num : Type} {N : Number num}.

Lemma substring_prefix_length (n : nat) (s : string) :
  String.length (String.substring 0 n s) = Nat.min n (String.length s).
Proof.
  revert n. induction s as [|a s IH]; intros n; destruct n as [|n];
    try reflexivity.
  cbn [String.substring String.length Nat.min]. now rewrite IH.
Qed.

Lemma substring_suffix_length (n : nat) (s : string) :
  (n <= String.length s)%nat ->
  String.length (String.substring n (String.length s - n) s)
  = (String.length s - n)%nat.
Proof.
  revert n. induction s as [|a s IH]; intros n Hn.
  - now destruct n.
  - destruct n as [|n].
    + rewrite Nat.sub_0_r, substring_all. reflexivity.
    + cbn [String.length Nat.sub String.substring]. apply IH.
      cbn in Hn. lia.
Qed.

(** [decode] reports the length of the code without its separator and
    padding. *)
Lemma decode_codeLength (code : string) (area : CodeArea) :
  decode code = Return area ->
  codeLength area
  = JsString.length
      (JsString.toUpperCase
         (JsString.replaceRun pad_char (JsString.replaceFirst sep_char code))).
Proof.
  unfold decode. destruct (isFull code); [|discriminate]. cbn [negb]. cbv zeta.
  set (s := JsString.toUpperCase _).
  destruct (JsString.length s <=? PAIR_CODE_LENGTH_) eqn:E.
  - intros H. apply Return_inj in H. subst area.
    unfold decodePairs. cbn [newCodeArea codeLength].
    apply Z.leb_le in E. unfold JsString.length, JsString.substringTo in *.
    rewrite substring_prefix_length. unfold PAIR_CODE_LENGTH_ in *. lia.
  - intros H. apply Return_inj in H. subst area.
    apply Z.leb_gt in E. cbn [newCodeArea codeLength].
    unfold decodePairs, decodeGrid. cbn [newCodeArea codeLength].
    destruct (decodeGrid_loop _ _ _ _ _) as [[[? ?] ?] ?].
    cbn [newCodeArea codeLength].
    unfold JsString.length, JsString.substringTo, JsString.substringFrom in *.
    unfold PAIR_CODE_LENGTH_ in *.
    rewrite substring_prefix_length, substring_suffix_length by lia. lia.
Qed.

Lemma replaceFirst_at (x : ascii) (w rest : string) :
  mem_char x w = false ->
  JsString.replaceFirst x (w ++ String x rest) = (w ++ rest)%string.
Proof.
  induction w as [|a w IH]; simpl.
  - intros _. now rewrite Ascii.eqb_refl.
  - intros H. apply orb_false_iff in H as [H1 H2]. now rewrite H1, (IH H2).
Qed.

Lemma count_digits_app (s t : string) :
  count_digits (s ++ t) = (count_digits s + count_digits t)%nat.
Proof. induction s as [|a s IH]; [reflexivity|]. simpl. rewrite IH. lia. Qed.

Lemma count_digits_letters (s : string) :
  letters s -> count_digits s = String.length s.
Proof.
  induction s as [|a s IH]; [reflexivity|]. rewrite letters_cons. intros [Ha Hs].
  destruct (letter_cases a Ha) as [H1 [H2 _]]. simpl. now rewrite H1, H2, (IH Hs).
Qed.

Lemma count_digits_padding (k : nat) : count_digits (JsString.repeat pad_char k) = 0%nat.
Proof. induction k as [|k IH]; [reflexivity|]. exact IH. Qed.

(** The stripped code and the number of digits, for a string of the
    grammar. *)
Lemma grammar_stripped (pre post rest : string) (k : nat) :
  letters pre -> letters post -> letters rest ->
  JsString.replaceRun pad_char
    (JsString.replaceFirst sep_char
       (pre ++ JsString.repeat pad_char k ++ post ++ String sep_char rest))
  = (pre ++ post ++ rest)%string /\
  count_digits (pre ++ JsString.repeat pad_char k ++ post ++ String sep_char rest)
  = (String.length pre + String.length post + String.length rest)%nat.
Proof.
  intros Hpre Hpost Hrest. split.
  - rewrite <- !app_assoc_string.
    rewrite replaceFirst_at.
    + rewrite !app_assoc_string.
      rewrite replaceRun_app by (now apply letters_no_pad).
      rewrite replaceRun_repeat; [reflexivity|].
      rewrite mem_char_app, (letters_no_pad post Hpost), (letters_no_pad rest Hrest).
      reflexivity.
    + rewrite !mem_char_app, (letters_no_sep pre Hpre), (letters_no_sep post Hpost),
        mem_char_repeat; reflexivity.
  - rewrite !count_digits_app, count_digits_padding. cbn [count_digits].
    rewrite Ascii.eqb_refl. cbn [orb].
    rewrite !count_digits_letters by assumption. lia.
Qed.

Lemma full_code_form (code : string) :
  isFull code = true ->
  exists pre k post rest,
    code = (pre ++ JsString.repeat pad_char k ++ post ++ String sep_char rest)%string /\
    letters pre /\ letters post /\ letters rest /\
    Nat.even k = true /\ (k <= 6)%nat /\
    (k <> 0%nat -> pre <> "" /\ rest = "") /\
    (String.length pre + k + String.length post = 8)%nat /\
    String.length rest <> 1%nat.
Proof.
  intros Hf. pose proof (isFull_valid code Hf) as Hv.
  pose proof (isFull_separator code Hf) as Hsep.
  destruct (valid_grammar code Hv)
    as [pre [k [post [rest [Ec [Hpre [Hpost [Hrest [Hk [Hk6 [Hpad [He [Hl Hr]]]]]]]]]]]]].
  exists pre, k, post, rest. repeat (split; [assumption|]).
  split; [|exact Hr].
  rewrite Ec in Hsep. unfold SEPARATOR_, SEPARATOR_POSITION_ in Hsep.
  fold sep_char in Hsep. rewrite indexOf_char in Hsep.
  rewrite <- !app_assoc_string in Hsep. rewrite find_char_app in Hsep.
  - rewrite !length_app, length_repeat in Hsep. lia.
  - rewrite !mem_char_app, (letters_no_sep pre Hpre), (letters_no_sep post Hpost),
      mem_char_repeat; reflexivity.
Qed.

Lemma decode_returns (code : string) :
  isFull code = true -> exists area, decode code = Return area.
Proof.
  intros Hf. unfold decode. rewrite Hf. cbn [negb]. cbv zeta.
  destruct (_ <=? _); eexists; reflexivity.
Qed.

Lemma decode_digits (code : string) (area : CodeArea) :
  isFull code = true -> decode code = Return area ->
  codeLength area = Z.of_nat (count_digits code).
Proof.
  intros Hf Hd.
  destruct (full_code_form code Hf)
    as [pre [k [post [rest [Ec [Hpre [Hpost [Hrest _]]]]]]]].
  destruct (grammar_stripped pre post rest k Hpre Hpost Hrest) as [Es Ecount].
  rewrite (decode_codeLength code area Hd), Ec, Es, Ecount.
  unfold JsString.length. rewrite length_upper, !length_app. lia.
Qed.

Lemma full_code_digits (code : string) :
  isFull code = true ->
  (count_digits code = 2 \/ count_digits code = 4 \/ count_digits code = 6 \/
   count_digits code = 8 \/ 10 <= count_digits code)%nat.
Proof.
  intros Hf.
  destruct (full_code_form code Hf)
    as [pre [k [post [rest [Ec [Hpre [Hpost [Hrest [Hk [Hk6 [Hpad [H8 Hr]]]]]]]]]]]].
  destruct (grammar_stripped pre post rest k Hpre Hpost Hrest) as [_ Ecount].
  rewrite Ec, Ecount.
  destruct k as [|[|[|[|[|[|[|k]]]]]]]; try discriminate Hk; try lia.
  all: destruct Hpad as [_ ->]; [discriminate|]; cbn [String.length]; lia.
Qed.

(** X5: [decode] returns for the full codes, and for no other string; the
    length it reports is the number of digits of the code, which is 2, 4, 6,
    8, or 10 or more. *)
Theorem decode_counts_digits (code : string) :
  (isFull code = true ->
   exists area,
     decode code = Return area /\
     codeLength area = Z.of_nat (count_digits code) /\
     (codeLength area = 2 \/ codeLength area = 4 \/ codeLength area = 6 \/
      codeLength area = 8 \/ 10 <= codeLength area)) /\
  (isFull code = false -> decode code = Throw NotFullCode).
Proof.
  split.
  - intros Hf. destruct (decode_returns code Hf) as [area Hd].
    exists area. split; [exact Hd|].
    pose proof (decode_digits code area Hf Hd) as Hl.
    split; [exact Hl|]. rewrite Hl.
    pose proof (full_code_digits code Hf). lia.
  - intros Hf. unfold decode. now rewrite Hf.
Qed.

End DecodedLength.

(** ** What [shorten] returns and throws *)

Section ShortenOutcomes.

Context {num : Type} {N : Number num}.

Lemma pad_absent_k (pre post rest : string) (k : nat) :
  JsString.indexOf (pre ++ JsString.repeat pad_char k ++ post ++ String sep_char rest)
                   PADDING_CHARACTER_ = -1 ->
  k = 0%nat.
Proof.
  intros H. unfold PADDING_CHARACTER_ in H. fold pad_char in H.
  apply indexOf_absent in H. destruct k as [|k]; [reflexivity|].
  rewrite mem_char_app in H. apply orb_false_iff in H as [_ H].
  cbn in H. discriminate H.
Qed.

(** A full code without padding: eight alphabet characters, the separator,
    and none or two and more alphabet characters. *)
Lemma full_unpadded_form (code : string) :
  isFull code = true -> JsString.indexOf code PADDING_CHARACTER_ = -1 ->
  exists pre rest,
    code = (pre ++ String sep_char rest)%string /\
    letters pre /\ letters rest /\ String.length pre = 8%nat /\
    String.length rest <> 1%nat.
Proof.
  intros Hf Hp.
  destruct (full_code_form code Hf)
    as [pre [k [post [rest [Ec [Hpre [Hpost [Hrest [_ [Hk6 [Hpad [Hl Hr]]]]]]]]]]]].
  rewrite Ec in Hp. apply pad_absent_k in Hp. subst k.
  exists (pre ++ post)%string, rest.
  split; [rewrite Ec; cbn [JsString.repeat append]; now rewrite app_assoc_string|].
  split; [apply letters_app; now split|]. split; [exact Hrest|].
  split; [rewrite length_app; lia|exact Hr].
Qed.

Lemma substringFrom_app (p s : string) :
  JsString.substringFrom (p ++ s) (JsString.length p) = s.
Proof.
  unfold JsString.substringFrom, JsString.length. rewrite Nat2Z.id, length_app.
  replace (String.length p + String.length s - String.length p)%nat
    with (String.length s) by lia.
  induction p as [|a p IH]; [apply substring_all|exact IH].
Qed.

(** Alphabet characters, fewer than eight and in even number, then the
    separator and what may follow it: a short code. *)
Lemma short_code_form (q rest : string) :
  letters q -> letters rest -> Nat.even (String.length q) = true ->
  (String.length q < 8)%nat -> String.length rest <> 1%nat ->
  isShort (q ++ String sep_char rest) = true.
Proof.
  intros Hq Hrest He Hl Hr.
  assert (Hv : isValid (q ++ String sep_char rest) = true).
  { apply (grammar_valid q "" rest 0); try assumption; try reflexivity.
    - lia.
    - intros H. now contradiction H.
    - cbn [String.length]. now rewrite !Nat.add_0_r.
    - cbn [String.length]. lia. }
  rewrite (isShort_by_separator _ Hv). apply Z.ltb_lt.
  unfold SEPARATOR_, SEPARATOR_POSITION_. fold sep_char.
  rewrite indexOf_char, find_char_app by (now apply letters_no_sep). lia.
Qed.

Lemma letters_upper (s : string) : letters s -> letters (JsString.toUpperCase s).
Proof.
  unfold letters. rewrite all_chars_upper. apply all_chars_weaken.
  intros c Hc. unfold letter. now rewrite upper_idem.
Qed.

(** The area of a full code without padding has eight digits at least. *)
Lemma unpadded_length (code : string) (area : CodeArea) :
  isFull code = true -> JsString.indexOf code PADDING_CHARACTER_ = -1 ->
  decode code = Return area -> 8 <= codeLength area.
Proof.
  intros Hf Hp Hd.
  destruct (full_unpadded_form code Hf Hp) as [pre [rest [Ec [Hpre [Hrest [Hl Hr]]]]]].
  rewrite (decode_codeLength code area Hd), Ec.
  rewrite replaceFirst_at by (now apply letters_no_sep).
  rewrite replaceRun_absent
    by (rewrite mem_char_app, (letters_no_pad pre Hpre), (letters_no_pad rest Hrest);
        reflexivity).
  unfold JsString.length. rewrite length_upper, length_app. lia.
Qed.

(** [shorten] goes as far as [normalizeLongitude] on a full code without
    padding. *)
Lemma shorten_running (fuel : nat) (code : string) (lat lng : num) :
  isFull code = true -> JsString.indexOf code PADDING_CHARACTER_ = -1 ->
  normalizeLongitude fuel lng = Running ->
  shorten fuel code lat lng = Running.
Proof.
  intros Hf Hp Hn. unfold shorten. rewrite Hf, Hp. cbn [negb Z.eqb]. cbv zeta.
  assert (Hfu : isFull (JsString.toUpperCase code) = true) by (now rewrite isFull_upper).
  assert (Hpu : JsString.indexOf (JsString.toUpperCase code) PADDING_CHARACTER_ = -1)
    by (now rewrite indexOf_upper_pad).
  destruct (decode_returns _ Hfu) as [area Hd]. rewrite Hd. cbn [bind].
  pose proof (unpadded_length _ area Hfu Hpu Hd) as H8.
  assert (E : (codeLength area <? MIN_TRIMMABLE_CODE_LEN_) = false)
    by (apply Z.ltb_ge; unfold MIN_TRIMMABLE_CODE_LEN_; lia).
  now rewrite E, Hn.
Qed.

(** X6: [shorten] throws for a string that is not a full code and for a padded
    code, and for nothing else: the test of the code length never fails, a
    full code without padding having eight digits at least.  It returns as
    soon as [normalizeLongitude] has returned. *)
Theorem shorten_outcomes (fuel : nat) (code : string) (lat lng : num) :
  (shorten fuel code lat lng = Throw ShortenNotFull <-> isFull code = false) /\
  (shorten fuel code lat lng = Throw ShortenPadded <->
   isFull code = true /\ JsString.indexOf code PADDING_CHARACTER_ <> -1) /\
  (forall e, shorten fuel code lat lng = Throw e ->
             e = ShortenNotFull \/ e = ShortenPadded) /\
  (isFull code = true -> JsString.indexOf code PADDING_CHARACTER_ = -1 ->
   forall lng', normalizeLongitude fuel lng = Return lng' ->
   exists r, shorten fuel code lat lng = Return r).
Proof.
  unfold shorten. destruct (isFull code) eqn:Hf; cbn [negb].
  2:{ repeat split; try discriminate; try reflexivity.
      - intros [H _]. discriminate H.
      - intros e H. left. congruence. }
  destruct (JsString.indexOf code PADDING_CHARACTER_ =? -1) eqn:Hp; cbn [negb].
  2:{ apply Z.eqb_neq in Hp. repeat split; try discriminate; try assumption.
      - intros e H. right. congruence.
      - intros _ H. contradiction. }
  apply Z.eqb_eq in Hp. cbv zeta.
  assert (Hfu : isFull (JsString.toUpperCase code) = true) by (now rewrite isFull_upper).
  assert (Hpu : JsString.indexOf (JsString.toUpperCase code) PADDING_CHARACTER_ = -1)
    by (now rewrite indexOf_upper_pad).
  destruct (decode_returns _ Hfu) as [area Hd]. rewrite Hd. cbn [bind].
  pose proof (unpadded_length _ area Hfu Hpu Hd) as H8.
  assert (E : (codeLength area <? MIN_TRIMMABLE_CODE_LEN_) = false)
    by (apply Z.ltb_ge; unfold MIN_TRIMMABLE_CODE_LEN_; lia).
  rewrite E.
  destruct (normalizeLongitude fuel lng) as [l|e'|] eqn:En; cbn [bind].
  - repeat split; try discriminate.
    + intros [_ H]. contradiction.
    + intros _ _ lng' _. eexists. reflexivity.
  - now apply normalizeLongitude_no_throw in En.
  - repeat split; try discriminate.
    intros [_ H]. contradiction.
Qed.


(** The forms of what [shorten] returns. *)
Lemma shorten_forms (fuel : nat) (code : string) (lat lng : num) (r : string) :
  shorten fuel code lat lng = Return r ->
  isFull code = true /\ JsString.indexOf code PADDING_CHARACTER_ = -1 /\
  exists c0 c1 c2 c3 c4 c5 c6 c7 rest,
    JsString.toUpperCase code
    = String c0 (String c1 (String c2 (String c3 (String c4 (String c5
        (String c6 (String c7 (String sep_char rest)))))))) /\
    letters (String c4 (String c5 (String c6 (String c7 "")))) /\
    letters rest /\ String.length rest <> 1%nat /\
    JsString.substringFrom (JsString.toUpperCase code) 4
    = String c4 (String c5 (String c6 (String c7 (String sep_char rest)))) /\
    JsString.substringFrom (JsString.toUpperCase code) 6
    = String c6 (String c7 (String sep_char rest)) /\
    JsString.substringFrom (JsString.toUpperCase code) 8 = String sep_char rest /\
    (r = JsString.toUpperCase code \/
     r = JsString.substringFrom (JsString.toUpperCase code) 4 \/
     r = JsString.substringFrom (JsString.toUpperCase code) 6 \/
     r = JsString.substringFrom (JsString.toUpperCase code) 8).
Proof.
  unfold shorten. destruct (isFull code) eqn:Hf; [|discriminate]. cbn [negb].
  destruct (JsString.indexOf code PADDING_CHARACTER_ =? -1) eqn:Hp; [|discriminate].
  cbn [negb]. apply Z.eqb_eq in Hp. cbv zeta.
  destruct (decode (JsString.toUpperCase code)) as [area| |]; cbn [bind];
    try discriminate.
  destruct (codeLength area <? MIN_TRIMMABLE_CODE_LEN_); [discriminate|].
  destruct (normalizeLongitude fuel lng) as [l| |]; cbn [bind]; try discriminate.
  intros H. apply Return_inj in H. subst r.
  split; [reflexivity|]. split; [exact Hp|].
  assert (Hfu : isFull (JsString.toUpperCase code) = true) by (now rewrite isFull_upper).
  assert (Hpu : JsString.indexOf (JsString.toUpperCase code) PADDING_CHARACTER_ = -1)
    by (now rewrite indexOf_upper_pad).
  destruct (full_unpadded_form _ Hfu Hpu) as [pre [rest [Ec [Hpre [Hrest [Hl Hr]]]]]].
  set (u := JsString.toUpperCase code) in *. clearbody u.
  destruct pre as [|c0 [|c1 [|c2 [|c3 [|c4 [|c5 [|c6 [|c7 [|? ?]]]]]]]]];
    try discriminate Hl. clear Hl.
  apply letters_cons in Hpre as [L0 Hpre]. apply letters_cons in Hpre as [L1 Hpre].
  apply letters_cons in Hpre as [L2 Hpre]. apply letters_cons in Hpre as [L3 Hpre].
  cbn [append] in Ec.
  exists c0, c1, c2, c3, c4, c5, c6, c7, rest.
  split; [exact Ec|]. split; [exact Hpre|]. split; [exact Hrest|]. split; [exact Hr|].
  split.
  { rewrite Ec.
    exact (substringFrom_app
             (String c0 (String c1 (String c2 (String c3 ""))))
             (String c4 (String c5 (String c6 (String c7 (String sep_char rest)))))). }
  split.
  { rewrite Ec.
    exact (substringFrom_app
             (String c0 (String c1 (String c2 (String c3 (String c4 (String c5 ""))))))
             (String c6 (String c7 (String sep_char rest)))). }
  split.
  { rewrite Ec.
    exact (substringFrom_app
             (String c0 (String c1 (String c2 (String c3 (String c4 (String c5
                (String c6 (String c7 ""))))))))
             (String sep_char rest)). }
  change (Z.to_nat (Z.of_nat (List.length (PAIR_RESOLUTIONS_ (N := N))))) with 5%nat.
  change (Z.of_nat (List.length (PAIR_RESOLUTIONS_ (N := N))) - 2) with 3.
  cbn [shorten_loop Z.geb Z.compare Z.sub Z.add Z.mul Z.opp Z.pos_sub Pos.pred_double
       Pos.add Pos.succ Pos.mul].
  repeat match goal with
         | |- context [if ?b then _ else _] => destruct b
         end; tauto.
Qed.

Lemma short_suffixes (c4 c5 c6 c7 : ascii) (rest : string) :
  letters (String c4 (String c5 (String c6 (String c7 "")))) ->
  letters rest -> String.length rest <> 1%nat ->
  isShort (String c4 (String c5 (String c6 (String c7 (String sep_char rest))))) = true /\
  isShort (String c6 (String c7 (String sep_char rest))) = true /\
  isShort (String sep_char rest) = true.
Proof.
  intros Hl Hrest Hr.
  pose proof Hl as Hl'.
  apply letters_cons in Hl' as [_ Hl']. apply letters_cons in Hl' as [_ Hl'].
  split; [|split].
  - apply (short_code_form (String c4 (String c5 (String c6 (String c7 "")))) rest);
      try assumption; try reflexivity. cbn [String.length]. lia.
  - apply (short_code_form (String c6 (String c7 "")) rest); try assumption;
      try reflexivity. cbn [String.length]. lia.
  - apply (short_code_form "" rest); try assumption; try reflexivity.
    cbn [String.length]. lia.
Qed.

(** X7: What [shorten] returns is the code in upper case, whole or without its
    first four, six or eight characters; what is left of the code is then a
    short code. *)
Theorem shorten_result (fuel : nat) (code : string) (lat lng : num) (r : string) :
  shorten fuel code lat lng = Return r ->
  r = JsString.toUpperCase code \/
  (isShort r = true /\
   (r = JsString.substringFrom (JsString.toUpperCase code) 4 \/
    r = JsString.substringFrom (JsString.toUpperCase code) 6 \/
    r = JsString.substringFrom (JsString.toUpperCase code) 8)).
Proof.
  intros H. destruct (shorten_forms fuel code lat lng r H)
    as [_ [_ [c0 [c1 [c2 [c3 [c4 [c5 [c6 [c7 [rest
         [Eu [Hl [Hrest [Hr [E4 [E6 [E8 Hcases]]]]]]]]]]]]]]]]]].
  destruct (short_suffixes c4 c5 c6 c7 rest Hl Hrest Hr) as [S4 [S6 S8]].
  destruct Hcases as [-> | [-> | [-> | ->]]]; [now left| | |]; right.
  - split; [now rewrite E4|tauto].
  - split; [now rewrite E6|tauto].
  - split; [now rewrite E8|tauto].
Qed.

End ShortenOutcomes.

Lemma shorten_outcomes_witness :
  exists r, shorten (N := Float64.number) 0 "9C3W9QCJ+2VX" 0%float 0%float = Return r.
Proof.
  apply (proj2 (proj2 (proj2
           (shorten_outcomes (N := Float64.number) 0 "9C3W9QCJ+2VX" 0%float 0%float))))
    with (lng' := 0%float); reflexivity.
Defined.

Lemma shorten_result_witness :
  "+2VX" = JsString.toUpperCase "9c3w9qcj+2vx" \/
  (isShort "+2VX" = true /\
   ("+2VX" = JsString.substringFrom (JsString.toUpperCase "9c3w9qcj+2vx") 4 \/
    "+2VX" = JsString.substringFrom (JsString.toUpperCase "9c3w9qcj+2vx") 6 \/
    "+2VX" = JsString.substringFrom (JsString.toUpperCase "9c3w9qcj+2vx") 8)).
Proof.
  apply (shorten_result (N := Float64.number) 0 "9c3w9qcj+2vx"
           (f64 513701125 10000000) (f64 (-1217765625) 1000000000) "+2VX").
  vm_compute. reflexivity.
Defined.

(** ** The displayed code *)

Section DisplayedCodes.

Context {num : Type} {N : Number num}.

Lemma substring_prefix_app (p s : string) :
  String.substring 0 (String.length p) (p ++ s) = p.
Proof. induction p as [|a p IH]; [now destruct s|]. simpl. now rewrite IH. Qed.

Lemma substring_split (n : nat) (s : string) :
  (String.substring 0 n s ++ String.substring n (String.length s - n) s)%string = s.
Proof.
  revert n. induction s as [|a s IH]; intros n; [now destruct n|].
  destruct n as [|n].
  - cbn [String.substring append]. rewrite Nat.sub_0_r.
    change (String.substring 0 (String.length (String a s)) (String a s) = String a s).
    apply substring_all.
  - cbn [String.substring String.length Nat.sub append]. now rewrite IH.
Qed.

(** A full code: eight characters, the separator, and what follows; its
    first nine characters are a full code again. *)
Lemma full_code_prefix (code : string) :
  isFull code = true ->
  exists w rest,
    code = (w ++ String sep_char rest)%string /\ String.length w = 8%nat /\
    letters rest /\ isFull (w ++ String sep_char "") = true /\
    (2 <= count_digits w)%nat /\
    count_digits code = (count_digits w + String.length rest)%nat /\
    count_digits (w ++ String sep_char "") = count_digits w /\
    (count_digits w <> 8%nat -> rest = "").
Proof.
  intros Hf.
  destruct (full_code_form code Hf)
    as [pre [k [post [rest [Ec [Hpre [Hpost [Hrest [Hk [Hk6 [Hpad [Hl Hr]]]]]]]]]]]].
  pose proof (isFull_valid code Hf) as Hv.
  pose proof (isFull_not_short code Hf) as Hs.
  set (w := (pre ++ JsString.repeat pad_char k ++ post)%string).
  assert (Ecw : code = (w ++ String sep_char rest)%string).
  { rewrite Ec. unfold w. now rewrite !app_assoc_string. }
  assert (Hw : String.length w = 8%nat).
  { unfold w. rewrite !length_app, length_repeat. lia. }
  assert (Hcw : count_digits w = (String.length pre + String.length post)%nat).
  { unfold w. rewrite !count_digits_app, count_digits_padding,
      !count_digits_letters by assumption. lia. }
  assert (Hvw : isValid (w ++ String sep_char "") = true).
  { unfold w. rewrite !app_assoc_string.
    apply grammar_valid; try assumption; try reflexivity.
    - intros H. split; [now apply Hpad|reflexivity].
    - now rewrite Hl.
    - lia.
    - discriminate. }
  assert (Hsw : isShort (w ++ String sep_char "") = false).
  { rewrite (isShort_by_separator _ Hvw). apply Z.ltb_ge.
    unfold SEPARATOR_, SEPARATOR_POSITION_. fold sep_char.
    rewrite indexOf_char, find_char_app.
    - lia.
    - unfold w. rewrite !mem_char_app, (letters_no_sep pre Hpre),
        (letters_no_sep post Hpost), mem_char_repeat; reflexivity. }
  exists w, rest. split; [exact Ecw|]. split; [exact Hw|]. split; [exact Hrest|].
  split.
  - clearbody w. clear Ec Hcw.
    destruct w as [|c0 [|c1 w]]; try discriminate Hw.
    subst code. unfold isFull in Hf |- *.
    rewrite Hv, Hs in Hf. rewrite Hvw, Hsw. cbn [negb] in Hf |- *.
    cbv zeta in Hf |- *. cbn [append] in Hf |- *.
    change (JsString.charAt (String c0 (String c1 (w ++ String sep_char rest))) 0)
      with (String c0 "") in Hf.
    change (JsString.charAt (String c0 (String c1 (w ++ String sep_char rest))) 1)
      with (String c1 "") in Hf.
    change (JsString.charAt (String c0 (String c1 (w ++ String sep_char ""))) 0)
      with (String c0 "").
    change (JsString.charAt (String c0 (String c1 (w ++ String sep_char ""))) 1)
      with (String c1 "").
    assert (L1 : (JsString.length (String c0 (String c1 (w ++ String sep_char rest)))
                  >? 1) = true).
    { apply Z.gtb_lt. unfold JsString.length. cbn [String.length]. lia. }
    assert (L2 : (JsString.length (String c0 (String c1 (w ++ String sep_char "")))
                  >? 1) = true).
    { apply Z.gtb_lt. unfold JsString.length. cbn [String.length]. lia. }
    rewrite L1 in Hf. rewrite L2. exact Hf.
  - split; [rewrite Hcw; lia|]. split.
    + rewrite Ecw, count_digits_app. cbn [count_digits].
      rewrite Ascii.eqb_refl. cbn [orb]. rewrite (count_digits_letters rest Hrest).
      lia.
    + split.
      * rewrite count_digits_app. cbn [count_digits]. rewrite Ascii.eqb_refl.
        cbn [orb]. lia.
      * intros H. apply Hpad. lia.
Qed.

Lemma substringTo_9 (w rest : string) :
  String.length w = 8%nat ->
  JsString.substringTo (w ++ String sep_char rest) 9 = (w ++ String sep_char "")%string.
Proof.
  intros Hw. unfold JsString.substringTo. change (Z.to_nat 9) with 9%nat.
  replace 9%nat with (String.length (w ++ String sep_char "")).
  - rewrite (app_assoc_char w sep_char rest). apply substring_prefix_app.
  - rewrite length_app. cbn [String.length]. lia.
Qed.

(** X13: [setCode] throws for a string that is no full code, the code alone
    being set; for a full code it returns, having set the area, the time
    and, when the code has more than four digits, its first four characters,
    the characters after them and the neighbourhood: the first nine
    characters, a full code again, of eight digits unless the code has
    fewer.  The second [decode] never throws. *)
Theorem setCode_outcome (this : DisplayedCode) (code : string) (now : Z) :
  (isFull code = false ->
   setCode this code now
   = (mkDisplayedCode (is_set this) (is_pinned this) (Some code) (area_code this)
        (place_code this) (timestamp_millis this) (neighbourhood this)
        (displayed_codeArea this) (neighbourhoodArea this),
      Throw NotFullCode)) /\
  (isFull code = true ->
   exists area hoodArea,
     decode code = Return area /\
     isFull (JsString.substringTo code 9) = true /\
     decode (JsString.substringTo code 9) = Return hoodArea /\
     codeLength hoodArea = Z.min 8 (codeLength area) /\
     (JsString.substringTo code 4 ++ JsString.substringFrom code 4)%string = code /\
     setCode this code now
     = (if codeLength area >? 4
        then mkDisplayedCode (is_set this) (is_pinned this) (Some code)
               (Some (JsString.substringTo code 4))
               (Some (JsString.substringFrom code 4)) now
               (Some (JsString.substringTo code 9)) (Some area) (Some hoodArea)
        else mkDisplayedCode (is_set this) (is_pinned this) (Some code)
               None None now None (Some area) None,
        Return tt)).
Proof.
  split.
  - intros Hf. unfold setCode, decode. rewrite Hf. reflexivity.
  - intros Hf.
    destruct (full_code_prefix code Hf)
      as [w [rest [Ec [Hw [Hrest [Hfw [H2 [Hc [Hcw Hpad]]]]]]]]].
    assert (E9 : JsString.substringTo code 9 = (w ++ String sep_char "")%string)
      by (rewrite Ec; now apply substringTo_9).
    rewrite E9.
    destruct (decode_returns code Hf) as [area Hd].
    pose proof (decode_digits code area Hf Hd) as Hla.
    destruct (decode_returns _ Hfw) as [hoodArea Hdh].
    pose proof (decode_digits _ hoodArea Hfw Hdh) as Hlh.
    exists area, hoodArea.
    split; [exact Hd|]. split; [exact Hfw|]. split; [exact Hdh|].
    split.
    { rewrite Hlh, Hla, Hc, Hcw.
      destruct (Nat.eq_dec (count_digits w) 8) as [E|E].
      - lia.
      - rewrite (Hpad E). cbn [String.length].
        assert (count_digits w <= 8)%nat; [|lia].
        rewrite <- Hw. clear. induction w as [|a w IH]; [apply Nat.le_refl|].
        cbn [count_digits String.length].
        destruct (Ascii.eqb a sep_char || Ascii.eqb a pad_char); lia. }
    split.
    { unfold JsString.substringTo, JsString.substringFrom.
      change (Z.to_nat 4) with 4%nat. apply substring_split. }
    unfold setCode. rewrite Hd, E9, Hdh.
    destruct (codeLength area >? 4); reflexivity.
Qed.

End DisplayedCodes.

(** ** Shortening the displayed code *)

Section ShortenDisplayed.

Context {num : Type} {N : Number num}.

Lemma eqb_length (a b : string) :
  String.length a <> String.length b -> String.eqb a b = false.
Proof.
  intros H. destruct (String.eqb a b) eqn:E; [|reflexivity].
  apply String.eqb_eq in E. now subst.
Qed.

Lemma separator_index (q rest : string) :
  letters q ->
  JsString.indexOf (q ++ String sep_char rest) SEPARATOR_ = JsString.length q.
Proof.
  intros Hq. unfold SEPARATOR_. fold sep_char.
  now rewrite indexOf_char, find_char_app by (now apply letters_no_sep).
Qed.

(** X15: [shortenDisplayedCode] never throws.  When it returns a string, the
    displayed code is a full code and the geocoder's answer is put in the
    cache under the neighbourhood; the string is a short code that keeps two
    digits at least before the separator: the code without its first four or
    six characters (in upper case, or the last case as the code was
    written), or else, for a code not written in upper case that [shorten]
    left whole, the code in upper case.  When it returns [null] nothing is
    put in the cache. *)
Theorem shortenDisplayedCode_result {A : Type} (fuel : nat) (code : DisplayedCode)
        (address : A) (lat lng : num) :
  (forall e, shortenDisplayedCode fuel code address lat lng <> Throw e) /\
  (forall res put,
     shortenDisplayedCode fuel code address lat lng = Return (res, put) ->
     (res = None /\ put = None) \/
     (exists c s,
        displayed_code code = Some c /\ isFull c = true /\
        res = Some s /\ put = Some (neighbourhood code, address, lat, lng) /\
        ((s = JsString.toUpperCase c /\ s <> c) \/
         (isShort s = true /\ 2 <= JsString.indexOf s SEPARATOR_ /\
          (s = JsString.substringFrom (JsString.toUpperCase c) 4 \/
           s = JsString.substringFrom (JsString.toUpperCase c) 6 \/
           s = JsString.substringFrom c 6))))).
Proof.
  unfold shortenDisplayedCode.
  destruct (displayed_code code) as [c|]; [|split; [discriminate|]].
  2:{ intros res put H. apply Return_inj in H. injection H as <- <-. now left. }
  destruct (shorten fuel c lat lng) as [r|e'|] eqn:Es;
    [|split; [discriminate|]|split; [discriminate|discriminate]].
  2:{ intros res put H. apply Return_inj in H. injection H as <- <-. now left. }
  split; [destruct (negb (String.eqb r c)); discriminate|].
  intros res put.
  destruct (shorten_forms fuel c lat lng r Es)
    as [Hf [Hp [c0 [c1 [c2 [c3 [c4 [c5 [c6 [c7 [rest
         [Eu [Hl [Hrest [Hr [E4 [E6 [E8 Hcases]]]]]]]]]]]]]]]]]].
  destruct (short_suffixes c4 c5 c6 c7 rest Hl Hrest Hr) as [S4 [S6 S8]].
  assert (Hlc : JsString.length c = 9 + Z.of_nat (String.length rest)).
  { unfold JsString.length. rewrite <- (length_upper c), Eu.
    cbn [String.length]. lia. }
  pose proof Hl as Hl'.
  apply letters_cons in Hl' as [_ Hl']. apply letters_cons in Hl' as [_ Hl'].
  destruct Hcases as [-> | [-> | [-> | ->]]].
  - (* the code whole *)
    destruct (String.eqb (JsString.toUpperCase c) c) eqn:E; cbn [negb].
    + intros H. apply Return_inj in H. injection H as <- <-. now left.
    + assert (El : (JsString.length (JsString.toUpperCase c)
                    <? JsString.length c - 6) = false).
      { apply Z.ltb_ge. unfold JsString.length. rewrite length_upper. lia. }
      rewrite El. intros H. apply Return_inj in H. injection H as <- <-.
      right. exists c, (JsString.toUpperCase c). repeat split; try reflexivity.
      * exact Hf.
      * left. split; [reflexivity|]. intros H. rewrite H, String.eqb_refl in E.
        discriminate E.
  - (* four characters removed *)
    rewrite E4.
    rewrite eqb_length by (unfold JsString.length in Hlc; cbn [String.length]; lia).
    cbn [negb].
    assert (El : (JsString.length
                    (String c4 (String c5 (String c6 (String c7 (String sep_char rest)))))
                  <? JsString.length c - 6) = false).
    { apply Z.ltb_ge. rewrite Hlc. unfold JsString.length. cbn [String.length]. lia. }
    rewrite El. intros H. apply Return_inj in H. injection H as <- <-.
    right. eexists c, _. repeat split; try reflexivity; try assumption.
    right. split; [exact S4|]. split; [|now left].
    pose proof (separator_index (String c4 (String c5 (String c6 (String c7 "")))) rest Hl) as Hi.
    cbn [String.append] in Hi. rewrite Hi.
    unfold JsString.length. cbn [String.length]. lia.
  - (* six characters removed *)
    rewrite E6.
    rewrite eqb_length by (unfold JsString.length in Hlc; cbn [String.length]; lia).
    cbn [negb].
    assert (El : (JsString.length (String c6 (String c7 (String sep_char rest)))
                  <? JsString.length c - 6) = false).
    { apply Z.ltb_ge. rewrite Hlc. unfold JsString.length. cbn [String.length]. lia. }
    rewrite El. intros H. apply Return_inj in H. injection H as <- <-.
    right. eexists c, _. repeat split; try reflexivity; try assumption.
    right. split; [exact S6|]. split; [|right; now left].
    pose proof (separator_index (String c6 (String c7 "")) rest Hl') as Hi.
    cbn [String.append] in Hi. rewrite Hi.
    unfold JsString.length. cbn [String.length]. lia.
  - (* eight characters removed: six are restored from the code as written *)
    rewrite E8.
    rewrite eqb_length by (unfold JsString.length in Hlc; cbn [String.length]; lia).
    cbn [negb].
    assert (El : (JsString.length (String sep_char rest) <? JsString.length c - 6) = true).
    { apply Z.ltb_lt. rewrite Hlc. unfold JsString.length. cbn [String.length]. lia. }
    rewrite El. intros H. apply Return_inj in H. injection H as <- <-.
    right. eexists c, _. repeat split; try reflexivity; try assumption.
    right.
    destruct (full_unpadded_form c Hf Hp) as [pre [rest' [Ec [Hpre [Hrest' [Hl8 Hr']]]]]].
    destruct pre as [|d0 [|d1 [|d2 [|d3 [|d4 [|d5 [|d6 [|d7 [|? ?]]]]]]]]];
      try discriminate Hl8. clear Hl8.
    apply letters_cons in Hpre as [_ Hpre]. apply letters_cons in Hpre as [_ Hpre].
    apply letters_cons in Hpre as [_ Hpre]. apply letters_cons in Hpre as [_ Hpre].
    destruct (short_suffixes d4 d5 d6 d7 rest' Hpre Hrest' Hr') as [_ [T6 _]].
    apply letters_cons in Hpre as [_ Hpre]. apply letters_cons in Hpre as [_ Hpre].
    assert (F6 : JsString.substringFrom c 6
                 = String d6 (String d7 (String sep_char rest'))).
    { rewrite Ec.
      exact (substringFrom_app
               (String d0 (String d1 (String d2 (String d3 (String d4 (String d5 ""))))))
               (String d6 (String d7 (String sep_char rest')))). }
    rewrite F6. split; [exact T6|]. split; [|right; right; reflexivity].
    pose proof (separator_index (String d6 (String d7 "")) rest' Hpre) as Hi.
    cbn [String.append] in Hi. rewrite Hi.
    unfold JsString.length. cbn [String.length]. lia.
Qed.

End ShortenDisplayed.

Lemma shortenDisplayedCode_result_witness :
  (shortenDisplayedCode (N := Float64.number) 0
     (mkDisplayedCode false false (Some "9C3W9QCJ+2VX") None None 0 (Some "9C3W9QCJ+")
        None None)
     tt (f64 513701125 10000000) (f64 (-1217765625) 1000000000)
   = Return (Some "CJ+2VX",
             Some (Some "9C3W9QCJ+", tt, f64 513701125 10000000,
                   f64 (-1217765625) 1000000000))) /\
  ((Some "CJ+2VX" = None /\
    Some (Some "9C3W9QCJ+", tt, f64 513701125 10000000, f64 (-1217765625) 1000000000)
    = None) \/
   (exists c s,
      Some "9C3W9QCJ+2VX" = Some c /\ isFull c = true /\
      Some "CJ+2VX" = Some s /\
      Some (Some "9C3W9QCJ+", tt, f64 513701125 10000000, f64 (-1217765625) 1000000000)
      = Some (Some "9C3W9QCJ+", tt, f64 513701125 10000000,
              f64 (-1217765625) 1000000000) /\
      ((s = JsString.toUpperCase c /\ s <> c) \/
       (isShort s = true /\ 2 <= JsString.indexOf s SEPARATOR_ /\
        (s = JsString.substringFrom (JsString.toUpperCase c) 4 \/
         s = JsString.substringFrom (JsString.toUpperCase c) 6 \/
         s = JsString.substringFrom c 6))))).
Proof.
  assert (H : shortenDisplayedCode (N := Float64.number) 0
                (mkDisplayedCode false false (Some "9C3W9QCJ+2VX") None None 0
                   (Some "9C3W9QCJ+") None None)
                tt (f64 513701125 10000000) (f64 (-1217765625) 1000000000)
              = Return (Some "CJ+2VX",
                        Some (Some "9C3W9QCJ+", tt, f64 513701125 10000000,
                              f64 (-1217765625) 1000000000)))
    by (vm_compute; reflexivity).
  split; [exact H|].
  exact (proj2 (shortenDisplayedCode_result (N := Float64.number) 0
                  (mkDisplayedCode false false (Some "9C3W9QCJ+2VX") None None 0
                     (Some "9C3W9QCJ+") None None)
                  tt (f64 513701125 10000000) (f64 (-1217765625) 1000000000))
               _ _ H).
Defined.

(** ** Zoom levels and code lengths *)

Section Zoom.

Context {num : Type} {N : Number num}.

Lemma zoomLevel_cases (len : Z) :
  zoomLevel_loop CodeLengthZoom len 4 =
  if len >=? 11 then 20 else if len >=? 10 then 18 else if len >=? 8 then 14
  else if len >=? 6 then 8 else if len >=? 4 then 0 else 4.
Proof.
  unfold CodeLengthZoom. cbn [zoomLevel_loop].
  repeat match goal with |- context [?a >=? ?b] =>
    let E := fresh "E" in destruct (Z.geb_spec a b) as [E|E] end;
    try reflexivity; lia.
Qed.

Lemma codeLength_cases (zoom : Z) :
  codeLength_loop CodeLengthZoom zoom 4 =
  if zoom >=? 20 then 11 else if zoom >=? 18 then 10 else if zoom >=? 14 then 8
  else if zoom >=? 8 then 6 else 4.
Proof.
  unfold CodeLengthZoom. cbn [codeLength_loop].
  repeat match goal with |- context [?a >=? ?b] =>
    let E := fresh "E" in destruct (Z.geb_spec a b) as [E|E] end;
    try reflexivity; lia.
Qed.

(** X16: [zoomToCode(code)] throws when the code is not a full code.  For a full
    code it zooms to the centre of the decoded area, at a level that depends
    on the number of digits only: 0 for 4 digits, 8 for 6, 14 for 8, 18 for
    10, 20 for 11 or more -- and 4 for a code of 2 digits, whose area is the
    largest: the starting level is kept, since no entry of the table is as
    low as 2. *)
Theorem zoomToCode_level (displayed : CodeArea) (code : string) :
  (isFull code = false -> zoomToCode displayed (Some code) = Throw NotFullCode) /\
  (isFull code = true ->
   exists area level,
     decode code = Return area /\
     zoomToCode displayed (Some code)
     = Return (latitudeCenter area, longitudeCenter area, level) /\
     ((count_digits code = 2%nat /\ level = 4) \/
      (count_digits code = 4%nat /\ level = 0) \/
      (count_digits code = 6%nat /\ level = 8) \/
      (count_digits code = 8%nat /\ level = 14) \/
      (count_digits code = 10%nat /\ level = 18) \/
      ((11 <= count_digits code)%nat /\ level = 20))).
Proof.
  split.
  - intros Hf. unfold zoomToCode, decode. now rewrite Hf.
  - intros Hf. destruct (decode_returns code Hf) as [area Hd].
    exists area, (zoomLevel_loop CodeLengthZoom (codeLength area) 4).
    split; [exact Hd|]. split; [unfold zoomToCode; now rewrite Hd|].
    rewrite zoomLevel_cases, (decode_digits code area Hf Hd).
    pose proof (full_code_digits code Hf) as Hn.
    repeat match goal with |- context [?a >=? ?b] =>
      let E := fresh "E" in destruct (Z.geb_spec a b) as [E|E] end; lia.
Qed.

(** X17: The map handlers ask [encode] for a code of 4, 6, 8, 10 or 11 digits,
    more digits at a higher zoom level, so that [encode] never throws
    there and returns a code as soon as [normalizeLongitude] has returned.
    Zooming to a code of that length, as [zoomToCode] does, never zooms in
    beyond the level the map has, and at the levels of the table (0, 8, 14,
    18, 20) it keeps the level. *)
Theorem mapCode_length (fuel : nat) (lat lng : num) (zoom : Z) :
  let len := codeLength_loop CodeLengthZoom zoom 4 in
  (len = 4 \/ len = 6 \/ len = 8 \/ len = 10 \/ len = 11) /\
  (forall zoom', zoom <= zoom' ->
     len <= codeLength_loop CodeLengthZoom zoom' 4) /\
  (forall e, mapCode fuel lat lng zoom <> Throw e) /\
  (forall lng', normalizeLongitude fuel lng = Return lng' ->
     exists code, mapCode fuel lat lng zoom = Return code) /\
  (0 <= zoom -> zoomLevel_loop CodeLengthZoom len 4 <= zoom) /\
  (In zoom [0; 8; 14; 18; 20] -> zoomLevel_loop CodeLengthZoom len 4 = zoom).
Proof.
  intros len.
  assert (Hlen : len = 4 \/ len = 6 \/ len = 8 \/ len = 10 \/ len = 11).
  { unfold len. rewrite codeLength_cases.
    repeat match goal with |- context [?a >=? ?b] => destruct (a >=? b) end; lia. }
  assert (Hacc : ~ rejected_length len).
  { unfold rejected_length. intros [H|[H1 H2]]; [lia|].
    destruct Hlen as [-> | [-> | [-> | [-> | ->]]]]; try lia; discriminate H2. }
  split; [exact Hlen|]. split; [|split; [|split; [|split]]].
  - intros zoom' Hz. unfold len. rewrite !codeLength_cases.
    repeat match goal with |- context [?a >=? ?b] =>
      let E := fresh "E" in destruct (Z.geb_spec a b) as [E|E] end; lia.
  - intros e. unfold mapCode. fold len. rewrite (encode_accepted _ _ _ _ Hacc).
    cbv zeta. destruct (normalizeLongitude fuel lng) as [l| |] eqn:E; cbn [bind].
    + destruct (len >? PAIR_CODE_LENGTH_); discriminate.
    + now apply normalizeLongitude_no_throw in E.
    + discriminate.
  - intros lng' Hl. unfold mapCode. fold len. rewrite (encode_accepted _ _ _ _ Hacc).
    cbv zeta. rewrite Hl. cbn [bind]. destruct (len >? PAIR_CODE_LENGTH_); eauto.
  - intros Hz. unfold len. rewrite codeLength_cases, zoomLevel_cases.
    repeat match goal with |- context [zoom >=? ?b] =>
      let E := fresh "E" in destruct (Z.geb_spec zoom b) as [E|E] end;
      cbn; lia.
  - intros Hin. cbn [In] in Hin. unfold len. rewrite codeLength_cases, zoomLevel_cases.
    repeat match goal with |- context [zoom >=? ?b] =>
      let E := fresh "E" in destruct (Z.geb_spec zoom b) as [E|E] end;
      cbn; lia.
Qed.

End Zoom.

(** ** The search input *)

Section SearchInputFacts.

Import SearchInput.



Lemma length_nonneg (s : string) : 0 <= JsString.length s.
Proof. unfold JsString.length. lia. Qed.

Lemma length_empty (s : string) : JsString.length s <= 0 -> s = "".
Proof. destruct s; [reflexivity|]. unfold JsString.length. cbn [String.length]. lia. Qed.




End SearchInputFacts.

(** ** The outcomes of [recoverNearest] *)

Section RecoverOutcomes.

Context {num : Type} {N : Number num}.

Lemma encode_no_throw (fuel : nat) (lat lng : num) (len : Z) (e : exn) :
  ~ rejected_length len -> encode fuel lat lng len <> Throw e.
Proof.
  intros H. rewrite (encode_accepted _ _ _ _ H). cbv zeta.
  destruct (normalizeLongitude fuel lng) as [l| |] eqn:E; cbn [bind].
  - destruct (len >? PAIR_CODE_LENGTH_); discriminate.
  - now apply normalizeLongitude_no_throw in E.
  - discriminate.
Qed.

(** The length [decode] reports is one [encode] accepts. *)
Lemma decoded_length_accepted (code : string) (area : CodeArea) :
  decode code = Return area -> ~ rejected_length (codeLength area).
Proof.
  intros Hd.
  assert (Hf : isFull code = true).
  { unfold decode in Hd. destruct (isFull code); [reflexivity|discriminate Hd]. }
  rewrite (decode_digits code area Hf Hd).
  pose proof (full_code_digits code Hf) as Hn.
  unfold rejected_length. intros [H|[H1 H2]]; [lia|].
  destruct Hn as [Hn|[Hn|[Hn|[Hn|Hn]]]]; try lia; rewrite Hn in H2; discriminate H2.
Qed.

(** X8: [recoverNearest] returns a full code as it is.  It throws the error of
    a code that is not short exactly when the string is neither a short nor
    a full code.  On a short code the only error it can throw is the one of
    [decode], when the code put together from the reference and the short
    code is no full code; its two calls of [encode] never throw, the
    lengths being 10 and the length of a decoded code. *)
Theorem recoverNearest_outcomes (fuel : nat) (code : string) (lat lng : num) :
  (isFull code = true -> recoverNearest fuel code lat lng = Return code) /\
  (recoverNearest fuel code lat lng = Throw NotShortCode <->
   isShort code = false /\ isFull code = false) /\
  (forall e, recoverNearest fuel code lat lng = Throw e ->
             (e = NotShortCode /\ isShort code = false) \/
             (e = NotFullCode /\ isShort code = true)).
Proof.
  unfold recoverNearest. destruct (isShort code) eqn:Hs; cbn [negb].
  2:{ destruct (isFull code) eqn:Hf.
      - split; [reflexivity|]. split; [split; [discriminate|intros [_ H]; discriminate H]|].
        discriminate.
      - split; [discriminate|]. split; [split; [now split|reflexivity]|].
        intros e H. left. split; [congruence|reflexivity]. }
  cbv zeta.
  match goal with |- context [bind (normalizeLongitude fuel lng) ?k] =>
    set (r := bind (normalizeLongitude fuel lng) k) end.
  assert (Hthrow : forall e, r = Throw e -> e = NotFullCode).
  { intros e. unfold r.
    destruct (normalizeLongitude fuel lng) as [l|e'|] eqn:En; cbn [bind];
      [|now apply normalizeLongitude_no_throw in En|discriminate].
    match goal with |- bind ?enc _ = _ -> _ => destruct enc as [padded|e'|] eqn:Ee end;
      cbn [bind]; [| |discriminate].
    2:{ apply encode_no_throw in Ee; [contradiction|].
        unfold rejected_length, PAIR_CODE_LENGTH_. intros [H|[H _]]; lia. }
    match goal with |- bind ?dec _ = _ -> _ => destruct dec as [area|e'|] eqn:Ed end;
      cbn [bind]; [| |discriminate].
    - intros H. apply encode_no_throw in H; [contradiction|].
      exact (decoded_length_accepted _ _ Ed).
    - intros H. injection H as <-. unfold decode in Ed.
      destruct (isFull _); cbn [negb] in Ed; [|congruence].
      cbv zeta in Ed. destruct (_ <=? _); discriminate Ed. }
  split.
  - intros Hf. apply isFull_not_short in Hf. congruence.
  - split.
    + split; [|intros [H _]; discriminate H].
      intros H. apply Hthrow in H. discriminate H.
    + intros e H. right. split; [exact (Hthrow e H)|reflexivity].
Qed.

End RecoverOutcomes.

(** ** Infinite longitudes in binary64 *)

Lemma normalizeLongitude_infinity (fuel : nat) :
  normalizeLongitude (N := Float64.number) fuel infinity = Running.
Proof.
  unfold normalizeLongitude.
  assert (Hup : normalize_up (N := Float64.number) fuel infinity = Return infinity)
    by now destruct fuel.
  rewrite Hup. cbn [bind]. clear Hup.
  induction fuel as [|fuel IH]; [reflexivity|exact IH].
Qed.

Lemma normalizeLongitude_neg_infinity (fuel : nat) :
  normalizeLongitude (N := Float64.number) fuel neg_infinity = Running.
Proof.
  unfold normalizeLongitude.
  assert (Hup : normalize_up (N := Float64.number) fuel neg_infinity = Running).
  { induction fuel as [|fuel IH]; [reflexivity|exact IH]. }
  now rewrite Hup.
Qed.

(** X9: In binary64 the loops of [normalizeLongitude] never end at an infinite
    longitude, adding or subtracting 360 leaving it as it is: whatever the
    fuel, [encode] at a length it accepts, [shorten] on a full code without
    padding and [recoverNearest] on a short code return nothing there. *)
Theorem infinite_longitude_never_returns (fuel : nat) (lat lng : float)
        (len : Z) (full short : string) :
  lng = infinity \/ lng = neg_infinity ->
  normalizeLongitude (N := Float64.number) fuel lng = Running /\
  (~ rejected_length len -> encode (N := Float64.number) fuel lat lng len = Running) /\
  (isFull full = true -> JsString.indexOf full PADDING_CHARACTER_ = -1 ->
   shorten (N := Float64.number) fuel full lat lng = Running) /\
  (isShort short = true ->
   recoverNearest (N := Float64.number) fuel short lat lng = Running).
Proof.
  intros Hlng.
  assert (Hn : normalizeLongitude (N := Float64.number) fuel lng = Running).
  { destruct Hlng as [-> | ->];
      [apply normalizeLongitude_infinity|apply normalizeLongitude_neg_infinity]. }
  split; [exact Hn|]. split; [|split].
  - intros Hacc. rewrite (encode_accepted _ _ _ _ Hacc). cbv zeta. now rewrite Hn.
  - intros Hf Hp. now apply shorten_running.
  - intros Hs. unfold recoverNearest. rewrite Hs. cbn [negb]. cbv zeta.
    now rewrite Hn.
Qed.

Lemma infinite_longitude_never_returns_witness :
  normalizeLongitude (N := Float64.number) 1000 neg_infinity = Running /\
  encode (N := Float64.number) 1000 0%float neg_infinity 10 = Running /\
  shorten (N := Float64.number) 1000 "9C3W9QCJ+2VX" 0%float neg_infinity = Running /\
  recoverNearest (N := Float64.number) 1000 "CJ+2VX" 0%float neg_infinity = Running.
Proof.
  destruct (infinite_longitude_never_returns 1000 0%float neg_infinity 10
              "9C3W9QCJ+2VX" "CJ+2VX") as [H1 [H2 [H3 H4]]].
  - right. reflexivity.
  - split; [exact H1|]. split; [apply H2; unfold rejected_length; lia|].
    split; [apply H3; reflexivity|apply H4; reflexivity].
Defined.

(** ** The odd length 9 *)

Section LengthNine.

Context {num : Type} {N : Number num}.

Lemma encodePairs_9 (latitude longitude : num) :
  encodePairs latitude longitude 9 = encodePairs latitude longitude 10.
Proof.
  unfold encodePairs. cbv zeta.
  change (Z.to_nat 9) with 9%nat. change (Z.to_nat 10) with 10%nat.
  cbn [encodePairs_loop Z.ltb Z.compare Z.add Z.eqb Pos.compare Pos.compare_cont
       Pos.add Pos.succ Pos.eqb andb SEPARATOR_POSITION_ Z.div].
  reflexivity.
Qed.

(** X23: [encode] treats the length 9, the one odd length it accepts below 11,
    as the length 10, for every number type: the loop of [encodePairs]
    writes the digits two at a time, and [computeLatitudePrecision] rounds
    the exponent down. *)
Theorem encode_length_9_as_10 (fuel : nat) (lat lng : num) :
  encode fuel lat lng 9 = encode fuel lat lng 10.
Proof.
  rewrite !encode_accepted by (unfold rejected_length; lia). cbv zeta.
  change (Z.min 9 PAIR_CODE_LENGTH_) with 9. change (Z.min 10 PAIR_CODE_LENGTH_) with 10.
  change (9 >? PAIR_CODE_LENGTH_) with false. change (10 >? PAIR_CODE_LENGTH_) with false.
  change (computeLatitudePrecision 9) with (computeLatitudePrecision 10).
  destruct (normalizeLongitude fuel lng) as [l| |]; cbn [bind];
    [|reflexivity|reflexivity].
  now rewrite encodePairs_9.
Qed.

End LengthNine.
